(** * session-memory: a shallow embedding of [SessionMemory]

    The Python class [SessionMemory] (src/session-memory.py) keeps a ledger of
    file reads, changes, test runs, notes and errors in six SQLite tables.
    This development embeds the class in Rocq and proves properties of it.

    What is modelled, and how:
    - a table is the list of its rows in rowid (insertion) order; a nullable
      column is an [option];
    - the clock ([CURRENT_TIMESTAMP], in seconds), the working directory
      ([os.getcwd()]) and the file system are explicit inputs of every
      operation; an operation reads the clock once;
    - a Python exception is a [Raise] result, and a bare [except:] is a match
      on it;
    - [hashlib.md5] is the RFC 1321 algorithm on 32-bit words written as [Z]
      with the wrap-around spelled out;
    - Python floats are the kernel's binary64 floats;
    - text is a [string] of 8-bit characters; [str.lower], the regular
      expression classes [\s] and [\w] and the text decoding of a file are
      exact on ASCII (a non-ASCII byte is kept as a character that is neither
      a space nor a word character). *)

From Stdlib Require Import List String Ascii ZArith NArith Lia Bool.
From Stdlib.Strings Require Import Byte.
From Stdlib Require Import Permutation Sorted PrimFloat Uint63.
From Stdlib Require Import SpecFloat FloatOps DecimalString.
Import ListNotations.

Local Open Scope string_scope.
Local Open Scope Z_scope.

(** ** Python results: a value or a raised exception *)

Inductive exn : Type :=
| FileNotFoundError
| PermissionError
| IsADirectoryError
| OSError.

Inductive result (A : Type) : Type :=
| Ok (a : A)
| Raise (e : exn).

Arguments Ok {A} a.
Arguments Raise {A} e.

(** ** Python string operations *)

Module Py.

(** [s.startswith(p)] *)
Fixpoint startswith (p s : string) : bool :=
  match p, s with
  | EmptyString, _ => true
  | String _ _, EmptyString => false
  | String a p', String b s' => Ascii.eqb a b && startswith p' s'
  end.

(** [p in s] *)
Fixpoint contains (p s : string) : bool :=
  startswith p s ||
  match s with
  | EmptyString => false
  | String _ s' => contains p s'
  end.

(** [s.endswith(p)] *)
Definition endswith (p s : string) : bool :=
  let n := String.length s in
  let m := String.length p in
  Nat.leb m n && String.eqb (substring (n - m) m s) p.

Definition is_upper (c : ascii) : bool :=
  let n := nat_of_ascii c in Nat.leb 65 n && Nat.leb n 90.

Definition lower_char (c : ascii) : ascii :=
  if is_upper c then ascii_of_nat (nat_of_ascii c + 32) else c.

(** [s.lower()] *)
Fixpoint lower (s : string) : string :=
  match s with
  | EmptyString => EmptyString
  | String c s' => String (lower_char c) (lower s')
  end.

(** [s.split(sep)] for a one-character separator: the current piece is
    accumulated in reverse in [cur]. *)
Fixpoint split_acc (sep : ascii) (s : string) (cur : string) : list string :=
  match s with
  | EmptyString => [cur]
  | String c s' =>
      if Ascii.eqb c sep then cur :: split_acc sep s' EmptyString
      else split_acc sep s' (cur ++ String c EmptyString)
  end.

Definition split (sep : ascii) (s : string) : list string :=
  split_acc sep s EmptyString.

(** [sep.join(l)] *)
Fixpoint join (sep : string) (l : list string) : string :=
  match l with
  | [] => EmptyString
  | [x] => x
  | x :: rest => x ++ sep ++ join sep rest
  end.

(** [s.rfind(c)] for a character, [None] for -1 *)
Fixpoint rfind (c : ascii) (s : string) : option nat :=
  match s with
  | EmptyString => None
  | String a s' =>
      match rfind c s' with
      | Some i => Some (S i)
      | None => if Ascii.eqb a c then Some O else None
      end
  end.

(** [s[i:]] *)
Definition drop (i : nat) (s : string) : string :=
  substring i (String.length s - i) s.

End Py.

(** ** MD5 (RFC 1321), as [hashlib.md5(data).hexdigest()] *)

Module MD5.

Definition mask32 : Z := 4294967295.

Definition wrap32 (x : Z) : Z := Z.land x mask32.

Definition add32 (x y : Z) : Z := wrap32 (x + y).

Definition not32 (x : Z) : Z := Z.lxor x mask32.

Definition rotl32 (x s : Z) : Z :=
  wrap32 (Z.lor (Z.shiftl x s) (Z.shiftr x (32 - s))).

(** The per-round shift amounts. *)
Definition shifts : list Z :=
  [7; 12; 17; 22; 7; 12; 17; 22; 7; 12; 17; 22; 7; 12; 17; 22;
   5; 9; 14; 20; 5; 9; 14; 20; 5; 9; 14; 20; 5; 9; 14; 20;
   4; 11; 16; 23; 4; 11; 16; 23; 4; 11; 16; 23; 4; 11; 16; 23;
   6; 10; 15; 21; 6; 10; 15; 21; 6; 10; 15; 21; 6; 10; 15; 21].

(** [floor(2^32 * abs(sin(i + 1)))] for i = 0..63. *)
Definition sines : list Z :=
  [3614090360; 3905402710; 606105819; 3250441966; 4118548399; 1200080426;
   2821735955; 4249261313; 1770035416; 2336552879; 4294925233; 2304563134;
   1804603682; 4254626195; 2792965006; 1236535329; 4129170786; 3225465664;
   643717713; 3921069994; 3593408605; 38016083; 3634488961; 3889429448;
   568446438; 3275163606; 4107603335; 1163531501; 2850285829; 4243563512;
   1735328473; 2368359562; 4294588738; 2272392833; 1839030562; 4259657740;
   2763975236; 1272893353; 4139469664; 3200236656; 681279174; 3936430074;
   3572445317; 76029189; 3654602809; 3873151461; 530742520; 3299628645;
   4096336452; 1126891415; 2878612391; 4237533241; 1700485571; 2399980690;
   4293915773; 2240044497; 1873313359; 4264355552; 2734768916; 1309151649;
   4149444226; 3174756917; 718787259; 3951481745].

Record state : Type := mkState { sa : Z; sb : Z; sc : Z; sd : Z }.

Definition init : state :=
  mkState 1732584193 4023233417 2562383102 271733878.

Definition byteZ (b : byte) : Z := Z.of_N (Byte.to_N b).

(** The message followed by 0x80, zeros up to 56 mod 64, and the bit length
    as a 64-bit little-endian integer. *)
Definition le_bytes (n : nat) (x : Z) : list Z :=
  map (fun i => Z.land (Z.shiftr x (8 * Z.of_nat i)) 255) (seq 0 n).

Definition pad (msg : list byte) : list Z :=
  let len := Z.of_nat (List.length msg) in
  let zeros := Z.to_nat ((55 - len) mod 64) in
  map byteZ msg ++ [128] ++ repeat 0 zeros ++ le_bytes 8 (Z.land (8 * len) 18446744073709551615).

Definition word_of (bs : list Z) : Z :=
  fold_right (fun b acc => b + 256 * acc) 0 bs.

(** The sixteen little-endian words of a 64-byte block. *)
Fixpoint words (n : nat) (bs : list Z) : list Z :=
  match n with
  | O => []
  | S n' => word_of (firstn 4 bs) :: words n' (skipn 4 bs)
  end.

Definition round (m : list Z) (st : state) (i : Z) : state :=
  let '(mkState a b c d) := st in
  let '(f, g) :=
    if i <? 16 then (Z.lor (Z.land b c) (Z.land (not32 b) d), i)
    else if i <? 32 then (Z.lor (Z.land d b) (Z.land (not32 d) c), (5 * i + 1) mod 16)
    else if i <? 48 then (Z.lxor (Z.lxor b c) d, (3 * i + 5) mod 16)
    else (Z.lxor c (Z.lor b (not32 d)), (7 * i) mod 16) in
  let f' := add32 (add32 (add32 f a) (nth (Z.to_nat i) sines 0)) (nth (Z.to_nat g) m 0) in
  mkState d (add32 b (rotl32 f' (nth (Z.to_nat i) shifts 0))) b c.

Definition block (st : state) (bs : list Z) : state :=
  let m := words 16 bs in
  let st' := fold_left (round m) (map Z.of_nat (seq 0 64)) st in
  mkState (add32 (sa st) (sa st')) (add32 (sb st) (sb st'))
          (add32 (sc st) (sc st')) (add32 (sd st) (sd st')).

Fixpoint blocks (n : nat) (st : state) (bs : list Z) : state :=
  match n with
  | O => st
  | S n' => blocks n' (block st (firstn 64 bs)) (skipn 64 bs)
  end.

Definition digest (msg : list byte) : list Z :=
  let p := pad msg in
  let st := blocks (List.length p / 64) init p in
  le_bytes 4 (sa st) ++ le_bytes 4 (sb st) ++ le_bytes 4 (sc st) ++ le_bytes 4 (sd st).

Definition hex_digit (x : Z) : ascii :=
  nth (Z.to_nat x) (list_ascii_of_string "0123456789abcdef") "0"%char.

Definition hex_byte (x : Z) : string :=
  String (hex_digit (Z.shiftr x 4)) (String (hex_digit (Z.land x 15)) EmptyString).

Definition hexdigest (msg : list byte) : string :=
  String.concat "" (map hex_byte (digest msg)).

End MD5.

(** ** The file system and [posixpath] / [pathlib] *)

Inductive fs_entry : Type :=
| Missing
| Directory
| Unreadable
| Inaccessible
| File (content : list byte).

(** What the operating system finds at a path string. [Unreadable] is a
    file without read permission: it can be examined ([stat]) but not
    opened. [Inaccessible] is a path that cannot even be examined (no search
    permission on a directory above it, a name that is too long): [stat] and
    [open] both raise an [OSError]. *)
Definition filesystem : Type := string -> fs_entry.

Definition bytes_of (s : string) : list byte := list_byte_of_string s.

(** [open(path, 'rb').read()] *)
Definition read_bytes (fs : filesystem) (path : string) : result (list byte) :=
  match fs path with
  | Missing => Raise FileNotFoundError
  | Directory => Raise IsADirectoryError
  | Unreadable => Raise PermissionError
  | Inaccessible => Raise PermissionError
  | File content => Ok content
  end.

Module Path.

Definition slash : ascii := "/"%char.
Definition dot : ascii := "."%char.

Definition isabs (p : string) : bool := Py.startswith "/" p.

(** [posixpath.join(a, b)] *)
Definition join (a b : string) : string :=
  if Py.startswith "/" b then b
  else if String.eqb a "" || Py.endswith "/" a then a ++ b
  else a ++ "/" ++ b.

(** The loop of [posixpath.normpath]; [acc] is [new_comps] in reverse. *)
Fixpoint norm_comps (initial_slashes : nat) (comps : list string) (acc : list string) : list string :=
  match comps with
  | [] => rev acc
  | comp :: rest =>
      if String.eqb comp "" || String.eqb comp "." then norm_comps initial_slashes rest acc
      else if negb (String.eqb comp "..")
              || (Nat.eqb initial_slashes 0 && match acc with [] => true | _ => false end)
              || match acc with last :: _ => String.eqb last ".." | [] => false end
      then norm_comps initial_slashes rest (comp :: acc)
      else norm_comps initial_slashes rest (tl acc)
  end.

Definition initial_slashes (p : string) : nat :=
  if Py.startswith "/" p then
    if Py.startswith "//" p && negb (Py.startswith "///" p) then 2%nat else 1%nat
  else 0%nat.

Definition slashes (n : nat) : string :=
  string_of_list_ascii (repeat slash n).

(** [posixpath.normpath(p)] *)
Definition normpath (p : string) : string :=
  if String.eqb p "" then "."
  else
    let n := initial_slashes p in
    let q := slashes n ++ Py.join "/" (norm_comps n (Py.split slash p) []) in
    if String.eqb q "" then "." else q.

(** [os.path.abspath(p)] in working directory [cwd] *)
Definition abspath (cwd p : string) : string :=
  normpath (if isabs p then p else join cwd p).

(** [os.path.basename(p)]: what follows the last slash *)
Definition basename (p : string) : string :=
  match Py.rfind slash p with
  | Some i => Py.drop (S i) p
  | None => p
  end.

(** The components [pathlib.Path(p)] keeps: empty and "." ones are dropped. *)
Definition parts (p : string) : list string :=
  filter (fun c => negb (String.eqb c "" || String.eqb c ".")) (Py.split slash p).

(** [str(Path(p))] *)
Definition to_str (p : string) : string :=
  let q := slashes (initial_slashes p) ++ Py.join "/" (parts p) in
  if String.eqb q "" then "." else q.

(** [Path(p).name] *)
Definition name (p : string) : string := last (parts p) "".

(** [Path(p).suffix]: from the last dot of the name, unless that dot is the
    first or the last character. *)
Definition suffix (p : string) : string :=
  let n := name p in
  match Py.rfind dot n with
  | Some i => if Nat.ltb 0 i && Nat.ltb i (String.length n - 1) then Py.drop i n else ""
  | None => ""
  end.

(** [Path(p).is_dir()], as [pathlib] of Python 3.11 has it: false when the
    path does not exist, and the [OSError] of [stat] is raised again when it
    is another one. *)
Definition is_dir (fs : filesystem) (p : string) : result bool :=
  match fs (to_str p) with
  | Directory => Ok true
  | Inaccessible => Raise PermissionError
  | _ => Ok false
  end.

End Path.

(** ** Regular expressions of [infer_context] *)

Module Re.

(** [\s] on ASCII: tab, newline, vertical tab, form feed, carriage return,
    the four separators 0x1c-0x1f, and space. *)
Definition is_space (c : ascii) : bool :=
  let n := nat_of_ascii c in
  (Nat.leb 9 n && Nat.leb n 13) || (Nat.leb 28 n && Nat.leb n 32).

(** [\w] on ASCII: letters, digits and underscore. *)
Definition is_word (c : ascii) : bool :=
  let n := nat_of_ascii c in
  (Nat.leb 48 n && Nat.leb n 57) || (Nat.leb 65 n && Nat.leb n 90)
  || (Nat.leb 97 n && Nat.leb n 122) || Nat.eqb n 95.

Fixpoint skip_spaces (s : string) : string :=
  match s with
  | EmptyString => EmptyString
  | String c s' => if is_space c then skip_spaces s' else s
  end.

(** [kw\s+\w+] matched at the start of [s]. *)
Definition keyword_at (kw s : string) : bool :=
  Py.startswith kw s &&
  match Py.drop (String.length kw) s with
  | String c r =>
      is_space c &&
      match skip_spaces r with
      | String w _ => is_word w
      | EmptyString => false
      end
  | EmptyString => false
  end.

(** [re.search]: a match at some position of [s]. *)
Fixpoint search (m : string -> bool) (s : string) : bool :=
  m s ||
  match s with
  | EmptyString => false
  | String _ s' => search m s'
  end.

(** [re.search(r'class\s+\w+', s)] *)
Definition class_pattern (s : string) : bool :=
  search (keyword_at "class") s.

(** [re.search(r'function\s+\w+|def\s+\w+', s)] *)
Definition function_pattern (s : string) : bool :=
  search (fun t => keyword_at "function" t || keyword_at "def" t) s.

End Re.

(** ** Text-mode reading *)

Definition LF : ascii := ascii_of_nat 10.
Definition CR : ascii := ascii_of_nat 13.

(** Universal newlines: "\r\n" and a lone "\r" are read as "\n". *)
Fixpoint universal_newlines (s : string) : string :=
  match s with
  | EmptyString => EmptyString
  | String c s' =>
      if Ascii.eqb c CR then
        match s' with
        | String d s'' =>
            if Ascii.eqb d LF then String LF (universal_newlines s'')
            else String LF (universal_newlines s')
        | EmptyString => String LF EmptyString
        end
      else String c (universal_newlines s')
  end.

(** [''.join(f.readlines()[:n])]: the text up to and including its n-th
    newline. *)
Fixpoint take_lines (s : string) (n : nat) {struct s} : string :=
  match n with
  | O => EmptyString
  | S n' =>
      match s with
      | EmptyString => EmptyString
      | String c s' =>
          String c (if Ascii.eqb c LF then take_lines s' n' else take_lines s' n)
      end
  end.

(** [open(path, 'r', encoding='utf-8', errors='ignore')] followed by
    [f.readlines()], joined back. *)
Definition read_text (fs : filesystem) (path : string) : result string :=
  match read_bytes fs path with
  | Ok content => Ok (universal_newlines (string_of_list_byte content))
  | Raise e => Raise e
  end.

(** ** [SessionMemory.file_hash] *)

Definition file_hash (fs : filesystem) (file_path : string) : option string :=
  match read_bytes fs file_path with
  | Ok content => Some (MD5.hexdigest content)
  | Raise _ => None
  end.

(** ** [SessionMemory.infer_context] *)

Definition contexts : list (string * string) :=
  [ (".py", "Examining Python code");
    (".js", "Examining JavaScript code");
    (".ts", "Examining TypeScript code");
    (".jsx", "Examining React component");
    (".tsx", "Examining React TypeScript component");
    (".css", "Examining styles");
    (".scss", "Examining SCSS styles");
    (".html", "Examining HTML markup");
    (".json", "Examining configuration/data");
    (".md", "Examining documentation");
    (".yml", "Examining YAML configuration");
    (".yaml", "Examining YAML configuration");
    (".toml", "Examining TOML configuration");
    (".dockerfile", "Examining Docker configuration");
    (".sql", "Examining database schema/queries");
    (".sh", "Examining shell script");
    (".bash", "Examining bash script");
    (".zsh", "Examining zsh script") ].

Definition special_files : list (string * string) :=
  [ ("package.json", "Examining project dependencies and scripts");
    ("requirements.txt", "Examining Python dependencies");
    ("cargo.toml", "Examining Rust project configuration");
    ("dockerfile", "Examining Docker container setup");
    ("makefile", "Examining build configuration");
    ("readme", "Reading project documentation");
    ("changelog", "Examining project history");
    ("license", "Examining project license");
    (".gitignore", "Examining git ignore patterns");
    (".env", "Examining environment configuration");
    ("config", "Examining configuration file") ].

(** [d.get(k)] on a dict written as its items in insertion order *)
Definition dict_get {V : Type} (k : string) (d : list (string * V)) : option V :=
  match find (fun kv => String.eqb (fst kv) k) d with
  | Some kv => Some (snd kv)
  | None => None
  end.

(** The loop over [special_files.items()]: the first pattern contained in
    the lowercase file name. *)
Definition special_match (filename_lower : string) : option string :=
  match find (fun kv => Py.contains (fst kv) filename_lower) special_files with
  | Some kv => Some (snd kv)
  | None => None
  end.

(** The [if]/[elif] chain inside the inner [try]; [ext] is [suffix[1:]]. *)
Definition refine (ext filename_lower first_lines context : string) : string :=
  if Py.contains "test" filename_lower || Py.contains "spec" filename_lower
  then "Examining " ++ ext ++ " test file"
  else if Py.contains "api" filename_lower || Py.contains "endpoint" filename_lower
  then "Examining " ++ ext ++ " API code"
  else if Py.contains "component" filename_lower
  then "Examining " ++ ext ++ " component"
  else if Py.contains "util" filename_lower || Py.contains "helper" filename_lower
  then "Examining " ++ ext ++ " utility functions"
  else if Py.contains "config" filename_lower || Py.contains "setting" filename_lower
  then "Examining " ++ ext ++ " configuration"
  else if Re.class_pattern first_lines
  then "Examining " ++ ext ++ " class definition"
  else if Re.function_pattern first_lines
  then "Examining " ++ ext ++ " function definitions"
  else if Py.contains "import" first_lines || Py.contains "from" first_lines
  then "Examining " ++ ext ++ " module imports and setup"
  else context.

(** The inner [try] covers the opening and the reading of the file: on any
    exception the context found so far is kept. Under the outer [try] only
    [is_dir] can raise on a path that is a string; its handler then returns
    "Examining file". *)
Definition infer_context (fs : filesystem) (file_path : string) : string :=
  let filename_lower := Py.lower (Path.name file_path) in
  match special_match filename_lower with
  | Some context => context
  | None =>
      let suffix := Py.lower (Path.suffix file_path) in
      match dict_get suffix contexts with
      | Some context =>
          match read_text fs (Path.to_str file_path) with
          | Ok text =>
              let first_lines := Py.lower (take_lines text 10) in
              refine (Py.drop 1 suffix) filename_lower first_lines context
          | Raise _ => context
          end
      | None =>
          match Path.is_dir fs file_path with
          | Ok true => "Examining directory structure"
          | Ok false =>
              "Examining " ++ (if String.eqb suffix "" then "file" else Py.drop 1 suffix)
          | Raise _ => "Examining file"
          end
      end
  end.

(** ** [json.dumps] and [json.loads] on lists of strings *)

Module Json.

Definition quote : ascii := ascii_of_nat 34.
Definition backslash : ascii := ascii_of_nat 92.

Definition hex_digit (n : nat) : ascii :=
  nth n (list_ascii_of_string "0123456789abcdef") "0"%char.

(** [ESCAPE_DCT] and the [\uXXXX] fallback of [py_encode_basestring_ascii]:
    everything outside of the printable ASCII range is escaped. *)
Definition escape_char (c : ascii) : string :=
  let n := nat_of_ascii c in
  if Nat.eqb n 34 then String backslash (String quote EmptyString)
  else if Nat.eqb n 92 then String backslash (String backslash EmptyString)
  else if Nat.eqb n 10 then String backslash "n"
  else if Nat.eqb n 13 then String backslash "r"
  else if Nat.eqb n 9 then String backslash "t"
  else if Nat.eqb n 8 then String backslash "b"
  else if Nat.eqb n 12 then String backslash "f"
  else if Nat.leb 32 n && Nat.leb n 126 then String c EmptyString
  else String backslash
         (String "u" (String "0" (String "0"
            (String (hex_digit (Nat.div n 16)) (String (hex_digit (Nat.modulo n 16)) EmptyString))))).

Fixpoint escape (s : string) : string :=
  match s with
  | EmptyString => EmptyString
  | String c s' => escape_char c ++ escape s'
  end.

Definition encode_string (s : string) : string :=
  String quote (escape s ++ String quote EmptyString).

(** [json.dumps(tags)] for a list of strings, with the default separators. *)
Definition dumps (tags : list string) : string :=
  "[" ++ Py.join ", " (map encode_string tags) ++ "]".

(** JSON whitespace: space, tab, newline, carriage return. *)
Definition is_ws (c : ascii) : bool :=
  let n := nat_of_ascii c in
  Nat.eqb n 32 || Nat.eqb n 9 || Nat.eqb n 10 || Nat.eqb n 13.

Fixpoint all_ws (s : string) : bool :=
  match s with
  | EmptyString => true
  | String c s' => is_ws c && all_ws s'
  end.

Definition hex_value (c : ascii) : option nat :=
  let n := nat_of_ascii c in
  if Nat.leb 48 n && Nat.leb n 57 then Some (n - 48)%nat
  else if Nat.leb 97 n && Nat.leb n 102 then Some (n - 87)%nat
  else if Nat.leb 65 n && Nat.leb n 70 then Some (n - 55)%nat
  else None.

(** The character of [\uXXXX]; code points above 0xff are outside of the
    8-bit character type and are not decoded. *)
Definition unicode_escape (h1 h2 h3 h4 : ascii) : option ascii :=
  match hex_value h1, hex_value h2, hex_value h3, hex_value h4 with
  | Some O, Some O, Some a, Some b => Some (ascii_of_nat (16 * a + b))
  | _, _, _, _ => None
  end.

(** [BACKSLASH] of [json.decoder] *)
Definition simple_escape (e : ascii) : option ascii :=
  let n := nat_of_ascii e in
  if Nat.eqb n 34 then Some quote
  else if Nat.eqb n 92 then Some backslash
  else if Nat.eqb n 47 then Some "/"%char
  else if Nat.eqb n 98 then Some (ascii_of_nat 8)
  else if Nat.eqb n 102 then Some (ascii_of_nat 12)
  else if Nat.eqb n 110 then Some (ascii_of_nat 10)
  else if Nat.eqb n 114 then Some (ascii_of_nat 13)
  else if Nat.eqb n 116 then Some (ascii_of_nat 9)
  else None.

(** The array decoder on arrays of strings. [in_string] is [py_scanstring]
    (strict: a raw control character is an error), [after_value] and
    [expect_value] are the loop of [JSONArray]. [None] stands for a decoding
    error or a value that is not a list of strings. *)
Fixpoint in_string (s cur : string) (acc : list string) {struct s} : option (list string) :=
  match s with
  | EmptyString => None
  | String c r =>
      if Ascii.eqb c quote then after_value r (cur :: acc)
      else if Ascii.eqb c backslash then
        match r with
        | EmptyString => None
        | String e r' =>
            if Ascii.eqb e "u" then
              match r' with
              | String h1 (String h2 (String h3 (String h4 r''))) =>
                  match unicode_escape h1 h2 h3 h4 with
                  | Some ch => in_string r'' (cur ++ String ch EmptyString) acc
                  | None => None
                  end
              | _ => None
              end
            else
              match simple_escape e with
              | Some ch => in_string r' (cur ++ String ch EmptyString) acc
              | None => None
              end
        end
      else if Nat.ltb (nat_of_ascii c) 32 then None
      else in_string r (cur ++ String c EmptyString) acc
  end
with after_value (s : string) (acc : list string) {struct s} : option (list string) :=
  match s with
  | EmptyString => None
  | String c r =>
      if is_ws c then after_value r acc
      else if Ascii.eqb c "," then expect_value r acc
      else if Ascii.eqb c "]" then (if all_ws r then Some (rev acc) else None)
      else None
  end
with expect_value (s : string) (acc : list string) {struct s} : option (list string) :=
  match s with
  | EmptyString => None
  | String c r =>
      if is_ws c then expect_value r acc
      else if Ascii.eqb c quote then in_string r EmptyString acc
      else None
  end.

(** After the opening bracket: an empty array or its first value. *)
Fixpoint after_open (s : string) : option (list string) :=
  match s with
  | EmptyString => None
  | String c r =>
      if is_ws c then after_open r
      else if Ascii.eqb c "]" then (if all_ws r then Some [] else None)
      else if Ascii.eqb c quote then in_string r EmptyString []
      else None
  end.

(** [json.loads(s)], expecting a list of strings. *)
Fixpoint loads (s : string) : option (list string) :=
  match s with
  | EmptyString => None
  | String c r =>
      if is_ws c then loads r
      else if Ascii.eqb c "[" then after_open r
      else None
  end.

End Json.

(** ** SQL: ORDER BY, LIMIT, GROUP BY *)

Module Sql.

Section OrderBy.

Context {A : Type} (key : A -> Z).

(** A row goes before the rows of the sorted rest whose key is not larger:
    rows with equal keys stay in scan order (SQL leaves their order open). *)
Fixpoint insert_desc (x : A) (l : list A) : list A :=
  match l with
  | [] => [x]
  | y :: t => if key y <=? key x then x :: l else y :: insert_desc x t
  end.

(** [ORDER BY key DESC] *)
Fixpoint order_by_desc (l : list A) : list A :=
  match l with
  | [] => []
  | x :: t => insert_desc x (order_by_desc t)
  end.

(** The first row of [ORDER BY key DESC], found in one pass from the end of
    the scan: a row replaces the best of the rows after it unless that one
    has a strictly larger key. *)
Fixpoint first_desc (l : list A) : option A :=
  match l with
  | [] => None
  | x :: t =>
      match first_desc t with
      | None => Some x
      | Some b => if key b <=? key x then Some x else Some b
      end
  end.

End OrderBy.

(** The integers that SQLite stores and binds are signed and 64 bits wide.
    [execute] raises [OverflowError] on a Python [int] outside of them. *)
Definition integer (n : Z) : Prop := - 2 ^ 63 <= n < 2 ^ 63.

(** [LIMIT n]; a negative limit is no limit. *)
Definition limit {A : Type} (n : Z) (l : list A) : list A :=
  if n <? 0 then l else firstn (Z.to_nat n) l.

(** One more row for group [k]; a new group goes last. *)
Fixpoint bump (k : string) (groups : list (string * nat)) : list (string * nat) :=
  match groups with
  | [] => [(k, 1%nat)]
  | (k', c) :: t => if String.eqb k' k then (k', S c) :: t else (k', c) :: bump k t
  end.

(** The groups of the listed values of [k] with their sizes, in the order
    of their first row. *)
Definition count_groups (keys : list string) : list (string * nat) :=
  fold_left (fun groups k => bump k groups) keys [].

(** A group goes before the first group whose key is not smaller. *)
Fixpoint insert_key (g : string * nat) (groups : list (string * nat)) : list (string * nat) :=
  match groups with
  | [] => [g]
  | h :: t => if String.leb (fst g) (fst h) then g :: groups else h :: insert_key g t
  end.

(** The groups in ascending order of their keys (binary collation). *)
Definition order_by_key (groups : list (string * nat)) : list (string * nat) :=
  fold_right insert_key [] groups.

(** [SELECT k, COUNT( * ) ... GROUP BY k] over the listed values of [k]:
    SQLite returns the groups in ascending order of [k]. *)
Definition group_count (keys : list string) : list (string * nat) :=
  order_by_key (count_groups keys).

(** [... GROUP BY k ORDER BY count DESC]: SQLite returns groups of the same
    size in descending order of [k] (SQL leaves their order open). *)
Definition group_count_desc (keys : list string) : list (string * nat) :=
  order_by_desc (fun g => Z.of_nat (snd g)) (rev (group_count keys)).

End Sql.

(** ** The store: six tables *)

Record session_row : Type := mkSession {
  s_id : Z;
  s_project_path : string;
  s_started_at : Z;
  s_last_active : Z;
  s_description : string;
  s_status : string }.

Record file_read_row : Type := mkFileRead {
  r_id : Z;
  r_session_id : Z;
  r_file_path : string;
  r_file_hash : option string;
  r_read_at : Z;
  r_context : string }.

Record change_row : Type := mkChange {
  c_id : Z;
  c_session_id : Z;
  c_file_path : string;
  c_change_type : string;
  c_description : option string;
  c_before_hash : option string;
  c_after_hash : option string;
  c_changed_at : Z }.

Record test_row : Type := mkTest {
  t_id : Z;
  t_session_id : Z;
  t_command : string;
  t_result : string;
  t_output : option string;
  t_run_at : Z }.

Record note_row : Type := mkNote {
  n_id : Z;
  n_session_id : Z;
  n_content : string;
  n_tags : option string;
  n_created_at : Z }.

Record error_row : Type := mkError {
  e_id : Z;
  e_session_id : Z;
  e_error_type : string;
  e_error_message : string;
  e_file_path : option string;
  e_context : option string;
  e_occurred_at : Z }.

Record db : Type := mkDb {
  sessions : list session_row;
  file_reads : list file_read_row;
  changes : list change_row;
  tests : list test_row;
  notes : list note_row;
  errors : list error_row }.

Definition empty_db : db := mkDb [] [] [] [] [] [].

(** What an operation reads besides the store. *)
Record env : Type := mkEnv {
  cwd : string;
  now : Z;
  fs : filesystem }.

(** [INTEGER PRIMARY KEY AUTOINCREMENT]: one more than the largest rowid;
    no row is ever deleted, so that is the largest rowid ever used. *)
Definition next_id (ids : list Z) : Z := fold_right Z.max 0 ids + 1.

Definition with_sessions (d : db) (l : list session_row) : db :=
  mkDb l (file_reads d) (changes d) (tests d) (notes d) (errors d).

(** ** [SessionMemory.get_current_session] *)

Definition active_for (project_path : string) (s : session_row) : bool :=
  String.eqb (s_project_path s) project_path && String.eqb (s_status s) "active".

(** [UPDATE sessions SET last_active = CURRENT_TIMESTAMP WHERE id = ?] *)
Definition touch (session_id t : Z) (s : session_row) : session_row :=
  if s_id s =? session_id
  then mkSession (s_id s) (s_project_path s) (s_started_at s) t (s_description s) (s_status s)
  else s.

Definition get_current_session (e : env) (d : db) : db * Z :=
  let project_path := cwd e in
  match Sql.limit 1 (Sql.order_by_desc s_last_active
                       (filter (active_for project_path) (sessions d))) with
  | result :: _ =>
      let session_id := s_id result in
      (with_sessions d (map (touch session_id (now e)) (sessions d)), session_id)
  | [] =>
      let session_id := next_id (map s_id (sessions d)) in
      (with_sessions d
         (sessions d ++
          [mkSession session_id project_path (now e) (now e)
             ("Session for " ++ Path.basename project_path) "active"]),
       session_id)
  end.

(** ** The five logging operations *)

Definition log_read (e : env) (d : db) (file_path : string) (context : option string) : db * Z :=
  let '(d1, session_id) := get_current_session e d in
  let file_path := Path.abspath (cwd e) file_path in
  let file_hash := file_hash (fs e) file_path in
  let context :=
    match context with
    | None => infer_context (fs e) file_path
    | Some c => c
    end in
  let id := next_id (map r_id (file_reads d1)) in
  (mkDb (sessions d1)
     (file_reads d1 ++ [mkFileRead id session_id file_path file_hash (now e) context])
     (changes d1) (tests d1) (notes d1) (errors d1),
   id).

(** [x in l] for strings *)
Definition str_in (x : string) (l : list string) : bool :=
  existsb (String.eqb x) l.

(** The [SELECT file_hash ... ORDER BY read_at DESC LIMIT 1] of [log_change]
    with its [fetchone()]. *)
Definition latest_read (d : db) (session_id : Z) (file_path : string) : option file_read_row :=
  hd_error
    (Sql.limit 1
       (Sql.order_by_desc r_read_at
          (filter (fun r => (r_session_id r =? session_id) && String.eqb (r_file_path r) file_path)
             (file_reads d)))).

Definition log_change (e : env) (d : db) (file_path change_type : string)
    (description : option string) : db * Z :=
  let '(d1, session_id) := get_current_session e d in
  let file_path := Path.abspath (cwd e) file_path in
  let before_hash :=
    if str_in change_type ["modify"; "delete"] then
      match latest_read d1 session_id file_path with
      | Some result => r_file_hash result
      | None => None
      end
    else None in
  let after_hash :=
    if str_in change_type ["create"; "modify"] then file_hash (fs e) file_path
    else None in
  let id := next_id (map c_id (changes d1)) in
  (mkDb (sessions d1) (file_reads d1)
     (changes d1 ++
      [mkChange id session_id file_path change_type description before_hash after_hash (now e)])
     (tests d1) (notes d1) (errors d1),
   id).

Definition log_test (e : env) (d : db) (command result : string) (output : option string) : db * Z :=
  let '(d1, session_id) := get_current_session e d in
  let id := next_id (map t_id (tests d1)) in
  (mkDb (sessions d1) (file_reads d1) (changes d1)
     (tests d1 ++ [mkTest id session_id command result output (now e)])
     (notes d1) (errors d1),
   id).

(** [json.dumps(tags) if tags else None]: [None] and the empty list are both
    false. *)
Definition tags_json (tags : option (list string)) : option string :=
  match tags with
  | None => None
  | Some [] => None
  | Some l => Some (Json.dumps l)
  end.

Definition add_note (e : env) (d : db) (content : string) (tags : option (list string)) : db * Z :=
  let '(d1, session_id) := get_current_session e d in
  let id := next_id (map n_id (notes d1)) in
  (mkDb (sessions d1) (file_reads d1) (changes d1) (tests d1)
     (notes d1 ++ [mkNote id session_id content (tags_json tags) (now e)])
     (errors d1),
   id).

(** [os.path.abspath(file_path) if file_path else None]: the empty string is
    false. *)
Definition error_path (cwd : string) (file_path : option string) : option string :=
  match file_path with
  | None => None
  | Some p => if String.eqb p "" then None else Some (Path.abspath cwd p)
  end.

Definition log_error (e : env) (d : db) (error_type error_message : string)
    (file_path context : option string) : db * Z :=
  let '(d1, session_id) := get_current_session e d in
  let id := next_id (map e_id (errors d1)) in
  (mkDb (sessions d1) (file_reads d1) (changes d1) (tests d1) (notes d1)
     (errors d1 ++
      [mkError id session_id error_type error_message (error_path (cwd e) file_path)
         context (now e)]),
   id).

(** ** [SessionMemory.query_session] *)

Inductive query_row : Type :=
| ReadRow (file_path : string) (read_at : Z) (context : string)
| ChangeRow (file_path change_type : string) (description : option string) (changed_at : Z)
| TestRow (command result : string) (output : option string) (run_at : Z)
| NoteRow (content : string) (tags : option string) (created_at : Z)
| ErrorRow (error_type error_message : string) (file_path context : option string) (occurred_at : Z)
| SummaryRow (type : string) (count : nat).

(** [SELECT COUNT( * ) FROM t WHERE session_id = ?] *)
Definition count_where {A : Type} (session_of : A -> Z) (session_id : Z) (t : list A) : nat :=
  List.length (filter (fun r => session_of r =? session_id) t).

(** [SELECT ... FROM t WHERE session_id = ? ORDER BY at DESC LIMIT ?] *)
Definition select_recent {A : Type} (session_of at_ : A -> Z) (session_id lim : Z)
    (t : list A) : list A :=
  Sql.limit lim (Sql.order_by_desc at_ (filter (fun r => session_of r =? session_id) t)).

Definition is_kind (query_type : option string) (k : string) : bool :=
  match query_type with
  | Some q => String.eqb q k
  | None => false
  end.

(** The five queries by kind bind [limit] as a parameter, the summary query
    does not. This is the call for a limit that can be bound,
    [Sql.integer lim]; for another one and a kind among the five the source
    resolves the session, commits, and raises [OverflowError] from
    [execute], so the store is the one below and no result is returned. *)
Definition query_session (e : env) (d : db) (query_type : option string) (lim : Z)
    : db * list query_row :=
  let '(d1, session_id) := get_current_session e d in
  let results :=
    if is_kind query_type "reads" then
      map (fun r => ReadRow (r_file_path r) (r_read_at r) (r_context r))
        (select_recent r_session_id r_read_at session_id lim (file_reads d1))
    else if is_kind query_type "changes" then
      map (fun c => ChangeRow (c_file_path c) (c_change_type c) (c_description c) (c_changed_at c))
        (select_recent c_session_id c_changed_at session_id lim (changes d1))
    else if is_kind query_type "tests" then
      map (fun t => TestRow (t_command t) (t_result t) (t_output t) (t_run_at t))
        (select_recent t_session_id t_run_at session_id lim (tests d1))
    else if is_kind query_type "notes" then
      map (fun n => NoteRow (n_content n) (n_tags n) (n_created_at n))
        (select_recent n_session_id n_created_at session_id lim (notes d1))
    else if is_kind query_type "errors" then
      map (fun x => ErrorRow (e_error_type x) (e_error_message x) (e_file_path x) (e_context x)
                      (e_occurred_at x))
        (select_recent e_session_id e_occurred_at session_id lim (errors d1))
    else
      [ SummaryRow "reads" (count_where r_session_id session_id (file_reads d1));
        SummaryRow "changes" (count_where c_session_id session_id (changes d1));
        SummaryRow "tests" (count_where t_session_id session_id (tests d1));
        SummaryRow "notes" (count_where n_session_id session_id (notes d1));
        SummaryRow "errors" (count_where e_session_id session_id (errors d1)) ] in
  (d1, results).

(** ** [SessionMemory.get_session_analytics] *)

(** [file_path LIKE '%suf']: LIKE ignores the case of ASCII letters. *)
Definition like_suffix (suf file_path : string) : bool :=
  Py.endswith suf (Py.lower file_path).

(** The CASE expression of the file-type query. *)
Definition file_type (file_path : string) : string :=
  if like_suffix ".py" file_path then "Python"
  else if like_suffix ".js" file_path then "JavaScript"
  else if like_suffix ".ts" file_path then "TypeScript"
  else if like_suffix ".jsx" file_path then "React"
  else if like_suffix ".tsx" file_path then "React TS"
  else if like_suffix ".css" file_path then "CSS"
  else if like_suffix ".md" file_path then "Markdown"
  else if like_suffix ".json" file_path then "JSON"
  else "Other".

(** A Python dict is the list of its items in insertion order; an absent key
    is an absent field. *)
Record analytics : Type := mkAnalytics {
  duration_minutes : option Z;
  files_read : nat;
  changes_made : nat;
  tests_run : nat;
  notes_added : nat;
  errors_logged : nat;
  test_success_rate : option float;
  file_types : list (string * nat) }.

(** A count as a Python float (exact below 2^53). *)
Definition float_of_count (n : nat) : float :=
  PrimFloat.of_uint63 (Uint63.of_Z (Z.of_nat n)).

(** [sum(d.values())] *)
Definition sum_values (d : list (string * nat)) : nat :=
  fold_right (fun kv acc => (snd kv + acc)%nat) 0%nat d.

(** [d.get(k, 0)] *)
Definition get_or_zero (k : string) (d : list (string * nat)) : nat :=
  match dict_get k d with
  | Some c => c
  | None => 0%nat
  end.

(** [pass / total * 100] in binary64: the division first, then the product. *)
Definition success_rate (pass total : nat) : float :=
  PrimFloat.mul (PrimFloat.div (float_of_count pass) (float_of_count total)) 100%float.

(** The paths of the UNION ALL of the session's reads and changes. *)
Definition touched_paths (d : db) (session_id : Z) : list string :=
  map r_file_path (filter (fun r => r_session_id r =? session_id) (file_reads d))
  ++ map c_file_path (filter (fun c => c_session_id c =? session_id) (changes d)).

Definition get_session_analytics (e : env) (d : db) : db * analytics :=
  let '(d1, session_id) := get_current_session e d in
  let duration :=
    match find (fun s => s_id s =? session_id) (sessions d1) with
    | Some s => Some (Z.quot (s_last_active s - s_started_at s) 60)
    | None => None
    end in
  let test_results :=
    Sql.group_count (map t_result (filter (fun t => t_session_id t =? session_id) (tests d1))) in
  let total_tests := sum_values test_results in
  let rate :=
    if Nat.ltb 0 total_tests
    then Some (success_rate (get_or_zero "pass" test_results) total_tests)
    else None in
  let types :=
    Sql.limit 5 (Sql.group_count_desc (map file_type (touched_paths d1 session_id))) in
  (d1,
   mkAnalytics duration
     (count_where r_session_id session_id (file_reads d1))
     (count_where c_session_id session_id (changes d1))
     (count_where t_session_id session_id (tests d1))
     (count_where n_session_id session_id (notes d1))
     (count_where e_session_id session_id (errors d1))
     rate types).

(** ** [f"{rate:.1f}"] of the analytics printer *)

(** [m * 2^e * 10] rounded to the nearest integer, ties to even. *)
Definition tenths (m : positive) (e : Z) : Z :=
  let n := 10 * Z.pos m in
  if 0 <=? e then n * 2 ^ e
  else
    let k := 2 ^ (- e) in
    let q := n / k in
    let r := n mod k in
    if 2 * r <? k then q
    else if k <? 2 * r then q + 1
    else if Z.even q then q else q + 1.

Definition decimal (n : Z) : string :=
  NilZero.string_of_uint (N.to_uint (Z.to_N n)).

Definition format_1f (x : float) : string :=
  match Prim2SF x with
  | S754_zero s => (if s then "-" else "") ++ "0.0"
  | S754_infinity s => (if s then "-" else "") ++ "inf"
  | S754_nan => "nan"
  | S754_finite s m e =>
      let t := tenths m e in
      (if s then "-" else "") ++ decimal (t / 10) ++ "." ++ decimal (t mod 10)
  end.

(** ** Specification-side notions *)

(** [r] is a most recent read of [file_path] in session [session_id]: a read
    of that file in that session, and none of them has a later [read_at]. *)
Definition most_recent_read (d : db) (session_id : Z) (file_path : string)
    (r : file_read_row) : Prop :=
  In r (file_reads d)
  /\ r_session_id r = session_id
  /\ r_file_path r = file_path
  /\ forall r', In r' (file_reads d) ->
       r_session_id r' = session_id -> r_file_path r' = file_path ->
       r_read_at r' <= r_read_at r.

(** No read of [file_path] was logged in session [session_id]. *)
Definition never_read (d : db) (session_id : Z) (file_path : string) : Prop :=
  forall r, In r (file_reads d) ->
    ~ (r_session_id r = session_id /\ r_file_path r = file_path).

(** The digest of a most recent read, or null when there is none. *)
Definition last_observed (d : db) (session_id : Z) (file_path : string)
    (digest : option string) : Prop :=
  (exists r, most_recent_read d session_id file_path r /\ digest = r_file_hash r)
  \/ (never_read d session_id file_path /\ digest = None).

(** [s] is a most recently active session of [project_path]: an active
    session of that path, and none of them has a later [last_active]. *)
Definition most_recently_active (d : db) (project_path : string) (s : session_row) : Prop :=
  In s (sessions d)
  /\ s_project_path s = project_path
  /\ s_status s = "active"
  /\ forall s', In s' (sessions d) ->
       s_project_path s' = project_path -> s_status s' = "active" ->
       s_last_active s' <= s_last_active s.

(** No session of the store was active after time [t]: what a clock that
    never goes back guarantees at time [t]. *)
Definition sessions_not_after (t : Z) (d : db) : Prop :=
  forall s, In s (sessions d) -> s_last_active s <= t.

(** The notes of session [session_id] created at time [t] or later. *)
Definition notes_not_before (d : db) (session_id t : Z) : nat :=
  List.length
    (filter (fun n => t <=? n_created_at n)
       (filter (fun n => n_session_id n =? session_id) (notes d))).

(** What [json.dumps] writes after an item that is followed by the items
    [tags]. *)
Definition dumps_rest (tags : list string) : string :=
  match tags with
  | [] => "]"
  | _ :: _ => ", " ++ Py.join ", " (map Json.encode_string tags) ++ "]"
  end.

(** The tests of a session that passed. *)
Definition pass_count (d : db) (session_id : Z) : nat :=
  count_occ string_dec
    (map t_result (filter (fun t => t_session_id t =? session_id) (tests d))) "pass".

(** [100 * pass / total] as Python evaluates it on integers: the product
    first, then one true division. *)
Definition percent_formula (pass total : nat) : float :=
  PrimFloat.div (float_of_count (100 * pass)) (float_of_count total).

(** The float [x] is exactly the fraction [num / den]. *)
Definition exact_ratio (x : float) (num den : Z) : bool :=
  match Prim2SF x with
  | S754_zero _ => num =? 0
  | S754_finite s m e =>
      let v := if s then Z.neg m else Z.pos m in
      if 0 <=? e then v * 2 ^ e * den =? num else v * den =? num * 2 ^ (- e)
  | _ => false
  end.

(** ** One invocation of the command line *)

(** The commands of [main] that go through one method of [SessionMemory];
    the arguments are the ones [argparse] hands over. *)
Inductive command : Type :=
| CmdInit
| CmdRead (file_path : string) (context : option string)
| CmdChange (file_path description : string) (type : string)
| CmdTest (command result : string) (output : option string)
| CmdNote (content : string) (tags : option (list string))
| CmdError (type message : string) (file context : option string)
| CmdQuery (type : option string) (lim : Z)
| CmdAnalytics.

(** The store after [main] has run one command. *)
Definition run (e : env) (d : db) (c : command) : db :=
  match c with
  | CmdInit => fst (get_current_session e d)
  | CmdRead file_path context => fst (log_read e d file_path context)
  | CmdChange file_path description type =>
      fst (log_change e d file_path type (Some description))
  | CmdTest command result output => fst (log_test e d command result output)
  | CmdNote content tags => fst (add_note e d content tags)
  | CmdError type message file context => fst (log_error e d type message file context)
  | CmdQuery type lim => fst (query_session e d type lim)
  | CmdAnalytics => fst (get_session_analytics e d)
  end.

(** A sequence of invocations, each with its own clock reading, working
    directory and file system. *)
Definition run_all (h : list (env * command)) (d : db) : db :=
  fold_left (fun d' ec => run (fst ec) d' (snd ec)) h d.

(** ** [SessionMemory.export_session] *)

(** The dict that is serialized, without its [exported_at] stamp. *)
Record export_data : Type := mkExport {
  x_session_id : Z;
  x_reads : list query_row;
  x_changes : list query_row;
  x_tests : list query_row;
  x_notes : list query_row;
  x_errors : list query_row }.

(** [export_session] resolves the session and then runs the five queries,
    each of which resolves it again: six clock readings [e0] .. [e5]. *)
Definition export_session (e0 e1 e2 e3 e4 e5 : env) (d : db) : db * export_data :=
  let '(d0, session_id) := get_current_session e0 d in
  let '(d1, reads) := query_session e1 d0 (Some "reads") 1000 in
  let '(d2, changes) := query_session e2 d1 (Some "changes") 1000 in
  let '(d3, tests) := query_session e3 d2 (Some "tests") 1000 in
  let '(d4, notes) := query_session e4 d3 (Some "notes") 1000 in
  let '(d5, errors) := query_session e5 d4 (Some "errors") 1000 in
  (d5, mkExport session_id reads changes tests notes errors).

(** ** Invariants of the store *)

(** For every path at most one session is active. *)
Definition one_active_per_path (d : db) : Prop :=
  forall p, (List.length (filter (active_for p) (sessions d)) <= 1)%nat.

(** The primary keys: no id occurs twice in a table. *)
Definition distinct_ids (d : db) : Prop :=
  NoDup (map s_id (sessions d))
  /\ NoDup (map r_id (file_reads d))
  /\ NoDup (map c_id (changes d))
  /\ NoDup (map t_id (tests d))
  /\ NoDup (map n_id (notes d))
  /\ NoDup (map e_id (errors d)).

(** The foreign keys: every event belongs to a session of the store. *)
Definition refers_to_sessions (d : db) : Prop :=
  (forall r, In r (file_reads d) -> In (r_session_id r) (map s_id (sessions d)))
  /\ (forall c, In c (changes d) -> In (c_session_id c) (map s_id (sessions d)))
  /\ (forall t, In t (tests d) -> In (t_session_id t) (map s_id (sessions d)))
  /\ (forall n, In n (notes d) -> In (n_session_id n) (map s_id (sessions d)))
  /\ (forall x, In x (errors d) -> In (e_session_id x) (map s_id (sessions d))).

(** No timestamp of the store is later than [t]. *)
Definition not_after (t : Z) (d : db) : Prop :=
  (forall s, In s (sessions d) -> s_started_at s <= t /\ s_last_active s <= t)
  /\ (forall r, In r (file_reads d) -> r_read_at r <= t)
  /\ (forall c, In c (changes d) -> c_changed_at c <= t)
  /\ (forall x, In x (tests d) -> t_run_at x <= t)
  /\ (forall n, In n (notes d) -> n_created_at n <= t)
  /\ (forall x, In x (errors d) -> e_occurred_at x <= t).

(** The clock never goes back along the invocations, starting at [t]. *)
Fixpoint clock_ok (t : Z) (h : list (env * command)) : Prop :=
  match h with
  | [] => True
  | ec :: h' => t <= now (fst ec) /\ clock_ok (now (fst ec)) h'
  end.

(** The last clock reading of the invocations, [t] when there is none. *)
Fixpoint last_clock (t : Z) (h : list (env * command)) : Z :=
  match h with
  | [] => t
  | ec :: h' => last_clock (now (fst ec)) h'
  end.

(** The events of one session, table by table. *)
Definition session_events (d : db) (session_id : Z)
    : list file_read_row * list change_row * list test_row * list note_row * list error_row :=
  (filter (fun r => r_session_id r =? session_id) (file_reads d),
   filter (fun c => c_session_id c =? session_id) (changes d),
   filter (fun t => t_session_id t =? session_id) (tests d),
   filter (fun n => n_session_id n =? session_id) (notes d),
   filter (fun x => e_session_id x =? session_id) (errors d)).

(** The time stamp of a row of a query result. *)
Definition row_time (r : query_row) : Z :=
  match r with
  | ReadRow _ t _ => t
  | ChangeRow _ _ _ t => t
  | TestRow _ _ _ t => t
  | NoteRow _ _ t => t
  | ErrorRow _ _ _ _ t => t
  | SummaryRow _ _ => 0
  end.

(** The rows a query of kind [k] can return for session [session_id],
    in the order of their insertion. *)
Definition rows_of_kind (d : db) (session_id : Z) (k : string) : list query_row :=
  if String.eqb k "reads" then
    map (fun r => ReadRow (r_file_path r) (r_read_at r) (r_context r))
      (filter (fun r => r_session_id r =? session_id) (file_reads d))
  else if String.eqb k "changes" then
    map (fun c => ChangeRow (c_file_path c) (c_change_type c) (c_description c) (c_changed_at c))
      (filter (fun c => c_session_id c =? session_id) (changes d))
  else if String.eqb k "tests" then
    map (fun t => TestRow (t_command t) (t_result t) (t_output t) (t_run_at t))
      (filter (fun t => t_session_id t =? session_id) (tests d))
  else if String.eqb k "notes" then
    map (fun n => NoteRow (n_content n) (n_tags n) (n_created_at n))
      (filter (fun n => n_session_id n =? session_id) (notes d))
  else if String.eqb k "errors" then
    map (fun x => ErrorRow (e_error_type x) (e_error_message x) (e_file_path x) (e_context x)
                    (e_occurred_at x))
      (filter (fun x => e_session_id x =? session_id) (errors d))
  else [].

(** What identifies a session: every column but [last_active]. *)
Definition session_identity (s : session_row) : Z * string * Z * string * string :=
  (s_id s, s_project_path s, s_started_at s, s_description s, s_status s).

(** The rows a command logs: reads, changes, tests, notes, errors. *)
Definition logged (c : command) : nat * nat * nat * nat * nat :=
  match c with
  | CmdRead _ _ => (1, 0, 0, 0, 0)
  | CmdChange _ _ _ => (0, 1, 0, 0, 0)
  | CmdTest _ _ _ => (0, 0, 1, 0, 0)
  | CmdNote _ _ => (0, 0, 0, 1, 0)
  | CmdError _ _ _ _ => (0, 0, 0, 0, 1)
  | CmdInit | CmdQuery _ _ | CmdAnalytics => (0, 0, 0, 0, 0)
  end%nat.

(** The five counts of the analytics. *)
Definition counts (a : analytics) : nat * nat * nat * nat * nat :=
  (files_read a, changes_made a, tests_run a, notes_added a, errors_logged a).

Definition add_counts (x y : nat * nat * nat * nat * nat) : nat * nat * nat * nat * nat :=
  let '(a, b, c, d, e) := x in
  let '(a', b', c', d', e') := y in
  (a + a', b + b', c + c', d + d', e + e')%nat.

(** The kind of row a command logs and the row a query of that kind shows
    for it. *)
Definition logged_row (e : env) (c : command) : option (string * query_row) :=
  match c with
  | CmdRead file_path context =>
      let path := Path.abspath (cwd e) file_path in
      Some ("reads",
            ReadRow path (now e)
              match context with
              | None => infer_context (fs e) path
              | Some ctx => ctx
              end)
  | CmdChange file_path description type =>
      Some ("changes",
            ChangeRow (Path.abspath (cwd e) file_path) type (Some description) (now e))
  | CmdTest command result output => Some ("tests", TestRow command result output (now e))
  | CmdNote content tags => Some ("notes", NoteRow content (tags_json tags) (now e))
  | CmdError type message file context =>
      Some ("errors", ErrorRow type message (error_path (cwd e) file) context (now e))
  | CmdInit | CmdQuery _ _ | CmdAnalytics => None
  end.

(** The text with every newline written as carriage return, newline. *)
Fixpoint crlf (s : string) : string :=
  match s with
  | EmptyString => EmptyString
  | String c s' =>
      if Ascii.eqb c LF then String CR (String LF (crlf s')) else String c (crlf s')
  end.


(** A lowercase hexadecimal digit. *)
Definition is_hex_digit (c : ascii) : bool :=
  let n := nat_of_ascii c in
  (Nat.leb 48 n && Nat.leb n 57) || (Nat.leb 97 n && Nat.leb n 102).

(** [all(f(c) for c in s)] *)
Fixpoint string_forall (f : ascii -> bool) (s : string) : bool :=
  match s with
  | EmptyString => true
  | String c s' => f c && string_forall f s'
  end.

(** * Proofs *)

Local Open Scope list_scope.

(** ** ORDER BY and LIMIT *)

Section OrderByFacts.

Context {A : Type} (key : A -> Z).

Lemma insert_desc_perm (x : A) (l : list A) :
  Permutation (Sql.insert_desc key x l) (x :: l).
Proof.
  induction l as [|y t IH]; simpl.
  - apply Permutation_refl.
  - destruct (key y <=? key x).
    + apply Permutation_refl.
    + rewrite IH. apply perm_swap.
Qed.

Lemma order_by_desc_perm (l : list A) :
  Permutation (Sql.order_by_desc key l) l.
Proof.
  induction l as [|x t IH]; simpl.
  - constructor.
  - rewrite insert_desc_perm. now constructor.
Qed.

Lemma order_by_desc_in (l : list A) (x : A) :
  In x (Sql.order_by_desc key l) <-> In x l.
Proof.
  split; apply Permutation_in;
    [apply order_by_desc_perm | apply Permutation_sym, order_by_desc_perm].
Qed.

Lemma order_by_desc_length (l : list A) :
  List.length (Sql.order_by_desc key l) = List.length l.
Proof. apply Permutation_length, order_by_desc_perm. Qed.

(** The first row of the sorted list splits the scanned list: strictly
    smaller keys before it, no larger key after it. *)
Lemma order_by_desc_head (l : list A) (x : A) (t : list A) :
  Sql.order_by_desc key l = x :: t ->
  exists l1 l2, l = l1 ++ x :: l2
    /\ (forall y, In y l1 -> key y < key x)
    /\ (forall y, In y l2 -> key y <= key x).
Proof.
  revert x t. induction l as [|a l IH]; intros x t Hs; simpl in Hs.
  - discriminate.
  - destruct (Sql.order_by_desc key l) as [|y t'] eqn:Hl.
    + assert (l = []) as ->.
      { apply length_zero_iff_nil. rewrite <- order_by_desc_length, Hl. reflexivity. }
      simpl in Hs. injection Hs as <- _.
      exists [], []. repeat split; intros ? [].
    + destruct (IH y t' eq_refl) as (l1 & l2 & -> & Hlt & Hle).
      simpl in Hs. destruct (key y <=? key a) eqn:Hc.
      * injection Hs as <- _. apply Z.leb_le in Hc.
        exists [], (l1 ++ y :: l2). repeat split.
        -- intros ? [].
        -- intros z Hz. apply in_app_or in Hz. destruct Hz as [Hz | [<- | Hz]].
           ++ specialize (Hlt z Hz). lia.
           ++ exact Hc.
           ++ specialize (Hle z Hz). lia.
      * injection Hs as <- _. apply Z.leb_gt in Hc.
        exists (a :: l1), l2. repeat split.
        -- intros z [<- | Hz]; [exact Hc | now apply Hlt].
        -- exact Hle.
Qed.

Lemma order_by_desc_head_max (l : list A) (x : A) (t : list A) :
  Sql.order_by_desc key l = x :: t ->
  In x l /\ forall y, In y l -> key y <= key x.
Proof.
  intros Hs. destruct (order_by_desc_head l x t Hs) as (l1 & l2 & -> & Hlt & Hle).
  split.
  - apply in_or_app. right. now left.
  - intros y Hy. apply in_app_or in Hy. destruct Hy as [Hy | [<- | Hy]].
    + specialize (Hlt y Hy). lia.
    + lia.
    + now apply Hle.
Qed.

Lemma order_by_desc_nil (l : list A) :
  Sql.order_by_desc key l = [] -> l = [].
Proof.
  intros H. apply length_zero_iff_nil.
  rewrite <- order_by_desc_length, H. reflexivity.
Qed.

Lemma insert_desc_sorted (x : A) (l : list A) :
  StronglySorted (fun a b => key b <= key a) l ->
  StronglySorted (fun a b => key b <= key a) (Sql.insert_desc key x l).
Proof.
  induction 1 as [|y t Ht IH Hy]; simpl.
  - repeat constructor.
  - destruct (key y <=? key x) eqn:Hc.
    + apply Z.leb_le in Hc. constructor.
      * now constructor.
      * constructor; [exact Hc|].
        rewrite Forall_forall in *. intros z Hz. specialize (Hy z Hz). lia.
    + apply Z.leb_gt in Hc. constructor; [exact IH|].
      rewrite Forall_forall in *. intros z Hz.
      apply (Permutation_in _ (insert_desc_perm x t)) in Hz.
      destruct Hz as [<- | Hz]; [lia | now apply Hy].
Qed.

Lemma order_by_desc_sorted (l : list A) :
  StronglySorted (fun a b => key b <= key a) (Sql.order_by_desc key l).
Proof.
  induction l; simpl; [constructor | now apply insert_desc_sorted].
Qed.

End OrderByFacts.

Lemma limit_one_head {A : Type} (l : list A) :
  hd_error (Sql.limit 1 l) = hd_error l.
Proof. destruct l; reflexivity. Qed.

Lemma limit_incl {A : Type} (n : Z) (l : list A) (x : A) :
  In x (Sql.limit n l) -> In x l.
Proof.
  unfold Sql.limit. destruct (n <? 0); [trivial|].
  intros H. rewrite <- (firstn_skipn (Z.to_nat n) l). apply in_or_app. now left.
Qed.

Lemma limit_all {A : Type} (n : Z) (l : list A) :
  n < 0 \/ Z.of_nat (List.length l) <= n -> Sql.limit n l = l.
Proof.
  intros H. unfold Sql.limit. destruct (n <? 0) eqn:Hn; [reflexivity|].
  apply Z.ltb_ge in Hn. apply firstn_all2. lia.
Qed.

Lemma limit_length {A : Type} (n : Z) (l : list A) :
  0 <= n -> (List.length (Sql.limit n l) <= Z.to_nat n)%nat.
Proof.
  intros H. unfold Sql.limit. destruct (n <? 0) eqn:Hn.
  - apply Z.ltb_lt in Hn. lia.
  - apply firstn_le_length.
Qed.

(** ** Session resolution *)

Lemma active_for_spec (p : string) (s : session_row) :
  active_for p s = true <-> s_project_path s = p /\ s_status s = "active".
Proof.
  unfold active_for. rewrite andb_true_iff, !String.eqb_eq. tauto.
Qed.

(** The two outcomes of [get_current_session]. *)
Lemma get_current_session_cases (e : env) (d : db) :
  (exists s, most_recently_active d (cwd e) s
     /\ get_current_session e d
        = (with_sessions d (map (touch (s_id s) (now e)) (sessions d)), s_id s))
  \/ ((forall s, In s (sessions d) -> active_for (cwd e) s = false)
      /\ get_current_session e d
         = (with_sessions d
              (sessions d ++
               [mkSession (next_id (map s_id (sessions d))) (cwd e) (now e) (now e)
                  ("Session for " ++ Path.basename (cwd e))%string "active"]),
            next_id (map s_id (sessions d)))).
Proof.
  unfold get_current_session.
  destruct (Sql.order_by_desc s_last_active (filter (active_for (cwd e)) (sessions d)))
    as [|s t] eqn:Hs.
  - right. split; [|reflexivity].
    apply order_by_desc_nil in Hs. intros s Hin.
    destruct (active_for (cwd e) s) eqn:Ha; [|reflexivity].
    assert (In s (filter (active_for (cwd e)) (sessions d))) as Hf
      by (apply filter_In; auto).
    rewrite Hs in Hf. destruct Hf.
  - left. exists s. split; [|reflexivity].
    apply order_by_desc_head_max in Hs. destruct Hs as [Hin Hmax].
    apply filter_In in Hin. destruct Hin as [Hin Ha].
    apply active_for_spec in Ha. destruct Ha as [Hp Hst].
    repeat split; auto.
    intros s' Hin' Hp' Hst'. apply Hmax. apply filter_In. split; [exact Hin'|].
    apply active_for_spec. auto.
Qed.

Lemma get_current_session_tables (e : env) (d : db) :
  let d1 := fst (get_current_session e d) in
  file_reads d1 = file_reads d /\ changes d1 = changes d /\ tests d1 = tests d
  /\ notes d1 = notes d /\ errors d1 = errors d.
Proof.
  destruct (get_current_session_cases e d) as [(s & _ & ->) | (_ & ->)];
    simpl; repeat split.
Qed.

Lemma next_id_above (ids : list Z) (i : Z) : In i ids -> i < next_id ids.
Proof.
  unfold next_id. induction ids as [|a l IH]; simpl; intros H.
  - destruct H.
  - destruct H as [-> | H]; [lia | specialize (IH H); lia].
Qed.

Lemma order_by_desc_first {A : Type} (key : A -> Z) (l : list A) :
  hd_error (Sql.order_by_desc key l) = Sql.first_desc key l.
Proof.
  induction l as [|x t IH]; simpl; [reflexivity|].
  rewrite <- IH. destruct (Sql.order_by_desc key t) as [|b t']; simpl; [reflexivity|].
  destruct (key b <=? key x); reflexivity.
Qed.

Lemma first_desc_in {A : Type} (key : A -> Z) (l : list A) (x : A) :
  Sql.first_desc key l = Some x -> In x l.
Proof.
  revert x. induction l as [|a t IH]; simpl; intros x H; [discriminate|].
  destruct (Sql.first_desc key t) as [b|].
  - destruct (key b <=? key a); injection H as <-; auto.
  - injection H as <-. auto.
Qed.

Lemma first_desc_max {A : Type} (key : A -> Z) (l : list A) (x : A) :
  Sql.first_desc key l = Some x -> forall y, In y l -> key y <= key x.
Proof.
  revert x. induction l as [|a t IH]; simpl; intros x H y Hy; [destruct Hy|].
  destruct (Sql.first_desc key t) as [b|] eqn:Hb.
  - destruct (key b <=? key a) eqn:Hc; injection H as <-.
    + apply Z.leb_le in Hc. destruct Hy as [<- | Hy]; [lia|].
      specialize (IH b eq_refl y Hy). lia.
    + apply Z.leb_gt in Hc. destruct Hy as [<- | Hy]; [lia|].
      exact (IH b eq_refl y Hy).
  - injection H as <-. destruct t as [|c t'].
    + destruct Hy as [<- | []]. lia.
    + simpl in Hb. destruct (Sql.first_desc key t'); [destruct (key a0 <=? key c)|]; discriminate.
Qed.

(** The session query of [get_current_session], with its [fetchone()]. *)
Lemma get_current_session_query (e : env) (d : db) :
  get_current_session e d =
  match Sql.first_desc s_last_active (filter (active_for (cwd e)) (sessions d)) with
  | Some result =>
      (with_sessions d (map (touch (s_id result) (now e)) (sessions d)), s_id result)
  | None =>
      (with_sessions d
         (sessions d ++
          [mkSession (next_id (map s_id (sessions d))) (cwd e) (now e) (now e)
             ("Session for " ++ Path.basename (cwd e))%string "active"]),
       next_id (map s_id (sessions d)))
  end.
Proof.
  unfold get_current_session. rewrite <- order_by_desc_first.
  destruct (Sql.order_by_desc s_last_active (filter (active_for (cwd e)) (sessions d)));
    reflexivity.
Qed.

Lemma touch_active (p : string) (i t : Z) (s : session_row) :
  active_for p (touch i t s) = active_for p s.
Proof. unfold touch. destruct (s_id s =? i); reflexivity. Qed.

Lemma touch_id (i t : Z) (s : session_row) : s_id (touch i t s) = s_id s.
Proof. unfold touch. destruct (s_id s =? i); reflexivity. Qed.

Lemma filter_map_touch (p : string) (i t : Z) (l : list session_row) :
  filter (active_for p) (map (touch i t) l) = map (touch i t) (filter (active_for p) l).
Proof.
  induction l as [|a l IH]; simpl; [reflexivity|].
  rewrite touch_active. destruct (active_for p a); simpl; now rewrite IH.
Qed.

(** After the chosen session was touched at time [t], and when no session is
    later than [t], the query chooses a session of the same id again. *)
Lemma first_desc_touched (t : Z) (l : list session_row) (s : session_row) :
  (forall y, In y l -> s_last_active y <= t) ->
  Sql.first_desc s_last_active l = Some s ->
  exists x, Sql.first_desc s_last_active (map (touch (s_id s) t) l) = Some x
    /\ s_id x = s_id s /\ s_last_active x = t.
Proof.
  revert s. induction l as [|a l IH]; intros s Hle H; simpl in *; [discriminate|].
  assert (forall y, In y (map (touch (s_id s) t) l) -> s_last_active y <= t) as Hle'.
  { intros y Hy. apply in_map_iff in Hy. destruct Hy as (z & <- & Hz).
    unfold touch. destruct (s_id z =? s_id s); simpl; [lia | auto]. }
  destruct (Sql.first_desc s_last_active l) as [b|] eqn:Hb.
  - destruct (s_last_active b <=? s_last_active a) eqn:Hc; injection H as <-.
    + (* the head row was chosen *)
      assert (touch (s_id a) t a = mkSession (s_id a) (s_project_path a) (s_started_at a) t
                (s_description a) (s_status a)) as Ht
        by (unfold touch; now rewrite Z.eqb_refl).
      rewrite Ht.
      destruct (Sql.first_desc s_last_active (map (touch (s_id a) t) l)) as [b'|] eqn:Hb'.
      * apply first_desc_in in Hb'. apply Hle' in Hb'. simpl.
        apply Z.leb_le in Hb'. rewrite Hb'. eexists. repeat split.
      * eexists. repeat split.
    + (* a later row was chosen *)
      apply Z.leb_gt in Hc.
      destruct (IH b (fun y Hy => Hle y (or_intror Hy)) eq_refl) as (x & -> & Hid & Hx).
      unfold touch. destruct (s_id a =? s_id b) eqn:Hab; simpl.
      * rewrite Hx. rewrite Z.leb_refl. eexists. split; [reflexivity|].
        apply Z.eqb_eq in Hab. simpl. auto.
      * assert (s_last_active b <= t) by (apply Hle; right; eapply first_desc_in; eauto).
        assert ((s_last_active x <=? s_last_active a) = false) as -> by (apply Z.leb_gt; lia).
        eexists. repeat split; auto.
  - injection H as <-. destruct l as [|c l'].
    + simpl. unfold touch. rewrite Z.eqb_refl. eexists. repeat split.
    + simpl in Hb. destruct (Sql.first_desc s_last_active l');
        [destruct (s_last_active s <=? s_last_active c)|]; discriminate.
Qed.

(** Resolving again in the same directory gives the same session. *)
Lemma get_current_session_again (e1 e2 : env) (d d1 : db) :
  sessions_not_after (now e1) d ->
  cwd e2 = cwd e1 ->
  sessions d1 = sessions (fst (get_current_session e1 d)) ->
  snd (get_current_session e2 d1) = snd (get_current_session e1 d).
Proof.
  intros Hle Hcwd Hs. rewrite (get_current_session_query e2 d1), Hs, Hcwd.
  rewrite (get_current_session_query e1 d).
  destruct (Sql.first_desc s_last_active (filter (active_for (cwd e1)) (sessions d)))
    as [s|] eqn:Hq; simpl.
  - rewrite filter_map_touch.
    destruct (first_desc_touched (now e1) (filter (active_for (cwd e1)) (sessions d)) s)
      as (x & -> & Hid & _); auto.
    intros y Hy. apply filter_In in Hy. apply Hle, Hy.
  - rewrite filter_app. simpl. unfold active_for at 2. simpl.
    rewrite String.eqb_refl. simpl.
    assert (filter (active_for (cwd e1)) (sessions d) = []) as ->.
    { destruct (filter (active_for (cwd e1)) (sessions d)) as [|a l]; [reflexivity|].
      simpl in Hq. destruct (Sql.first_desc s_last_active l);
        [destruct (s_last_active s <=? s_last_active a)|]; discriminate. }
    reflexivity.
Qed.

Lemma get_current_session_not_after (e : env) (d : db) (t : Z) :
  sessions_not_after t d -> t <= now e ->
  sessions_not_after (now e) (fst (get_current_session e d)).
Proof.
  intros Hle Ht s Hs.
  destruct (get_current_session_cases e d) as [(s0 & _ & Heq) | (_ & Heq)];
    rewrite Heq in Hs; simpl in Hs.
  - apply in_map_iff in Hs. destruct Hs as (z & <- & Hz).
    unfold touch. destruct (s_id z =? s_id s0); simpl; [lia|].
    specialize (Hle z Hz). lia.
  - apply in_app_or in Hs. destruct Hs as [Hs | [<- | []]].
    + specialize (Hle s Hs). lia.
    + simpl. lia.
Qed.

Lemma not_after_same_sessions (t : Z) (d d' : db) :
  sessions d' = sessions d -> sessions_not_after t d -> sessions_not_after t d'.
Proof. unfold sessions_not_after. intros ->. auto. Qed.

(** C2. Resolving a session for the working directory returns the id of a
    most recently active session with status "active" for that path (the
    first row of the query ordered by last-active descending) and sets the
    last-active time of that session to the current time; when there is no
    such session it appends a new session with that path and status
    "active", under an id no session had, and returns that id. Resolving
    again in the same directory returns the same id, provided no stored
    last-active time is later than the clock of the first call. *)
Theorem get_current_session_resolves (e : env) (d : db) :
  let d1 := fst (get_current_session e d) in
  let session_id := snd (get_current_session e d) in
  ((exists s, In s (sessions d) /\ active_for (cwd e) s = true) ->
   exists s,
     hd_error (Sql.order_by_desc s_last_active (filter (active_for (cwd e)) (sessions d)))
       = Some s
     /\ most_recently_active d (cwd e) s
     /\ session_id = s_id s
     /\ sessions d1 = map (touch session_id (now e)) (sessions d)
     /\ (forall s', In s' (sessions d1) -> s_id s' = session_id -> s_last_active s' = now e))
  /\ ((forall s, In s (sessions d) -> active_for (cwd e) s = false) ->
      exists s,
        sessions d1 = sessions d ++ [s]
        /\ s_id s = session_id
        /\ s_project_path s = cwd e
        /\ s_status s = "active"
        /\ s_last_active s = now e
        /\ (forall s', In s' (sessions d) -> s_id s' <> session_id))
  /\ (sessions_not_after (now e) d ->
      forall e2, cwd e2 = cwd e ->
        snd (get_current_session e2 d1) = session_id).
Proof.
  cbv zeta. split; [|split].
  - intros (s0 & Hin0 & Ha0).
    pose proof (get_current_session_query e d) as Hq.
    rewrite <- order_by_desc_first in Hq.
    destruct (hd_error (Sql.order_by_desc s_last_active
                          (filter (active_for (cwd e)) (sessions d)))) as [s|] eqn:Hh.
    + exists s. rewrite Hq. simpl. split; [reflexivity|].
      rewrite order_by_desc_first in Hh.
      pose proof (first_desc_in _ _ _ Hh) as Hin.
      pose proof (first_desc_max _ _ _ Hh) as Hmax.
      apply filter_In in Hin. destruct Hin as [Hin Ha].
      apply active_for_spec in Ha. destruct Ha as [Hp Hst].
      split; [|split; [reflexivity | split; [reflexivity|]]].
      * repeat split; auto. intros s' Hin' Hp' Hst'. apply Hmax, filter_In.
        split; [exact Hin' | apply active_for_spec; auto].
      * intros s' Hs' Hid. apply in_map_iff in Hs'. destruct Hs' as (z & <- & _).
        rewrite touch_id in Hid. unfold touch. apply Z.eqb_eq in Hid. now rewrite Hid.
    + exfalso. rewrite order_by_desc_first in Hh.
      assert (In s0 (filter (active_for (cwd e)) (sessions d))) as Hf
        by (apply filter_In; auto).
      destruct (filter (active_for (cwd e)) (sessions d)) as [|a l]; [destruct Hf|].
      simpl in Hh. destruct (Sql.first_desc s_last_active l);
        [destruct (s_last_active s <=? s_last_active a)|]; discriminate.
  - intros Hnone.
    destruct (get_current_session_cases e d) as [(s & Hs & _) | (_ & ->)].
    + destruct Hs as (Hin & Hp & Hst & _).
      specialize (Hnone s Hin).
      assert (active_for (cwd e) s = true) by (apply active_for_spec; auto). congruence.
    + simpl. eexists. split; [reflexivity|]. simpl. repeat split.
      intros s' Hs' Heq.
      assert (s_id s' < next_id (map s_id (sessions d)))
        by (apply next_id_above, in_map, Hs').
      lia.
  - intros Hle e2 Hcwd. now apply get_current_session_again.
Qed.

(** C2, at a store with two active sessions of /repo: resolving twice
    returns session 2 both times. *)
Lemma get_current_session_resolves_witness :
  let d := mkDb [mkSession 1 "/repo" 10 20 "Session for repo" "active";
                 mkSession 2 "/repo" 30 40 "Session for repo" "active"] [] [] [] [] [] in
  let e := mkEnv "/repo" 50 (fun _ => Missing) in
  let e2 := mkEnv "/repo" 60 (fun _ => Missing) in
  sessions_not_after (now e) d
  /\ snd (get_current_session e d) = 2
  /\ snd (get_current_session e2 (fst (get_current_session e d))) = 2.
Proof.
  cbv zeta.
  assert (sessions_not_after 50
            (mkDb [mkSession 1 "/repo" 10 20 "Session for repo" "active";
                   mkSession 2 "/repo" 30 40 "Session for repo" "active"] [] [] [] [] []))
    as Hle.
  { intros s [<- | [<- | []]]; simpl; lia. }
  split; [exact Hle|]. split; [reflexivity|].
  exact (proj2 (proj2 (get_current_session_resolves
                         (mkEnv "/repo" 50 (fun _ => Missing)) _)) Hle
               (mkEnv "/repo" 60 (fun _ => Missing)) eq_refl).
Defined.

(** ** Change logging *)

Lemma latest_read_spec (d : db) (session_id : Z) (file_path : string) :
  last_observed d session_id file_path
    match latest_read d session_id file_path with
    | Some result => r_file_hash result
    | None => None
    end.
Proof.
  unfold latest_read. rewrite limit_one_head.
  set (m := fun r => (r_session_id r =? session_id) && String.eqb (r_file_path r) file_path).
  assert (forall r, m r = true <-> r_session_id r = session_id /\ r_file_path r = file_path)
    as Hm.
  { intros r. unfold m. rewrite andb_true_iff, Z.eqb_eq, String.eqb_eq. tauto. }
  destruct (Sql.order_by_desc r_read_at (filter m (file_reads d))) as [|r t] eqn:Hs; simpl.
  - right. split; [|reflexivity]. apply order_by_desc_nil in Hs.
    intros r Hin Hr. apply Hm in Hr.
    assert (In r (filter m (file_reads d))) as Hf by (apply filter_In; auto).
    rewrite Hs in Hf. destruct Hf.
  - left. exists r. split; [|reflexivity].
    apply order_by_desc_head_max in Hs. destruct Hs as [Hin Hmax].
    apply filter_In in Hin. destruct Hin as [Hin Hr]. apply Hm in Hr.
    destruct Hr as [Hsid Hp]. repeat split; auto.
    intros r' Hin' Hsid' Hp'. apply Hmax, filter_In. split; [exact Hin'|].
    apply Hm. auto.
Qed.

Lemma first_desc_none {A : Type} (key : A -> Z) (l : list A) :
  Sql.first_desc key l = None -> l = [].
Proof.
  destruct l as [|a t]; simpl; [reflexivity|].
  destruct (Sql.first_desc key t); [destruct (key a0 <=? key a)|]; discriminate.
Qed.

(** The row that [ORDER BY key DESC LIMIT 1] returns is the first one, in
    table order, among the rows with the largest key. *)
Lemma first_desc_split {A : Type} (key : A -> Z) (l : list A) (x : A) :
  Sql.first_desc key l = Some x ->
  exists before after,
    l = before ++ x :: after
    /\ (forall y, In y before -> key y < key x)
    /\ (forall y, In y after -> key y <= key x).
Proof.
  revert x. induction l as [|a t IH]; simpl; intros x H; [discriminate|].
  destruct (Sql.first_desc key t) as [b|] eqn:Hb.
  - destruct (key b <=? key a) eqn:Hc; injection H as <-.
    + apply Z.leb_le in Hc. exists [], t. split; [reflexivity|].
      split; [intros y []|]. intros y Hy.
      pose proof (first_desc_max key t b Hb y Hy). lia.
    + apply Z.leb_gt in Hc. destruct (IH b eq_refl) as (before & after & -> & Hlt & Hle).
      exists (a :: before), after. split; [reflexivity|]. split; [|exact Hle].
      intros y [<- | Hy]; [lia | now apply Hlt].
  - injection H as <-. apply first_desc_none in Hb. subst t.
    exists [], []. split; [reflexivity|]. split; intros y [].
Qed.

(** What [log_change] stores: one new row of the changes table, for the
    resolved session and the absolute path. For kind "modify" or "delete" the
    before-digest is null when the session has no read of the path, and
    otherwise the digest of the first logged one among its reads of the path
    with the largest read_at; for any other kind it is null. For "create"
    and "modify" the after-digest is the digest of the file as it is on disk
    at that moment; for any other kind it is null. *)
Lemma log_change_digests (e : env) (d : db) (file_path change_type : string)
    (description : option string) :
  let session_id := snd (get_current_session e d) in
  let path := Path.abspath (cwd e) file_path in
  let reads :=
    filter (fun r => (r_session_id r =? session_id) && String.eqb (r_file_path r) path)
      (file_reads d) in
  exists row,
    changes (fst (log_change e d file_path change_type description)) = changes d ++ [row]
    /\ c_session_id row = session_id
    /\ c_file_path row = path
    /\ c_change_type row = change_type
    /\ (change_type = "modify" \/ change_type = "delete" ->
        (reads = [] /\ c_before_hash row = None)
        \/ exists before r after,
             reads = before ++ r :: after
             /\ (forall r', In r' before -> r_read_at r' < r_read_at r)
             /\ (forall r', In r' after -> r_read_at r' <= r_read_at r)
             /\ c_before_hash row = r_file_hash r)
    /\ (change_type <> "modify" -> change_type <> "delete" -> c_before_hash row = None)
    /\ (change_type = "create" \/ change_type = "modify" ->
        c_after_hash row = file_hash (fs e) path)
    /\ (change_type <> "create" -> change_type <> "modify" -> c_after_hash row = None).
Proof.
  cbv zeta. unfold log_change.
  pose proof (get_current_session_tables e d) as Ht. cbv zeta in Ht.
  destruct (get_current_session e d) as [d1 sid]. simpl in Ht |- *.
  destruct Ht as (Hr & Hc & _).
  eexists. rewrite Hc. split; [reflexivity|]. simpl.
  split; [reflexivity|]. split; [reflexivity|]. split; [reflexivity|].
  split; [|split; [|split]].
  - intros Hk.
    assert ((String.eqb change_type "modify" || (String.eqb change_type "delete" || false))
            = true) as -> by (destruct Hk as [-> | ->]; reflexivity).
    unfold latest_read. rewrite limit_one_head, order_by_desc_first, Hr.
    destruct (Sql.first_desc r_read_at _) as [r|] eqn:Hf.
    + right. destruct (first_desc_split _ _ _ Hf) as (before & after & Heq & Hlt & Hle).
      exists before, r, after. auto.
    + left. apply first_desc_none in Hf. auto.
  - intros H1 H2. apply String.eqb_neq in H1, H2. now rewrite H1, H2.
  - intros [-> | ->]; reflexivity.
  - intros H1 H2. apply String.eqb_neq in H1, H2. now rewrite H1, H2.
Qed.

(** The same scenario, evaluated: the change row carries the digest of the
    read as before-digest and the digest of the file as after-digest, and a
    changes query with limit 10 returns that one row. *)
Example log_change_sample :
  let fs : filesystem :=
    fun p => if String.eqb p "/repo/main.py" then File (bytes_of "x=1") else Missing in
  let d1 := fst (log_read (mkEnv "/repo" 1 fs) empty_db "main.py" None) in
  let d2 := fst (log_change (mkEnv "/repo" 2 fs) d1 "main.py" "modify" (Some "refactor")) in
  changes d2
  = [mkChange 1 1 "/repo/main.py" "modify" (Some "refactor")
       (Some "a255512f9d61a6777bd5a304235bd26d")
       (Some "a255512f9d61a6777bd5a304235bd26d") 2]
  /\ snd (query_session (mkEnv "/repo" 3 fs) d2 (Some "changes") 10)
     = [ChangeRow "/repo/main.py" "modify" (Some "refactor") 2].
Proof. vm_compute. split; reflexivity. Qed.

(** C1. The stored before-digest is not always the digest of the most
    recent read. For kind "modify" or "delete" it is the digest of the first
    logged one among the reads of the path in the session with the largest
    read_at (null without such a read), for any other kind it is null; the
    after-digest is the digest of the file on disk for "create" and
    "modify", and null otherwise. The time stamps have a resolution of one
    second and the lookup orders the reads by read_at alone: in /repo,
    within one second, main.py is read while it holds x=1, rewritten to x=2
    and read again; one second later a change of kind modify is logged. The
    two reads carry the same read_at, the lookup returns the first logged
    one, and the change row stores the digest of x=1 as before-digest,
    although the most recent read event (id 2) recorded the digest of
    x=2. *)
Theorem log_change_tie_keeps_older_read :
  (forall (e : env) (d : db) (file_path change_type : string) (description : option string),
     let session_id := snd (get_current_session e d) in
     let path := Path.abspath (cwd e) file_path in
     let reads :=
       filter (fun r => (r_session_id r =? session_id) && String.eqb (r_file_path r) path)
         (file_reads d) in
     exists row,
       changes (fst (log_change e d file_path change_type description)) = changes d ++ [row]
       /\ c_session_id row = session_id
       /\ c_file_path row = path
       /\ c_change_type row = change_type
       /\ (change_type = "modify" \/ change_type = "delete" ->
           (reads = [] /\ c_before_hash row = None)
           \/ exists before r after,
                reads = before ++ r :: after
                /\ (forall r', In r' before -> r_read_at r' < r_read_at r)
                /\ (forall r', In r' after -> r_read_at r' <= r_read_at r)
                /\ c_before_hash row = r_file_hash r)
       /\ (change_type <> "modify" -> change_type <> "delete" -> c_before_hash row = None)
       /\ (change_type = "create" \/ change_type = "modify" ->
           c_after_hash row = file_hash (fs e) path)
       /\ (change_type <> "create" -> change_type <> "modify" -> c_after_hash row = None))
  /\ (let fs1 : filesystem :=
        fun p => if String.eqb p "/repo/main.py" then File (bytes_of "x=1") else Missing in
      let fs2 : filesystem :=
        fun p => if String.eqb p "/repo/main.py" then File (bytes_of "x=2") else Missing in
      let d1 := fst (log_read (mkEnv "/repo" 1 fs1) empty_db "main.py" None) in
      let d2 := fst (log_read (mkEnv "/repo" 1 fs2) d1 "main.py" None) in
      let d3 := fst (log_change (mkEnv "/repo" 2 fs2) d2 "main.py" "modify" None) in
      file_reads d3
      = [mkFileRead 1 1 "/repo/main.py" (Some "a255512f9d61a6777bd5a304235bd26d") 1
           "Examining Python code";
         mkFileRead 2 1 "/repo/main.py" (Some "566162f3afaf9f5f67e7d7ca7a4b424e") 1
           "Examining Python code"]
      /\ changes d3
         = [mkChange 1 1 "/repo/main.py" "modify" None
              (Some "a255512f9d61a6777bd5a304235bd26d")
              (Some "566162f3afaf9f5f67e7d7ca7a4b424e") 2]
      /\ MD5.hexdigest (bytes_of "x=1") = "a255512f9d61a6777bd5a304235bd26d"
      /\ MD5.hexdigest (bytes_of "x=2") = "566162f3afaf9f5f67e7d7ca7a4b424e").
Proof.
  split; [exact log_change_digests|]. vm_compute. repeat split.
Qed.

(** ** Summary query and analytics counts *)

(** C6. The five rows of the summary query (no kind given) carry, in the
    order reads, changes, tests, notes, errors, the counts files_read,
    changes_made, tests_run, notes_added and errors_logged that analytics
    computes over the same store; so their totals agree. *)
Theorem summary_counts_agree (e : env) (d : db) (lim : Z) :
  let a := snd (get_session_analytics e d) in
  snd (query_session e d None lim)
  = [ SummaryRow "reads" (files_read a);
      SummaryRow "changes" (changes_made a);
      SummaryRow "tests" (tests_run a);
      SummaryRow "notes" (notes_added a);
      SummaryRow "errors" (errors_logged a) ].
Proof.
  cbv zeta. unfold query_session, get_session_analytics.
  destruct (get_current_session e d) as [d1 sid]. reflexivity.
Qed.

(** ** Notes *)

(** C10. A note added with an explicitly empty tag list is stored with null
    tags: the call has the same result as the call without tags. *)
Theorem add_note_empty_tags (e : env) (d : db) (content : string) :
  add_note e d content (Some []) = add_note e d content None
  /\ exists row,
       notes (fst (add_note e d content (Some []))) = notes d ++ [row]
       /\ n_content row = content
       /\ n_tags row = None.
Proof.
  split; [reflexivity|].
  unfold add_note.
  pose proof (get_current_session_tables e d) as Ht. cbv zeta in Ht.
  destruct (get_current_session e d) as [d1 sid]. simpl in Ht |- *.
  destruct Ht as (_ & _ & _ & Hn & _). rewrite Hn.
  eexists. split; [reflexivity|]. split; reflexivity.
Qed.

(** ** Content hashing *)

Example md5_empty : MD5.hexdigest [] = "d41d8cd98f00b204e9800998ecf8427e".
Proof. vm_compute. reflexivity. Qed.

Example md5_abc : MD5.hexdigest (bytes_of "abc") = "900150983cd24fb0d6963f7d28e17f72".
Proof. vm_compute. reflexivity. Qed.

(** A message of 70 bytes takes two blocks. *)
Example md5_two_blocks :
  MD5.hexdigest (repeat x61 70) = "0f5c6c4e740bfcc08c3c26ccb2673d46".
Proof. vm_compute. reflexivity. Qed.

Lemma le_bytes_length (n : nat) (x : Z) : List.length (MD5.le_bytes n x) = n.
Proof. unfold MD5.le_bytes. now rewrite length_map, length_seq. Qed.

Lemma digest_length (msg : list byte) : List.length (MD5.digest msg) = 16%nat.
Proof.
  unfold MD5.digest. cbv zeta. rewrite !length_app, !le_bytes_length. reflexivity.
Qed.

Lemma concat_hex_length (l : list Z) :
  String.length (String.concat "" (map MD5.hex_byte l)) = (2 * List.length l)%nat.
Proof.
  induction l as [|a [|b t] IH].
  - reflexivity.
  - reflexivity.
  - change (String.length (String.concat "" (map MD5.hex_byte (a :: b :: t))))
      with (S (S (String.length (String.concat "" (map MD5.hex_byte (b :: t)))))).
    rewrite IH. simpl List.length. lia.
Qed.

Lemma hexdigest_length (msg : list byte) :
  String.length (MD5.hexdigest msg) = 32%nat.
Proof.
  unfold MD5.hexdigest. rewrite concat_hex_length, digest_length. reflexivity.
Qed.

(** C3. The digest of a readable file is the 32-character MD5 hex digest of
    its bytes, so files with the same bytes have the same digest whatever
    their paths; whenever the file cannot be opened or read, whatever the
    exception, the result is null; in particular for a path that does not
    exist. *)
Theorem file_hash_content_digest :
  (forall (fs : filesystem) (p : string) (content : list byte),
     fs p = File content ->
     file_hash fs p = Some (MD5.hexdigest content)
     /\ String.length (MD5.hexdigest content) = 32%nat)
  /\ (forall (fs1 fs2 : filesystem) (p1 p2 : string) (content : list byte),
        fs1 p1 = File content -> fs2 p2 = File content ->
        file_hash fs1 p1 = file_hash fs2 p2)
  /\ (forall (fs : filesystem) (p : string) (x : exn),
        read_bytes fs p = Raise x -> file_hash fs p = None)
  /\ (forall (fs : filesystem) (p : string),
        (forall content, fs p <> File content) -> file_hash fs p = None)
  /\ (forall (fs : filesystem) (p : string),
        fs p = Missing -> file_hash fs p = None).
Proof.
  unfold file_hash, read_bytes. split; [|split; [|split; [|split]]].
  - intros fs p content H. rewrite H. split; [reflexivity | apply hexdigest_length].
  - intros fs1 fs2 p1 p2 content H1 H2. now rewrite H1, H2.
  - intros fs p x H. destruct (fs p); try reflexivity. discriminate.
  - intros fs p H. destruct (fs p) as [| | | |content]; try reflexivity.
    now destruct (H content).
  - intros fs p H. now rewrite H.
Qed.

(** C3, at two paths holding the bytes of "x=1" and at a missing path. *)
Lemma file_hash_content_digest_witness :
  let fs : filesystem :=
    fun p => if String.eqb p "/repo/main.py" then File (bytes_of "x=1")
             else if String.eqb p "/tmp/copy.txt" then File (bytes_of "x=1")
             else Missing in
  file_hash fs "/repo/main.py" = Some "a255512f9d61a6777bd5a304235bd26d"
  /\ file_hash fs "/repo/main.py" = file_hash fs "/tmp/copy.txt"
  /\ file_hash fs "/nowhere" = None.
Proof.
  cbv zeta. split; [vm_compute; reflexivity|]. split.
  - exact (proj1 (proj2 file_hash_content_digest) _ _ "/repo/main.py" "/tmp/copy.txt"
             (bytes_of "x=1") eq_refl eq_refl).
  - exact (proj2 (proj2 (proj2 (proj2 file_hash_content_digest))) _ "/nowhere" eq_refl).
Defined.

(** ** Context inference *)

Lemma find_first {A : Type} (f : A -> bool) (l : list A) (x : A) :
  find f l = Some x ->
  exists l1 l2, l = l1 ++ x :: l2 /\ f x = true /\ forall y, In y l1 -> f y = false.
Proof.
  induction l as [|a l IH]; simpl; intros H; [discriminate|].
  destruct (f a) eqn:Ha.
  - injection H as <-. exists [], l. repeat split; auto. intros y [].
  - destruct (IH H) as (l1 & l2 & -> & Hx & Hl1).
    exists (a :: l1), l2. repeat split; auto.
    intros y [<- | Hy]; auto.
Qed.

Lemma special_match_first (name context : string) :
  special_match name = Some context ->
  exists before pattern after,
    special_files = before ++ (pattern, context) :: after
    /\ Py.contains pattern name = true
    /\ forall kv, In kv before -> Py.contains (fst kv) name = false.
Proof.
  unfold special_match. intros H.
  destruct (find (fun kv => Py.contains (fst kv) name) special_files) as [[pat c]|] eqn:Hf;
    [|discriminate].
  injection H as <-. apply find_first in Hf.
  destruct Hf as (l1 & l2 & Heq & Hc & Hb). exists l1, pat, l2. auto.
Qed.

Lemma find_after {A : Type} (f : A -> bool) (l1 l2 : list A) (x : A) :
  (forall y, In y l1 -> f y = false) -> f x = true -> find f (l1 ++ x :: l2) = Some x.
Proof.
  induction l1 as [|a l1 IH]; simpl; intros Hl Hx; [now rewrite Hx|].
  rewrite (Hl a) by auto. apply IH; auto.
Qed.

Lemma find_nothing {A : Type} (f : A -> bool) (l : list A) :
  (forall y, In y l -> f y = false) -> find f l = None.
Proof.
  induction l as [|a l IH]; simpl; intros Hl; [reflexivity|].
  rewrite (Hl a) by auto. apply IH; auto.
Qed.

(** The special-file loop, read off the table. *)
Lemma special_match_table (name : string) (before after : list (string * string))
    (pattern context : string) :
  special_files = before ++ (pattern, context) :: after ->
  Py.contains pattern name = true ->
  (forall kv, In kv before -> Py.contains (fst kv) name = false) ->
  special_match name = Some context.
Proof.
  intros Heq Hc Hb. unfold special_match. rewrite Heq.
  rewrite (find_after (fun kv => Py.contains (fst kv) name) before after (pattern, context));
    auto.
Qed.

Lemma special_match_none (name : string) :
  (forall kv, In kv special_files -> Py.contains (fst kv) name = false) ->
  special_match name = None.
Proof.
  intros H. unfold special_match.
  now rewrite (find_nothing (fun kv => Py.contains (fst kv) name) special_files H).
Qed.

(** The extension table has one description per extension. *)
Lemma contexts_lookup (suffix context : string) :
  In (suffix, context) contexts -> dict_get suffix contexts = Some context.
Proof.
  unfold contexts. simpl.
  intros H. repeat (destruct H as [H | H]; [injection H as <- <-; reflexivity|]).
  destruct H.
Qed.

Lemma contexts_no_key (suffix : string) :
  (forall kv, In kv contexts -> fst kv <> suffix) -> dict_get suffix contexts = None.
Proof.
  intros H. unfold dict_get.
  rewrite (find_nothing (fun kv : string * string => String.eqb (fst kv) suffix) contexts);
    [reflexivity|].
  intros kv Hkv. apply String.eqb_neq. now apply H.
Qed.

(** C4. Context inference takes the first rule that matches. (1) A
    special file name pattern contained in the lowercase name, with no
    earlier pattern of the table contained in it, decides whatever the
    extension and the content are. (2) Otherwise an extension of the table
    decides; for a readable file the rules on the name come in the order
    test/spec, api/endpoint, component, util/helper, config/setting, and
    the rules on the content (class, function, import) come after all of
    them, in that order; for a file that cannot be read the plain
    description is kept. (3) The fallback is reached only when no pattern
    and no extension matches. (4) A file named user_api_test.py that
    contains "def test_login():" matches the API rule and the function rule
    too, and is a "py test file". *)
Theorem infer_context_priority :
  (forall (fs : filesystem) (p : string) (before after : list (string * string))
          (pattern context : string),
     special_files = before ++ (pattern, context) :: after ->
     Py.contains pattern (Py.lower (Path.name p)) = true ->
     (forall kv, In kv before -> Py.contains (fst kv) (Py.lower (Path.name p)) = false) ->
     infer_context fs p = context)
  /\ (forall (fs : filesystem) (p context text : string),
        (forall kv, In kv special_files ->
           Py.contains (fst kv) (Py.lower (Path.name p)) = false) ->
        In (Py.lower (Path.suffix p), context) contexts ->
        read_text fs (Path.to_str p) = Ok text ->
        let name := Py.lower (Path.name p) in
        let ext := Py.drop 1 (Py.lower (Path.suffix p)) in
        let first_lines := Py.lower (take_lines text 10) in
        infer_context fs p
        = (if Py.contains "test" name || Py.contains "spec" name
           then "Examining " ++ ext ++ " test file"
           else if Py.contains "api" name || Py.contains "endpoint" name
           then "Examining " ++ ext ++ " API code"
           else if Py.contains "component" name
           then "Examining " ++ ext ++ " component"
           else if Py.contains "util" name || Py.contains "helper" name
           then "Examining " ++ ext ++ " utility functions"
           else if Py.contains "config" name || Py.contains "setting" name
           then "Examining " ++ ext ++ " configuration"
           else if Re.class_pattern first_lines
           then "Examining " ++ ext ++ " class definition"
           else if Re.function_pattern first_lines
           then "Examining " ++ ext ++ " function definitions"
           else if Py.contains "import" first_lines || Py.contains "from" first_lines
           then "Examining " ++ ext ++ " module imports and setup"
           else context)%string)
  /\ (forall (fs : filesystem) (p context : string) (x : exn),
        (forall kv, In kv special_files ->
           Py.contains (fst kv) (Py.lower (Path.name p)) = false) ->
        In (Py.lower (Path.suffix p), context) contexts ->
        read_text fs (Path.to_str p) = Raise x ->
        infer_context fs p = context)
  /\ (forall (fs : filesystem) (p : string),
        (forall kv, In kv special_files ->
           Py.contains (fst kv) (Py.lower (Path.name p)) = false) ->
        (forall kv, In kv contexts -> fst kv <> Py.lower (Path.suffix p)) ->
        infer_context fs p
        = match fs (Path.to_str p) with
          | Directory => "Examining directory structure"
          | Inaccessible => "Examining file"
          | _ =>
              ("Examining " ++
               (if String.eqb (Py.lower (Path.suffix p)) "" then "file"
                else Py.drop 1 (Py.lower (Path.suffix p))))%string
          end)
  /\ (forall (fs : filesystem) (p : string),
        Path.name p = "user_api_test.py" ->
        fs (Path.to_str p) = File (bytes_of "def test_login():") ->
        infer_context fs p = "Examining py test file")
  /\ Py.contains "api" "user_api_test.py" = true
  /\ Re.function_pattern "def test_login():" = true.
Proof.
  split; [|split; [|split; [|split; [|split; [|split]]]]].
  - intros fs p before after pattern context Heq Hc Hb. unfold infer_context.
    now rewrite (special_match_table _ before after pattern context Heq Hc Hb).
  - intros fs p context text Hs Hd Hr. cbv zeta. unfold infer_context.
    now rewrite (special_match_none _ Hs), (contexts_lookup _ _ Hd), Hr.
  - intros fs p context x Hs Hd Hr. unfold infer_context.
    now rewrite (special_match_none _ Hs), (contexts_lookup _ _ Hd), Hr.
  - intros fs p Hs Hd. unfold infer_context, Path.is_dir.
    rewrite (special_match_none _ Hs), (contexts_no_key _ Hd).
    destruct (fs (Path.to_str p)); reflexivity.
  - intros fs p Hn Hf. unfold infer_context, Path.suffix, read_text, read_bytes.
    rewrite Hn, Hf. vm_compute. reflexivity.
  - reflexivity.
  - reflexivity.
Qed.

(** C4, at the file /repo/user_api_test.py. *)
Lemma infer_context_priority_witness :
  let fs : filesystem :=
    fun p => if String.eqb p "/repo/user_api_test.py"
             then File (bytes_of "def test_login():") else Missing in
  infer_context fs "/repo/user_api_test.py" = "Examining py test file".
Proof.
  cbv zeta.
  exact (proj1 (proj2 (proj2 (proj2 (proj2 infer_context_priority))))
           _ "/repo/user_api_test.py" eq_refl eq_refl).
Defined.

(** The rules at work: a special name wins over a known extension, the name
    rules over the content, a path that cannot be examined is a "file". *)
Example infer_context_samples :
  let fs : filesystem :=
    fun p => if String.eqb p "/repo/Makefile.py" then File (bytes_of "class A:")
             else if String.eqb p "/repo/api_helper.js" then File (bytes_of "import x")
             else if String.eqb p "/repo/model.py" then File (bytes_of "class A:")
             else if String.eqb p "/locked/tool.bin" then Inaccessible
             else if String.eqb p "/repo/src" then Directory
             else Missing in
  infer_context fs "/repo/Makefile.py" = "Examining build configuration"
  /\ infer_context fs "/repo/api_helper.js" = "Examining js API code"
  /\ infer_context fs "/repo/model.py" = "Examining py class definition"
  /\ infer_context fs "/locked/tool.bin" = "Examining file"
  /\ infer_context fs "/repo/tool.bin" = "Examining bin"
  /\ infer_context fs "/repo/src" = "Examining directory structure".
Proof. vm_compute. repeat split. Qed.

(** C9, as amended. When no special file name pattern matches, the
    extension is in the extension table and the file cannot be opened for
    reading, context inference returns the plain description of the
    extension: no refinement is applied, whatever the file name contains. *)
Theorem infer_context_unreadable (fs : filesystem) (p context : string) (x : exn) :
  special_match (Py.lower (Path.name p)) = None ->
  dict_get (Py.lower (Path.suffix p)) contexts = Some context ->
  read_text fs (Path.to_str p) = Raise x ->
  infer_context fs p = context.
Proof.
  intros Hs Hd Hr. unfold infer_context. now rewrite Hs, Hd, Hr.
Qed.

(** C9, at the missing file /repo/test_api.py: the names "test" and "api"
    refine nothing. *)
Lemma infer_context_unreadable_witness :
  infer_context (fun _ => Missing) "/repo/test_api.py" = "Examining Python code".
Proof.
  exact (infer_context_unreadable (fun _ => Missing) "/repo/test_api.py"
           "Examining Python code" FileNotFoundError eq_refl eq_refl eq_refl).
Defined.

(** C9 as stated fails: the extension of the missing file package.json is
    in the extension table, and the result is the description of the special
    file name, not the one of the extension. *)
Lemma infer_context_unreadable_special :
  ~ (forall (fs : filesystem) (p context : string) (x : exn),
       dict_get (Py.lower (Path.suffix p)) contexts = Some context ->
       read_text fs (Path.to_str p) = Raise x ->
       infer_context fs p = context).
Proof.
  intros H.
  specialize (H (fun _ => Missing) "package.json" "Examining configuration/data"
                FileNotFoundError eq_refl eq_refl).
  vm_compute in H. discriminate H.
Qed.

(** ** GROUP BY *)

Lemma bump_get (k k' : string) (g : list (string * nat)) :
  get_or_zero k (Sql.bump k' g)
  = if String.eqb k' k then S (get_or_zero k g) else get_or_zero k g.
Proof.
  unfold get_or_zero, dict_get.
  induction g as [|[k1 c] t IH]; simpl.
  - rewrite String.eqb_sym. destruct (String.eqb k k'); reflexivity.
  - destruct (String.eqb k1 k') eqn:H1; simpl.
    + apply String.eqb_eq in H1. subst k1.
      destruct (String.eqb k' k); reflexivity.
    + destruct (String.eqb k1 k) eqn:H2; simpl.
      * apply String.eqb_eq in H2. subst k1. now rewrite String.eqb_sym, H1.
      * exact IH.
Qed.

Lemma fold_bump_get (k : string) (keys : list string) (g : list (string * nat)) :
  get_or_zero k (fold_left (fun groups x => Sql.bump x groups) keys g)
  = (count_occ string_dec keys k + get_or_zero k g)%nat.
Proof.
  revert g. induction keys as [|a keys IH]; intros g; simpl; [reflexivity|].
  rewrite IH, bump_get.
  destruct (string_dec a k) as [->|Hne].
  - rewrite String.eqb_refl. lia.
  - apply String.eqb_neq in Hne. now rewrite Hne.
Qed.

Lemma count_groups_get (k : string) (keys : list string) :
  get_or_zero k (Sql.count_groups keys) = count_occ string_dec keys k.
Proof.
  unfold Sql.count_groups. rewrite fold_bump_get. unfold get_or_zero, dict_get. simpl. lia.
Qed.

Lemma bump_sum (k : string) (g : list (string * nat)) :
  sum_values (Sql.bump k g) = S (sum_values g).
Proof.
  induction g as [|[k1 c] t IH]; simpl; [reflexivity|].
  destruct (String.eqb k1 k); simpl; [reflexivity|]. rewrite IH. lia.
Qed.

Lemma fold_bump_sum (keys : list string) (g : list (string * nat)) :
  sum_values (fold_left (fun groups x => Sql.bump x groups) keys g)
  = (List.length keys + sum_values g)%nat.
Proof.
  revert g. induction keys as [|a keys IH]; intros g; simpl; [reflexivity|].
  rewrite IH, bump_sum. lia.
Qed.

Lemma count_groups_sum (keys : list string) :
  sum_values (Sql.count_groups keys) = List.length keys.
Proof. unfold Sql.count_groups. rewrite fold_bump_sum. simpl. lia. Qed.

Lemma bump_in_key (k k' : string) (g : list (string * nat)) :
  In k' (map fst (Sql.bump k g)) <-> k' = k \/ In k' (map fst g).
Proof.
  induction g as [|[k1 c] t IH]; simpl.
  - split; [intros [<- | []]; auto | intros [-> | []]; auto].
  - destruct (String.eqb k1 k) eqn:H1; simpl.
    + apply String.eqb_eq in H1. subst k1. intuition congruence.
    + rewrite IH. tauto.
Qed.

Lemma bump_nodup (k : string) (g : list (string * nat)) :
  NoDup (map fst g) -> NoDup (map fst (Sql.bump k g)).
Proof.
  induction g as [|[k1 c] t IH]; simpl; intros Hn.
  - constructor; [intros [] | constructor].
  - destruct (String.eqb k1 k) eqn:H1; simpl; [exact Hn|].
    inversion Hn as [|? ? Hnot Hrest]; subst. constructor; [|now apply IH].
    rewrite bump_in_key. intros [-> | Hin]; [|contradiction].
    rewrite String.eqb_refl in H1. discriminate.
Qed.

Lemma bump_positive (k : string) (g : list (string * nat)) :
  Forall (fun kv => (0 < snd kv)%nat) g ->
  Forall (fun kv => (0 < snd kv)%nat) (Sql.bump k g).
Proof.
  induction 1 as [|[k1 c] t Hc Ht IH]; simpl.
  - repeat constructor.
  - destruct (String.eqb k1 k); constructor; simpl in *; auto; lia.
Qed.

Lemma count_groups_invariant (keys : list string) :
  NoDup (map fst (Sql.count_groups keys))
  /\ Forall (fun kv => (0 < snd kv)%nat) (Sql.count_groups keys).
Proof.
  unfold Sql.count_groups.
  assert (forall g, NoDup (map fst g) /\ Forall (fun kv => (0 < snd kv)%nat) g ->
            NoDup (map fst (fold_left (fun groups x => Sql.bump x groups) keys g))
            /\ Forall (fun kv => (0 < snd kv)%nat)
                 (fold_left (fun groups x => Sql.bump x groups) keys g)) as H.
  { induction keys as [|a keys IH]; intros g [Hn Hp]; simpl; [auto|].
    apply IH. split; [now apply bump_nodup | now apply bump_positive]. }
  apply H. split; constructor.
Qed.

Lemma nodup_get (k : string) (c : nat) (g : list (string * nat)) :
  NoDup (map fst g) -> In (k, c) g -> get_or_zero k g = c.
Proof.
  unfold get_or_zero, dict_get.
  induction g as [|[k1 c1] t IH]; simpl; intros Hn Hin; [destruct Hin|].
  inversion Hn as [|? ? Hnot Hrest]; subst.
  destruct Hin as [Heq | Hin].
  - injection Heq as -> ->. now rewrite String.eqb_refl.
  - destruct (String.eqb k1 k) eqn:H1; simpl.
    + apply String.eqb_eq in H1. subst k1. exfalso. apply Hnot.
      change k with (fst (k, c)). now apply in_map.
    + now apply IH.
Qed.

Lemma get_in (k : string) (g : list (string * nat)) :
  (0 < get_or_zero k g)%nat -> In (k, get_or_zero k g) g.
Proof.
  unfold get_or_zero, dict_get.
  destruct (find (fun kv => String.eqb (fst kv) k) g) as [[k1 c]|] eqn:Hf; simpl.
  - intros _. apply find_some in Hf. destruct Hf as [Hin Heq]. simpl in Heq.
    apply String.eqb_eq in Heq. now subst k1.
  - lia.
Qed.

Lemma sum_values_app (l1 l2 : list (string * nat)) :
  sum_values (l1 ++ l2) = (sum_values l1 + sum_values l2)%nat.
Proof. induction l1 as [|a l IH]; simpl; [reflexivity | rewrite IH; lia]. Qed.

Lemma sum_values_perm (l1 l2 : list (string * nat)) :
  Permutation l1 l2 -> sum_values l1 = sum_values l2.
Proof. induction 1; simpl; lia. Qed.

(** Listing the groups in the order of their labels moves no count. *)
Lemma insert_key_perm (g : string * nat) (groups : list (string * nat)) :
  Permutation (g :: groups) (Sql.insert_key g groups).
Proof.
  induction groups as [|h t IH]; simpl; [reflexivity|].
  destruct (String.leb (fst g) (fst h)); [reflexivity|].
  rewrite perm_swap. now apply perm_skip.
Qed.

Lemma order_by_key_perm (groups : list (string * nat)) :
  Permutation groups (Sql.order_by_key groups).
Proof.
  induction groups as [|g t IH]; simpl; [reflexivity|].
  rewrite <- insert_key_perm. now apply perm_skip.
Qed.

Lemma group_count_perm (keys : list string) :
  Permutation (Sql.count_groups keys) (Sql.group_count keys).
Proof. apply order_by_key_perm. Qed.

Lemma group_count_invariant (keys : list string) :
  NoDup (map fst (Sql.group_count keys))
  /\ Forall (fun kv => (0 < snd kv)%nat) (Sql.group_count keys).
Proof.
  destruct (count_groups_invariant keys) as [Hn Hp]. split.
  - exact (Permutation_NoDup (Permutation_map fst (group_count_perm keys)) Hn).
  - exact (Permutation_Forall (group_count_perm keys) Hp).
Qed.

Lemma group_count_get (k : string) (keys : list string) :
  get_or_zero k (Sql.group_count keys) = count_occ string_dec keys k.
Proof.
  rewrite <- count_groups_get.
  destruct (group_count_invariant keys) as [Hn _].
  destruct (count_groups_invariant keys) as [Hn' _].
  pose proof (group_count_perm keys) as Hperm.
  destruct (Nat.eq_dec (get_or_zero k (Sql.count_groups keys)) 0) as [Hz | Hz].
  - destruct (Nat.eq_dec (get_or_zero k (Sql.group_count keys)) 0) as [Hz2 | Hz2];
      [congruence|].
    assert (In (k, get_or_zero k (Sql.group_count keys)) (Sql.group_count keys)) as Hin
      by (apply get_in; lia).
    apply (Permutation_in _ (Permutation_sym Hperm)) in Hin.
    apply (nodup_get _ _ _ Hn') in Hin. congruence.
  - assert (In (k, get_or_zero k (Sql.count_groups keys)) (Sql.count_groups keys)) as Hin
      by (apply get_in; lia).
    apply (Permutation_in _ Hperm) in Hin.
    now apply nodup_get.
Qed.

Lemma group_count_sum (keys : list string) :
  sum_values (Sql.group_count keys) = List.length keys.
Proof. rewrite <- (sum_values_perm _ _ (group_count_perm keys)). apply count_groups_sum. Qed.

(** ** Test success rate *)

Lemma analytics_rate (e : env) (d : db) :
  let a := snd (get_session_analytics e d) in
  let session_id := snd (get_current_session e d) in
  tests_run a = count_where t_session_id session_id (tests d)
  /\ test_success_rate a
     = if Nat.eqb (tests_run a) 0 then None
       else Some (success_rate (pass_count d session_id) (tests_run a)).
Proof.
  cbv zeta. unfold get_session_analytics, pass_count.
  pose proof (get_current_session_tables e d) as Ht. cbv zeta in Ht.
  destruct (get_current_session e d) as [d1 sid]. cbn [fst snd] in Ht |- *.
  destruct Ht as (_ & _ & Hts & _). rewrite Hts.
  cbn [tests_run test_success_rate]. split; [reflexivity|].
  rewrite group_count_sum, group_count_get, length_map. unfold count_where.
  destruct (List.length (filter (fun t => t_session_id t =? sid) (tests d))); reflexivity.
Qed.

(** What [log_test] does to the store. *)
Lemma log_test_effect (e : env) (d : db) (command result : string) (output : option string) :
  let d' := fst (log_test e d command result output) in
  sessions d' = sessions (fst (get_current_session e d))
  /\ exists row,
       tests d' = tests d ++ [row]
       /\ t_session_id row = snd (get_current_session e d)
       /\ t_result row = result.
Proof.
  cbv zeta. unfold log_test.
  pose proof (get_current_session_tables e d) as Ht. cbv zeta in Ht.
  destruct (get_current_session e d) as [d1 sid]. cbn [fst snd] in Ht |- *.
  destruct Ht as (_ & _ & Hts & _). rewrite Hts. cbn [sessions tests].
  split; [reflexivity|]. eexists. split; [reflexivity|]. split; reflexivity.
Qed.

(** The session's tests after three logged runs in one directory under a
    clock that does not go back. *)
Lemma three_tests (e1 e2 e3 e4 : env) (d : db) (c1 c2 c3 r1 r2 r3 : string)
    (o1 o2 o3 : option string) :
  sessions_not_after (now e1) d ->
  now e1 <= now e2 -> now e2 <= now e3 ->
  cwd e2 = cwd e1 -> cwd e3 = cwd e1 -> cwd e4 = cwd e1 ->
  count_where t_session_id (snd (get_current_session e1 d)) (tests d) = 0%nat ->
  let d1 := fst (log_test e1 d c1 r1 o1) in
  let d2 := fst (log_test e2 d1 c2 r2 o2) in
  let d3 := fst (log_test e3 d2 c3 r3 o3) in
  map t_result
    (filter (fun t => t_session_id t =? snd (get_current_session e4 d3)) (tests d3))
  = [r1; r2; r3].
Proof.
  intros Hle H12 H23 Hc2 Hc3 Hc4 Hzero. cbv zeta.
  set (sid := snd (get_current_session e1 d)) in *.
  destruct (log_test_effect e1 d c1 r1 o1) as (Hs1 & row1 & Ht1 & Hid1 & Hr1).
  set (d1 := fst (log_test e1 d c1 r1 o1)) in *.
  destruct (log_test_effect e2 d1 c2 r2 o2) as (Hs2 & row2 & Ht2 & Hid2 & Hr2).
  set (d2 := fst (log_test e2 d1 c2 r2 o2)) in *.
  destruct (log_test_effect e3 d2 c3 r3 o3) as (Hs3 & row3 & Ht3 & Hid3 & Hr3).
  set (d3 := fst (log_test e3 d2 c3 r3 o3)) in *.
  assert (snd (get_current_session e2 d1) = sid) as G2
    by (now apply get_current_session_again).
  assert (sessions_not_after (now e2) d1) as N1.
  { apply (not_after_same_sessions _ (fst (get_current_session e1 d))); [exact Hs1|].
    apply (get_current_session_not_after e1 d (now e1)) in Hle; [|lia].
    intros s Hs. specialize (Hle s Hs). lia. }
  assert (snd (get_current_session e3 d2) = sid) as G3.
  { rewrite <- G2. apply get_current_session_again; [exact N1 | congruence | exact Hs2]. }
  assert (sessions_not_after (now e3) d2) as N2.
  { apply (not_after_same_sessions _ (fst (get_current_session e2 d1))); [exact Hs2|].
    apply (get_current_session_not_after e2 d1 (now e2)) in N1; [|lia].
    intros s Hs. specialize (N1 s Hs). lia. }
  assert (snd (get_current_session e4 d3) = sid) as G4.
  { rewrite <- G3. apply get_current_session_again; [exact N2 | congruence | exact Hs3]. }
  rewrite G4, Ht3, Ht2, Ht1, !filter_app. simpl.
  rewrite Hid1, Hid2, Hid3, G2, G3, !Z.eqb_refl.
  unfold count_where in Hzero. apply length_zero_iff_nil in Hzero. rewrite Hzero.
  simpl. now rewrite Hr1, Hr2, Hr3.
Qed.

(** C5, as amended. The analytics carry no test_success_rate when the
    session has no test event; otherwise the rate is the binary64 float
    [pass_count / total_count * 100], the quotient rounded before the
    product. After exactly three test events pass, pass, fail in a session,
    tests_run is 3 and the rate is 0x1.0aaaaaaaaaaaap+6, which prints as 66.7
    with one decimal. *)
Theorem test_success_rate_value :
  (forall (e : env) (d : db),
     let a := snd (get_session_analytics e d) in
     let session_id := snd (get_current_session e d) in
     tests_run a = count_where t_session_id session_id (tests d)
     /\ test_success_rate a
        = if Nat.eqb (tests_run a) 0 then None
          else Some (success_rate (pass_count d session_id) (tests_run a)))
  /\ (forall (e1 e2 e3 e4 : env) (d : db) (c1 c2 c3 : string) (o1 o2 o3 : option string),
        sessions_not_after (now e1) d ->
        now e1 <= now e2 -> now e2 <= now e3 ->
        cwd e2 = cwd e1 -> cwd e3 = cwd e1 -> cwd e4 = cwd e1 ->
        count_where t_session_id (snd (get_current_session e1 d)) (tests d) = 0%nat ->
        let d1 := fst (log_test e1 d c1 "pass" o1) in
        let d2 := fst (log_test e2 d1 c2 "pass" o2) in
        let d3 := fst (log_test e3 d2 c3 "fail" o3) in
        let a := snd (get_session_analytics e4 d3) in
        tests_run a = 3%nat
        /\ test_success_rate a = Some 0x1.0aaaaaaaaaaaap+6%float
        /\ option_map format_1f (test_success_rate a) = Some "66.7").
Proof.
  split; [exact analytics_rate|].
  intros e1 e2 e3 e4 d c1 c2 c3 o1 o2 o3 Hle H12 H23 Hc2 Hc3 Hc4 Hzero. cbv zeta.
  pose proof (three_tests e1 e2 e3 e4 d c1 c2 c3 "pass" "pass" "fail" o1 o2 o3
                Hle H12 H23 Hc2 Hc3 Hc4 Hzero) as H3.
  cbv zeta in H3.
  set (d3 := fst (log_test e3 _ c3 "fail" o3)) in *.
  destruct (analytics_rate e4 d3) as [Hrun Hrate].
  assert (tests_run (snd (get_session_analytics e4 d3)) = 3%nat) as Hn.
  { rewrite Hrun. unfold count_where. rewrite <- (length_map t_result), H3. reflexivity. }
  assert (pass_count d3 (snd (get_current_session e4 d3)) = 2%nat) as Hp.
  { unfold pass_count. rewrite H3. reflexivity. }
  rewrite Hrate, Hn, Hp. repeat split.
Qed.

(** C5, from the empty store: three runs in /repo at times 1, 2 and 3. *)
Lemma test_success_rate_value_witness :
  let e := fun t => mkEnv "/repo" t (fun _ => Missing) in
  let d1 := fst (log_test (e 1) empty_db "pytest" "pass" None) in
  let d2 := fst (log_test (e 2) d1 "pytest" "pass" None) in
  let d3 := fst (log_test (e 3) d2 "pytest" "fail" None) in
  let a := snd (get_session_analytics (e 4) d3) in
  tests_run a = 3%nat
  /\ test_success_rate a = Some 0x1.0aaaaaaaaaaaap+6%float
  /\ option_map format_1f (test_success_rate a) = Some "66.7".
Proof.
  cbv zeta.
  refine (proj2 test_success_rate_value
            (mkEnv "/repo" 1 (fun _ => Missing)) (mkEnv "/repo" 2 (fun _ => Missing))
            (mkEnv "/repo" 3 (fun _ => Missing)) (mkEnv "/repo" 4 (fun _ => Missing))
            empty_db "pytest" "pytest" "pytest" None None None
            _ _ _ eq_refl eq_refl eq_refl eq_refl).
  - intros s [].
  - simpl. lia.
  - simpl. lia.
Defined.

(** C5 as stated fails, in both readings of the formula. After pass, pass,
    fail the rate is not the float that [100 * 2 / 3] evaluates to
    (0x1.0aaaaaaaaaaabp+6), and it is not the fraction 200/3 either. *)
Lemma test_success_rate_not_formula :
  ~ (forall (e : env) (d : db),
       let a := snd (get_session_analytics e d) in
       tests_run a <> 0%nat ->
       test_success_rate a
       = Some (percent_formula (pass_count d (snd (get_current_session e d))) (tests_run a)))
  /\ ~ (forall (e : env) (d : db) (r : float),
          let a := snd (get_session_analytics e d) in
          test_success_rate a = Some r ->
          exact_ratio r (100 * Z.of_nat (pass_count d (snd (get_current_session e d))))
            (Z.of_nat (tests_run a)) = true).
Proof.
  set (e := fun t => mkEnv "/repo" t (fun _ => Missing)).
  set (d3 := fst (log_test (e 3)
                    (fst (log_test (e 2)
                            (fst (log_test (e 1) empty_db "pytest" "pass" None))
                            "pytest" "pass" None))
                    "pytest" "fail" None)).
  split; intros H.
  - specialize (H (e 4) d3). cbv zeta in H.
    assert (tests_run (snd (get_session_analytics (e 4) d3)) <> 0%nat) as Hn
      by (vm_compute; discriminate).
    specialize (H Hn).
    apply (f_equal (fun o => match o with
                             | Some r => PrimFloat.eqb r 0x1.0aaaaaaaaaaaap+6%float
                             | None => false
                             end)) in H.
    vm_compute in H. discriminate H.
  - specialize (H (e 4) d3 0x1.0aaaaaaaaaaaap+6%float). cbv zeta in H.
    assert (test_success_rate (snd (get_session_analytics (e 4) d3))
            = Some 0x1.0aaaaaaaaaaaap+6%float) as Hr by (vm_compute; reflexivity).
    specialize (H Hr). vm_compute in H. discriminate H.
Qed.

(** ** File-type histogram *)

Lemma sorted_split {A : Type} (R : A -> A -> Prop) (l1 l2 : list A) :
  StronglySorted R (l1 ++ l2) ->
  StronglySorted R l1 /\ forall x y, In x l1 -> In y l2 -> R x y.
Proof.
  induction l1 as [|a l IH]; simpl; intros H.
  - split; [constructor | intros x y []].
  - inversion H as [|? ? Hs Hall]; subst. destruct (IH Hs) as [Hl Hcross].
    rewrite Forall_forall in Hall. split.
    + constructor; [exact Hl|]. apply Forall_forall. intros x Hx.
      apply Hall, in_or_app. now left.
    + intros x y [<- | Hx] Hy; [|now apply Hcross].
      apply Hall, in_or_app. now right.
Qed.

(** The histogram query on a list of labels: the groups in any order,
    sorted by descending count and cut after [n] rows. *)
Lemma top_groups (labels : list string) (groups : list (string * nat)) (n : nat) :
  Permutation (Sql.group_count labels) groups ->
  let top := firstn n (Sql.order_by_desc (fun g => Z.of_nat (snd g)) groups) in
  (forall label c, In (label, c) top ->
     c = count_occ string_dec labels label /\ (0 < c)%nat)
  /\ NoDup (map fst top)
  /\ StronglySorted (fun x y => (snd y <= snd x)%nat) top
  /\ (List.length top <= n)%nat
  /\ (sum_values top <= List.length labels)%nat
  /\ (forall label, (0 < count_occ string_dec labels label)%nat ->
        In (label, count_occ string_dec labels label) top
        \/ (List.length top = n
            /\ forall entry, In entry top ->
                 (count_occ string_dec labels label <= snd entry)%nat)).
Proof.
  intros Hgroups. cbv zeta.
  set (key := fun g : string * nat => Z.of_nat (snd g)).
  set (sorted := Sql.order_by_desc key groups).
  destruct (group_count_invariant labels) as [Hnd Hpos].
  pose proof (Permutation_trans Hgroups
                (Permutation_sym (order_by_desc_perm key groups))) as Hperm.
  fold sorted in Hperm.
  pose proof (order_by_desc_sorted key groups) as Hsorted. fold sorted in Hsorted.
  pose proof (firstn_skipn n sorted) as Hsplit.
  assert (forall x, In x (firstn n sorted) -> In x (Sql.group_count labels)) as Hin.
  { intros x Hx. apply (Permutation_in _ (Permutation_sym Hperm)). rewrite <- Hsplit.
    apply in_or_app. now left. }
  rewrite <- Hsplit in Hsorted. apply sorted_split in Hsorted.
  destruct Hsorted as [Htop Hcross].
  split; [|split; [|split; [|split; [|split]]]].
  - intros label c Hlc. apply Hin in Hlc. split.
    + rewrite <- (group_count_get label labels). symmetry. now apply nodup_get.
    + rewrite Forall_forall in Hpos. exact (Hpos _ Hlc).
  - assert (NoDup (map fst sorted)) as Hns
      by (apply (Permutation_NoDup (Permutation_map fst Hperm)), Hnd).
    rewrite <- Hsplit, map_app in Hns. now apply NoDup_app_remove_r in Hns.
  - clear -Htop. induction Htop as [|a l Hl IH Ha]; constructor; [exact IH|].
    rewrite Forall_forall in *. intros x Hx. specialize (Ha x Hx). unfold key in Ha. lia.
  - apply firstn_le_length.
  - rewrite <- (group_count_sum labels).
    rewrite (sum_values_perm _ _ Hperm).
    assert (sum_values sorted
            = (sum_values (firstn n sorted) + sum_values (skipn n sorted))%nat) as ->
      by (now rewrite <- sum_values_app, Hsplit).
    lia.
  - intros label Hc.
    assert (In (label, count_occ string_dec labels label) sorted) as Hs.
    { apply (Permutation_in _ Hperm).
      rewrite <- (group_count_get label labels) in Hc |- *. now apply get_in. }
    rewrite <- Hsplit in Hs. apply in_app_or in Hs. destruct Hs as [Hs | Hs]; [now left|].
    right. split.
    + apply firstn_length_le.
      destruct (Nat.le_gt_cases n (List.length sorted)) as [Hle | Hgt]; [exact Hle|].
      rewrite skipn_all2 in Hs by lia. destruct Hs.
    + intros entry He. specialize (Hcross entry _ He Hs). unfold key in Hcross.
      simpl in Hcross. lia.
Qed.

(** ** Suffixes of strings *)

Lemma length_append (a b : string) :
  String.length (a ++ b) = (String.length a + String.length b)%nat.
Proof. induction a as [|c a IH]; simpl; [reflexivity | now rewrite IH]. Qed.

Lemma list_of_append (a b : string) :
  list_ascii_of_string (a ++ b) = list_ascii_of_string a ++ list_ascii_of_string b.
Proof. induction a as [|c a IH]; simpl; [reflexivity | now rewrite IH]. Qed.

Lemma lower_append (a b : string) :
  Py.lower (a ++ b) = (Py.lower a ++ Py.lower b)%string.
Proof. induction a as [|c a IH]; simpl; [reflexivity | now rewrite IH]. Qed.

Lemma substring_full (s : string) : substring 0 (String.length s) s = s.
Proof. induction s as [|c s IH]; simpl; [reflexivity | now rewrite IH]. Qed.

Lemma substring_skip (x s : string) (i m : nat) :
  substring (String.length x + i) m (x ++ s) = substring i m s.
Proof. induction x as [|c x IH]; simpl; [reflexivity | exact IH]. Qed.

Lemma substring_split (s : string) (i : nat) :
  (i <= String.length s)%nat ->
  (substring 0 i s ++ substring i (String.length s - i) s)%string = s.
Proof.
  revert i. induction s as [|c s IH]; intros i Hi; simpl in Hi.
  - assert (i = 0%nat) as -> by lia. reflexivity.
  - destruct i as [|i].
    + simpl. now rewrite substring_full.
    + simpl. rewrite IH by lia. reflexivity.
Qed.

Lemma endswith_suffix (p s : string) :
  Py.endswith p s = true -> exists x, s = (x ++ p)%string.
Proof.
  unfold Py.endswith. remember (String.length p) as m eqn:Hm. clear Hm.
  intros H. apply andb_true_iff in H. destruct H as [Hle Heq].
  apply Nat.leb_le in Hle. apply String.eqb_eq in Heq.
  exists (substring 0 (String.length s - m) s). rewrite <- Heq.
  replace m with (String.length s - (String.length s - m))%nat at 3 by lia.
  symmetry. apply substring_split. lia.
Qed.

Lemma endswith_append (p x : string) : Py.endswith p (x ++ p) = true.
Proof.
  unfold Py.endswith. rewrite length_append. apply andb_true_iff. split.
  - apply Nat.leb_le. lia.
  - replace (String.length x + String.length p - String.length p)%nat
      with (String.length x + 0)%nat by lia.
    rewrite substring_skip, substring_full. apply String.eqb_refl.
Qed.

(** Two strings that differ on their last characters are not suffixes of
    the same string. *)
Lemma endswith_clash (suf tail x : string) :
  let ls := rev (list_ascii_of_string suf) in
  let lt := rev (list_ascii_of_string tail) in
  let k := Nat.min (List.length ls) (List.length lt) in
  firstn k ls <> firstn k lt ->
  Py.endswith suf (x ++ tail) = false.
Proof.
  cbv zeta. intros Hne. destruct (Py.endswith suf (x ++ tail)) eqn:He; [|reflexivity].
  exfalso. apply Hne. apply endswith_suffix in He. destruct He as [y Hy].
  apply (f_equal list_ascii_of_string) in Hy. rewrite !list_of_append in Hy.
  apply (f_equal (@rev ascii)) in Hy. rewrite !rev_app_distr in Hy.
  set (ls := rev (list_ascii_of_string suf)) in *.
  set (lt := rev (list_ascii_of_string tail)) in *.
  apply (f_equal (firstn (Nat.min (List.length ls) (List.length lt)))) in Hy.
  rewrite !firstn_app in Hy.
  replace (Nat.min (List.length ls) (List.length lt) - List.length lt)%nat with 0%nat in Hy
    by lia.
  replace (Nat.min (List.length ls) (List.length lt) - List.length ls)%nat with 0%nat in Hy
    by lia.
  simpl in Hy. rewrite !app_nil_r in Hy. now symmetry.
Qed.

Ltac file_type_of H :=
  unfold file_type, like_suffix; rewrite lower_append, H;
  repeat (rewrite endswith_clash by (vm_compute; discriminate));
  rewrite endswith_append; reflexivity.

(** The CASE expression on paths with a known extension, in any letter case. *)
Lemma file_type_mapping (stem ext : string) :
  (Py.lower ext = ".py" -> file_type (stem ++ ext) = "Python")
  /\ (Py.lower ext = ".js" -> file_type (stem ++ ext) = "JavaScript")
  /\ (Py.lower ext = ".ts" -> file_type (stem ++ ext) = "TypeScript")
  /\ (Py.lower ext = ".jsx" -> file_type (stem ++ ext) = "React")
  /\ (Py.lower ext = ".tsx" -> file_type (stem ++ ext) = "React TS")
  /\ (Py.lower ext = ".css" -> file_type (stem ++ ext) = "CSS")
  /\ (Py.lower ext = ".md" -> file_type (stem ++ ext) = "Markdown")
  /\ (Py.lower ext = ".json" -> file_type (stem ++ ext) = "JSON").
Proof.
  repeat split; intros H; file_type_of H.
Qed.

Lemma file_type_other (p : string) :
  like_suffix ".py" p = false -> like_suffix ".js" p = false ->
  like_suffix ".ts" p = false -> like_suffix ".jsx" p = false ->
  like_suffix ".tsx" p = false -> like_suffix ".css" p = false ->
  like_suffix ".md" p = false -> like_suffix ".json" p = false ->
  file_type p = "Other".
Proof.
  intros H1 H2 H3 H4 H5 H6 H7 H8. unfold file_type.
  now rewrite H1, H2, H3, H4, H5, H6, H7, H8.
Qed.

(** C7. The file_types histogram of a session counts, label by label, the
    paths of the read rows and of the change rows of that session taken
    together (with multiplicity) under the fixed mapping from extension to
    label; its buckets have distinct labels and positive counts, come in
    descending order of count, are at most 5 (a bucket left out is not
    larger than any listed one), and their counts sum to at most the number
    of reads plus the number of changes of the session, which are the
    counts files_read and changes_made of the analytics. *)
Theorem file_types_histogram (e : env) (d : db) :
  let a := snd (get_session_analytics e d) in
  let session_id := snd (get_current_session e d) in
  let reads := filter (fun r => r_session_id r =? session_id) (file_reads d) in
  let changes := filter (fun c => c_session_id c =? session_id) (changes d) in
  let labels := map file_type (map r_file_path reads ++ map c_file_path changes) in
  (forall label c, In (label, c) (file_types a) ->
     c = count_occ string_dec labels label /\ (0 < c)%nat)
  /\ NoDup (map fst (file_types a))
  /\ StronglySorted (fun x y => (snd y <= snd x)%nat) (file_types a)
  /\ (List.length (file_types a) <= 5)%nat
  /\ (sum_values (file_types a) <= List.length reads + List.length changes)%nat
  /\ files_read a = List.length reads
  /\ changes_made a = List.length changes
  /\ (forall label, (0 < count_occ string_dec labels label)%nat ->
        In (label, count_occ string_dec labels label) (file_types a)
        \/ (List.length (file_types a) = 5%nat
            /\ forall entry, In entry (file_types a) ->
                 (count_occ string_dec labels label <= snd entry)%nat))
  /\ (forall stem ext : string,
        (Py.lower ext = ".py" -> file_type (stem ++ ext) = "Python")
        /\ (Py.lower ext = ".js" -> file_type (stem ++ ext) = "JavaScript")
        /\ (Py.lower ext = ".ts" -> file_type (stem ++ ext) = "TypeScript")
        /\ (Py.lower ext = ".jsx" -> file_type (stem ++ ext) = "React")
        /\ (Py.lower ext = ".tsx" -> file_type (stem ++ ext) = "React TS")
        /\ (Py.lower ext = ".css" -> file_type (stem ++ ext) = "CSS")
        /\ (Py.lower ext = ".md" -> file_type (stem ++ ext) = "Markdown")
        /\ (Py.lower ext = ".json" -> file_type (stem ++ ext) = "JSON"))
  /\ (forall p : string,
        like_suffix ".py" p = false -> like_suffix ".js" p = false ->
        like_suffix ".ts" p = false -> like_suffix ".jsx" p = false ->
        like_suffix ".tsx" p = false -> like_suffix ".css" p = false ->
        like_suffix ".md" p = false -> like_suffix ".json" p = false ->
        file_type p = "Other").
Proof.
  cbv zeta.
  set (sid := snd (get_current_session e d)).
  set (reads := filter (fun r => r_session_id r =? sid) (file_reads d)).
  set (chs := filter (fun c => c_session_id c =? sid) (changes d)).
  set (labels := map file_type (map r_file_path reads ++ map c_file_path chs)).
  assert (file_types (snd (get_session_analytics e d))
          = firstn 5 (Sql.order_by_desc (fun g => Z.of_nat (snd g))
                        (rev (Sql.group_count labels)))
          /\ files_read (snd (get_session_analytics e d)) = List.length reads
          /\ changes_made (snd (get_session_analytics e d)) = List.length chs)
    as (Hft & Hfr & Hcm).
  { unfold labels, reads, chs, sid, get_session_analytics, touched_paths, Sql.group_count_desc.
    pose proof (get_current_session_tables e d) as Ht. cbv zeta in Ht.
    destruct (get_current_session e d) as [d1 sid']. cbn [fst snd] in Ht |- *.
    destruct Ht as (Hr & Hc & _). rewrite Hr, Hc. split; [reflexivity|].
    split; reflexivity. }
  assert (List.length labels = (List.length reads + List.length chs)%nat) as Hlen
    by (unfold labels; now rewrite length_map, length_app, !length_map).
  rewrite Hft, Hfr, Hcm, <- Hlen.
  pose proof (top_groups labels (rev (Sql.group_count labels)) 5
                (Permutation_rev (Sql.group_count labels))) as Htop.
  cbv zeta in Htop. destruct Htop as (H1 & H2 & H3 & H4 & H5 & H6).
  split; [exact H1|]. split; [exact H2|]. split; [exact H3|]. split; [exact H4|].
  split; [exact H5|]. split; [reflexivity|]. split; [reflexivity|]. split; [exact H6|].
  split.
  - intros stem ext. apply file_type_mapping.
  - exact file_type_other.
Qed.

(** The histogram of a session that read a.py, B.PY and notes.md and
    changed a.py and x.rs. The two buckets of one path come after the
    larger one, the later label first. *)
Example file_types_sample :
  let e := fun t => mkEnv "/repo" t (fun _ => Missing) in
  let d1 := fst (log_read (e 1) empty_db "a.py" None) in
  let d2 := fst (log_read (e 2) d1 "B.PY" None) in
  let d3 := fst (log_read (e 3) d2 "notes.md" None) in
  let d4 := fst (log_change (e 4) d3 "a.py" "modify" None) in
  let d5 := fst (log_change (e 5) d4 "x.rs" "create" None) in
  file_types (snd (get_session_analytics (e 6) d5))
  = [("Python", 3%nat); ("Other", 1%nat); ("Markdown", 1%nat)].
Proof. vm_compute. reflexivity. Qed.

(** Seven buckets of one path each: the five kept are the last five labels
    in the order of the labels, the last one first. *)
Example file_types_ties :
  let e := fun t => mkEnv "/repo" t (fun _ => Missing) in
  let d := run_all [(e 1, CmdRead "a.py" None); (e 2, CmdRead "b.js" None);
                    (e 3, CmdRead "c.ts" None); (e 4, CmdRead "d.jsx" None);
                    (e 5, CmdRead "e.tsx" None); (e 6, CmdRead "f.css" None);
                    (e 7, CmdRead "g.md" None)] empty_db in
  file_types (snd (get_session_analytics (e 8) d))
  = [("TypeScript", 1%nat); ("React TS", 1%nat); ("React", 1%nat); ("Python", 1%nat);
     ("Markdown", 1%nat)].
Proof. vm_compute. reflexivity. Qed.

(** ** JSON round trip *)

Lemma append_assoc (a b c : string) : ((a ++ b) ++ c = a ++ (b ++ c))%string.
Proof. induction a as [|x a IH]; simpl; [reflexivity | now rewrite IH]. Qed.

Lemma append_nil_r (a : string) : (a ++ EmptyString)%string = a.
Proof. induction a as [|x a IH]; simpl; [reflexivity | now rewrite IH]. Qed.

(** Decoding undoes the escape of one character. *)
Lemma in_string_escape_char (c : ascii) (tail cur : string) (acc : list string) :
  Json.in_string (Json.escape_char c ++ tail) cur acc
  = Json.in_string tail (cur ++ String c EmptyString) acc.
Proof.
  destruct c as [[|] [|] [|] [|] [|] [|] [|] [|]]; reflexivity.
Qed.

Lemma in_string_escape (s rest cur : string) (acc : list string) :
  Json.in_string (Json.escape s ++ String Json.quote rest) cur acc
  = Json.after_value rest ((cur ++ s)%string :: acc).
Proof.
  revert cur. induction s as [|c s IH]; intros cur.
  - rewrite append_nil_r. reflexivity.
  - change (Json.escape (String c s)) with (Json.escape_char c ++ Json.escape s)%string.
    rewrite append_assoc, in_string_escape_char, IH, append_assoc. reflexivity.
Qed.

Lemma dumps_items (t : string) (ts : list string) :
  (Py.join ", " (map Json.encode_string (t :: ts)) ++ "]")%string
  = String Json.quote (Json.escape t ++ String Json.quote (dumps_rest ts)).
Proof.
  destruct ts as [|t' ts]; simpl map; cbn [Py.join]; unfold Json.encode_string at 1;
    cbn [String.append]; f_equal; rewrite !append_assoc; reflexivity.
Qed.

Lemma after_value_rest (ts acc : list string) :
  Json.after_value (dumps_rest ts) acc = Some (rev acc ++ ts).
Proof.
  revert acc. induction ts as [|t ts IH]; intros acc.
  - simpl. now rewrite app_nil_r.
  - unfold dumps_rest. rewrite dumps_items.
    change (Json.after_value
              (", " ++ String Json.quote (Json.escape t ++ String Json.quote (dumps_rest ts)))
              acc)
      with (Json.in_string (Json.escape t ++ String Json.quote (dumps_rest ts))
              EmptyString acc).
    rewrite in_string_escape, IH. simpl. now rewrite <- app_assoc.
Qed.

(** Decoding what [json.dumps] wrote gives the list back, in order. *)
Lemma loads_dumps (tags : list string) : Json.loads (Json.dumps tags) = Some tags.
Proof.
  destruct tags as [|t ts]; [reflexivity|].
  unfold Json.dumps. rewrite dumps_items.
  change (Json.loads ("[" ++ String Json.quote
                               (Json.escape t ++ String Json.quote (dumps_rest ts))))
    with (Json.in_string (Json.escape t ++ String Json.quote (dumps_rest ts))
            EmptyString []).
  rewrite in_string_escape, after_value_rest. reflexivity.
Qed.

Example dumps_sample :
  Json.dumps ["bug"; "urgent"]
  = String "[" (String Json.quote ("bug" ++ String Json.quote (", " ++
      String Json.quote ("urgent" ++ String Json.quote "]")))).
Proof. reflexivity. Qed.

(** ** Rows returned under a limit *)

Lemma filter_all {A : Type} (f : A -> bool) (l : list A) :
  (forall x, In x l -> f x = true) -> filter f l = l.
Proof.
  induction l as [|a l IH]; simpl; intros H; [reflexivity|].
  rewrite (H a) by auto. f_equal. apply IH. auto.
Qed.

Lemma filter_length_perm {A : Type} (f : A -> bool) (l l' : list A) :
  Permutation l l' -> List.length (filter f l) = List.length (filter f l').
Proof.
  induction 1 as [|x l l' _ IH|x y l|l l' l'' _ IH1 _ IH2]; simpl.
  - reflexivity.
  - destruct (f x); simpl; now rewrite IH.
  - destruct (f x), (f y); reflexivity.
  - now rewrite IH1.
Qed.

(** A row is among the first [n] rows of a descending order when at most
    [n] rows have a key that is not smaller than its own. *)
Lemma sorted_top_in {A : Type} (key : A -> Z) (l : list A) (x : A) (n : nat) :
  StronglySorted (fun a b => key b <= key a) l ->
  In x l ->
  (List.length (filter (fun y => (key x <=? key y)%Z) l) <= n)%nat ->
  In x (firstn n l).
Proof.
  intros Hs Hin Hcount.
  pose proof (firstn_skipn n l) as Hsplit.
  rewrite <- Hsplit in Hin. apply in_app_or in Hin. destruct Hin as [Hin | Hin]; [exact Hin|].
  exfalso.
  assert (List.length (firstn n l) = n) as Hn.
  { apply firstn_length_le.
    destruct (Nat.le_gt_cases n (List.length l)) as [Hle | Hgt]; [exact Hle|].
    rewrite skipn_all2 in Hin by lia. destruct Hin. }
  rewrite <- Hsplit in Hs. apply sorted_split in Hs. destruct Hs as [_ Hcross].
  rewrite <- Hsplit, filter_app, length_app in Hcount.
  rewrite filter_all in Hcount.
  - assert (In x (filter (fun y => key x <=? key y) (skipn n l))) as Hx
      by (apply filter_In; split; [exact Hin | apply Z.leb_refl]).
    destruct (filter (fun y => key x <=? key y) (skipn n l)); [destruct Hx|].
    simpl in Hcount. lia.
  - intros y Hy. apply Z.leb_le. exact (Hcross y x Hy Hin).
Qed.

Lemma select_recent_in {A : Type} (session_of at_ : A -> Z) (session_id lim : Z)
    (t : list A) (x : A) :
  In x t -> session_of x = session_id ->
  lim < 0
  \/ Z.of_nat (List.length
                 (filter (fun y => at_ x <=? at_ y)
                    (filter (fun r => session_of r =? session_id) t))) <= lim ->
  In x (select_recent session_of at_ session_id lim t).
Proof.
  intros Hin Hsid Hlim. unfold select_recent.
  set (rows := filter (fun r => session_of r =? session_id) t) in *.
  assert (In x (Sql.order_by_desc at_ rows)) as Hx.
  { apply order_by_desc_in. apply filter_In. split; [exact Hin | now apply Z.eqb_eq]. }
  unfold Sql.limit. destruct (lim <? 0) eqn:Hneg; [exact Hx|].
  apply Z.ltb_ge in Hneg. destruct Hlim as [Hlim | Hlim]; [lia|].
  apply (sorted_top_in at_); [apply order_by_desc_sorted | exact Hx |].
  rewrite (filter_length_perm _ _ _ (order_by_desc_perm at_ rows)). lia.
Qed.

(** What [add_note] does to the store. *)
Lemma add_note_effect (e : env) (d : db) (content : string) (tags : option (list string)) :
  let d' := fst (add_note e d content tags) in
  sessions d' = sessions (fst (get_current_session e d))
  /\ exists id,
       notes d'
       = notes d ++ [mkNote id (snd (get_current_session e d)) content (tags_json tags) (now e)].
Proof.
  cbv zeta. unfold add_note.
  pose proof (get_current_session_tables e d) as Ht. cbv zeta in Ht.
  destruct (get_current_session e d) as [d1 sid]. cbn [fst snd] in Ht |- *.
  destruct Ht as (_ & _ & _ & Hn & _). rewrite Hn. cbn [sessions notes].
  split; [reflexivity|]. eexists. reflexivity.
Qed.

(** C8. A note added with a non-empty tag list is stored with the tags as
    a JSON list that decodes to the same tags in the same order. A later
    notes query in the same directory returns the note with that JSON list,
    when the limit is a signed 64-bit integer (what SQLite can bind) that
    is negative or larger than the number of notes of the session that are
    not older than it. A note added without tags is stored
    with null tags, not with the JSON of the empty list. *)
Theorem add_note_tags_round_trip :
  (forall tags : list string, Json.loads (Json.dumps tags) = Some tags)
  /\ (forall (e : env) (d : db) (content t : string) (ts : list string),
        exists row,
          notes (fst (add_note e d content (Some (t :: ts)))) = notes d ++ [row]
          /\ n_session_id row = snd (get_current_session e d)
          /\ n_content row = content
          /\ n_tags row = Some (Json.dumps (t :: ts))
          /\ Json.loads (Json.dumps (t :: ts)) = Some (t :: ts))
  /\ (forall (e1 e2 : env) (d : db) (content t : string) (ts : list string) (lim : Z),
        sessions_not_after (now e1) d ->
        cwd e2 = cwd e1 ->
        Sql.integer lim ->
        lim < 0
        \/ Z.of_nat (notes_not_before d (snd (get_current_session e1 d)) (now e1)) < lim ->
        exists tags created_at,
          In (NoteRow content (Some tags) created_at)
             (snd (query_session e2 (fst (add_note e1 d content (Some (t :: ts))))
                     (Some "notes") lim))
          /\ Json.loads tags = Some (t :: ts))
  /\ (forall (e : env) (d : db) (content : string),
        exists row,
          notes (fst (add_note e d content None)) = notes d ++ [row]
          /\ n_content row = content
          /\ n_tags row = None
          /\ n_tags row <> Some (Json.dumps [])).
Proof.
  split; [exact loads_dumps|]. split; [|split].
  - intros e d content t ts.
    destruct (add_note_effect e d content (Some (t :: ts))) as (_ & id & Hn).
    eexists. split; [exact Hn|]. repeat split. apply loads_dumps.
  - intros e1 e2 d content t ts lim Hle Hcwd _ Hlim.
    destruct (add_note_effect e1 d content (Some (t :: ts))) as (Hs & id & Hn).
    set (d' := fst (add_note e1 d content (Some (t :: ts)))) in *.
    set (sid := snd (get_current_session e1 d)) in *.
    assert (snd (get_current_session e2 d') = sid) as Hsid
      by (now apply get_current_session_again).
    exists (Json.dumps (t :: ts)), (now e1). split; [|apply loads_dumps].
    unfold query_session.
    pose proof (get_current_session_tables e2 d') as Ht. cbv zeta in Ht.
    destruct (get_current_session e2 d') as [d1 sid']. cbn [fst snd] in Ht, Hsid |- *.
    destruct Ht as (_ & _ & _ & Hn1 & _). subst sid'. cbn [is_kind String.eqb].
    change (NoteRow content (Some (Json.dumps (t :: ts))) (now e1))
      with ((fun n => NoteRow (n_content n) (n_tags n) (n_created_at n))
              (mkNote id sid content (tags_json (Some (t :: ts))) (now e1))).
    apply in_map. rewrite Hn1, Hn.
    apply select_recent_in; [apply in_or_app; right; now left | reflexivity |].
    destruct Hlim as [Hlim | Hlim]; [now left | right].
    rewrite filter_app, filter_app, length_app. cbn [filter n_session_id n_created_at].
    rewrite !Z.eqb_refl. cbn [filter n_created_at]. rewrite Z.leb_refl.
    unfold notes_not_before in Hlim. simpl List.length. lia.
  - intros e d content.
    destruct (add_note_effect e d content None) as (_ & id & Hn).
    eexists. split; [exact Hn|]. repeat split. discriminate.
Qed.

(** C8, from the empty store: the tags bug, urgent come back in that order
    from a notes query with limit 10. *)
Lemma add_note_tags_round_trip_witness :
  let e1 := mkEnv "/repo" 1 (fun _ => Missing) in
  let e2 := mkEnv "/repo" 2 (fun _ => Missing) in
  exists tags created_at,
    In (NoteRow "fix me" (Some tags) created_at)
       (snd (query_session e2 (fst (add_note e1 empty_db "fix me" (Some ["bug"; "urgent"])))
               (Some "notes") 10))
    /\ Json.loads tags = Some ["bug"; "urgent"].
Proof.
  cbv zeta.
  refine (proj1 (proj2 (proj2 add_note_tags_round_trip))
            (mkEnv "/repo" 1 (fun _ => Missing)) (mkEnv "/repo" 2 (fun _ => Missing))
            empty_db "fix me" "bug" ["urgent"] 10 _ eq_refl _ _).
  - intros s [].
  - unfold Sql.integer. lia.
  - right. vm_compute. reflexivity.
Defined.

(** * More of the code: commands, invariants, queries *)

(** ** What one command does to the store *)

Lemma run_effect (e : env) (d : db) (c : command) :
  let sid := snd (get_current_session e d) in
  exists nr nc nt nn ne,
    run e d c
    = mkDb (sessions (fst (get_current_session e d)))
        (file_reads d ++ nr) (changes d ++ nc) (tests d ++ nt)
        (notes d ++ nn) (errors d ++ ne)
    /\ (List.length nr + List.length nc + List.length nt
        + List.length nn + List.length ne <= 1)%nat
    /\ Forall (fun r => r_session_id r = sid /\ r_read_at r = now e
                        /\ r_id r = next_id (map r_id (file_reads d))) nr
    /\ Forall (fun r => c_session_id r = sid /\ c_changed_at r = now e
                        /\ c_id r = next_id (map c_id (changes d))) nc
    /\ Forall (fun r => t_session_id r = sid /\ t_run_at r = now e
                        /\ t_id r = next_id (map t_id (tests d))) nt
    /\ Forall (fun r => n_session_id r = sid /\ n_created_at r = now e
                        /\ n_id r = next_id (map n_id (notes d))) nn
    /\ Forall (fun r => e_session_id r = sid /\ e_occurred_at r = now e
                        /\ e_id r = next_id (map e_id (errors d))) ne.
Proof.
  cbv zeta.
  pose proof (get_current_session_tables e d) as Ht. cbv zeta in Ht.
  destruct c; unfold run, log_read, log_change, log_test, add_note, log_error,
    query_session, get_session_analytics;
    destruct (get_current_session e d) as [d1 sid]; cbn [fst snd] in Ht |- *;
    destruct Ht as (Hr & Hc & Hts & Hn & He); rewrite ?Hr, ?Hc, ?Hts, ?Hn, ?He.
  all: do 5 eexists; split;
    [ try (destruct d1; cbn [sessions file_reads changes tests notes errors] in *; subst);
      f_equal; first [reflexivity | symmetry; apply app_nil_r]
    | simpl; repeat split; auto ].
Qed.

Lemma run_sessions (e : env) (d : db) (c : command) :
  sessions (run e d c) = sessions (fst (get_current_session e d)).
Proof.
  destruct (run_effect e d c) as (nr & nc & nt & nn & ne & -> & _). reflexivity.
Qed.

(** ** Sessions kept by [get_current_session] *)

Lemma map_id_touch (i t : Z) (l : list session_row) :
  map s_id (map (touch i t) l) = map s_id l.
Proof.
  rewrite map_map. apply map_ext. intros s. apply touch_id.
Qed.

Lemma get_current_session_ids (e : env) (d : db) :
  let d1 := fst (get_current_session e d) in
  let sid := snd (get_current_session e d) in
  In sid (map s_id (sessions d1))
  /\ (map s_id (sessions d1) = map s_id (sessions d)
      \/ (map s_id (sessions d1) = map s_id (sessions d) ++ [sid]
          /\ sid = next_id (map s_id (sessions d)))).
Proof.
  cbv zeta.
  destruct (get_current_session_cases e d) as [(s & Hs & ->) | (_ & ->)]; simpl.
  - rewrite map_id_touch. split; [|now left].
    apply in_map. apply Hs.
  - rewrite map_app. simpl. split; [|right; split; reflexivity].
    apply in_or_app. right. now left.
Qed.

Lemma nodup_snoc_next (ids : list Z) :
  NoDup ids -> NoDup (ids ++ [next_id ids]).
Proof.
  intros Hn. apply NoDup_app; [exact Hn | repeat constructor; intros [] |].
  intros i Hi [<- | []]. apply next_id_above in Hi. lia.
Qed.

Lemma nodup_new_rows {A : Type} (f : A -> Z) (l new : list A) :
  NoDup (map f l) ->
  (List.length new <= 1)%nat ->
  Forall (fun r => f r = next_id (map f l)) new ->
  NoDup (map f (l ++ new)).
Proof.
  intros Hn Hlen Hnew. destruct new as [|r [|r' new]].
  - now rewrite app_nil_r.
  - inversion Hnew as [|? ? Hr _]; subst. rewrite map_app. simpl. rewrite Hr.
    now apply nodup_snoc_next.
  - simpl in Hlen. lia.
Qed.

Lemma run_distinct_ids (e : env) (d : db) (c : command) :
  distinct_ids d -> distinct_ids (run e d c).
Proof.
  intros (Hs & Hr & Hc & Ht & Hn & He).
  destruct (run_effect e d c)
    as (nr & nc & nt & nn & ne & -> & Hlen & Fr & Fc & Ft & Fn & Fe).
  unfold distinct_ids. cbn [sessions file_reads changes tests notes errors].
  split; [|repeat split].
  - destruct (get_current_session_ids e d) as [_ [-> | [-> ->]]];
      [exact Hs | now apply nodup_snoc_next].
  - apply nodup_new_rows; [exact Hr | lia |].
    eapply Forall_impl; [|exact Fr]. intros r H. apply H.
  - apply nodup_new_rows; [exact Hc | lia |].
    eapply Forall_impl; [|exact Fc]. intros r H. apply H.
  - apply nodup_new_rows; [exact Ht | lia |].
    eapply Forall_impl; [|exact Ft]. intros r H. apply H.
  - apply nodup_new_rows; [exact Hn | lia |].
    eapply Forall_impl; [|exact Fn]. intros r H. apply H.
  - apply nodup_new_rows; [exact He | lia |].
    eapply Forall_impl; [|exact Fe]. intros r H. apply H.
Qed.

Lemma run_all_preserves (P : db -> Prop) (h : list (env * command)) (d : db) :
  (forall e d' c, P d' -> P (run e d' c)) -> P d -> P (run_all h d).
Proof.
  intros Hstep. unfold run_all. revert d.
  induction h as [|[e c] h IH]; intros d Hd; simpl; [exact Hd|].
  apply IH. now apply Hstep.
Qed.

(** X1. Primary keys. In the empty store, and after any sequence of
    commands run on a store whose ids are distinct, no id occurs twice in
    any of the six tables. *)
Theorem ids_stay_distinct :
  distinct_ids empty_db
  /\ forall (h : list (env * command)) (d : db),
       distinct_ids d -> distinct_ids (run_all h d).
Proof.
  split.
  - unfold distinct_ids. simpl. repeat split; constructor.
  - intros h d. apply run_all_preserves. intros e d' c. apply run_distinct_ids.
Qed.

Lemma filter_none {A : Type} (f : A -> bool) (l : list A) :
  (forall x, In x l -> f x = false) -> filter f l = [].
Proof.
  induction l as [|a l IH]; simpl; intros H; [reflexivity|].
  rewrite (H a) by auto. apply IH. auto.
Qed.

Lemma get_current_session_one_active (e : env) (d : db) :
  one_active_per_path d -> one_active_per_path (fst (get_current_session e d)).
Proof.
  intros Hone p.
  destruct (get_current_session_cases e d) as [(s & _ & ->) | (Hnone & ->)]; simpl.
  - rewrite filter_map_touch, length_map. apply Hone.
  - rewrite filter_app, length_app. simpl.
    destruct (active_for p _) eqn:Ha; simpl.
    + apply active_for_spec in Ha. simpl in Ha. destruct Ha as [<- _].
      rewrite (filter_none _ _ Hnone). simpl. lia.
    + specialize (Hone p). lia.
Qed.

(** X2. At most one active session per path. In the empty store, and after
    any sequence of commands run on a store that has at most one active
    session for every path, every path still has at most one active
    session: [get_current_session] never creates a second one. *)
Theorem one_active_session_per_path :
  one_active_per_path empty_db
  /\ forall (h : list (env * command)) (d : db),
       one_active_per_path d -> one_active_per_path (run_all h d).
Proof.
  split.
  - intros p. simpl. lia.
  - intros h d. apply run_all_preserves. intros e d' c Hone p.
    rewrite run_sessions. now apply get_current_session_one_active.
Qed.

Lemma in_new_rows {A : Type} (P : A -> Prop) (l new : list A) (x : A) :
  (forall y, In y l -> P y) -> Forall P new -> In x (l ++ new) -> P x.
Proof.
  intros Hl Hnew Hx. apply in_app_or in Hx. destruct Hx as [Hx | Hx]; [now apply Hl|].
  rewrite Forall_forall in Hnew. now apply Hnew.
Qed.

Lemma run_refers_to_sessions (e : env) (d : db) (c : command) :
  refers_to_sessions d -> refers_to_sessions (run e d c).
Proof.
  intros (Hr & Hc & Ht & Hn & He).
  destruct (run_effect e d c)
    as (nr & nc & nt & nn & ne & -> & Hlen & Fr & Fc & Ft & Fn & Fe).
  destruct (get_current_session_ids e d) as [Hsid Hids].
  assert (forall i, In i (map s_id (sessions d)) ->
            In i (map s_id (sessions (fst (get_current_session e d))))) as Hkeep.
  { intros i Hi. destruct Hids as [-> | [-> _]]; [exact Hi|].
    apply in_or_app. now left. }
  unfold refers_to_sessions. cbn [sessions file_reads changes tests notes errors].
  set (ids := map s_id (sessions (fst (get_current_session e d)))) in *.
  repeat split; intros x Hx.
  - apply (in_new_rows (fun r => In (r_session_id r) ids) (file_reads d) nr); auto.
    eapply Forall_impl; [|exact Fr]. intros r (-> & _). exact Hsid.
  - apply (in_new_rows (fun r => In (c_session_id r) ids) (changes d) nc); auto.
    eapply Forall_impl; [|exact Fc]. intros r (-> & _). exact Hsid.
  - apply (in_new_rows (fun r => In (t_session_id r) ids) (tests d) nt); auto.
    eapply Forall_impl; [|exact Ft]. intros r (-> & _). exact Hsid.
  - apply (in_new_rows (fun r => In (n_session_id r) ids) (notes d) nn); auto.
    eapply Forall_impl; [|exact Fn]. intros r (-> & _). exact Hsid.
  - apply (in_new_rows (fun r => In (e_session_id r) ids) (errors d) ne); auto.
    eapply Forall_impl; [|exact Fe]. intros r (-> & _). exact Hsid.
Qed.

(** X3. Foreign keys. In the empty store, and after any sequence of
    commands run on a store whose events all belong to one of its sessions,
    every event belongs to one of the sessions of the store: the session id
    of a new row is the id that [get_current_session] has just returned,
    and no session is ever removed. *)
Theorem events_refer_to_sessions :
  refers_to_sessions empty_db
  /\ forall (h : list (env * command)) (d : db),
       refers_to_sessions d -> refers_to_sessions (run_all h d).
Proof.
  split.
  - unfold refers_to_sessions. simpl. repeat split; intros x [].
  - intros h d. apply run_all_preserves. intros e d' c. apply run_refers_to_sessions.
Qed.

(** ** Time stamps *)

Lemma run_not_after (e : env) (d : db) (c : command) (t : Z) :
  not_after t d -> t <= now e -> not_after (now e) (run e d c).
Proof.
  intros (Hs & Hr & Hc & Ht & Hn & He) Hle.
  destruct (run_effect e d c)
    as (nr & nc & nt & nn & ne & -> & Hlen & Fr & Fc & Ft & Fn & Fe).
  unfold not_after. cbn [sessions file_reads changes tests notes errors].
  split; [|repeat split].
  - intros s Hin.
    destruct (get_current_session_cases e d) as [(s0 & _ & Heq) | (_ & Heq)];
      rewrite Heq in Hin; simpl in Hin.
    + apply in_map_iff in Hin. destruct Hin as (z & <- & Hz).
      destruct (Hs z Hz) as [H1 H2].
      unfold touch. destruct (s_id z =? s_id s0); simpl; lia.
    + apply in_app_or in Hin. destruct Hin as [Hin | [<- | []]].
      * destruct (Hs s Hin). lia.
      * simpl. lia.
  - intros x Hx.
    apply (in_new_rows (fun r => r_read_at r <= now e) (file_reads d) nr); auto.
    + intros y Hy. specialize (Hr y Hy). lia.
    + eapply Forall_impl; [|exact Fr]. intros r (_ & -> & _). lia.
  - intros x Hx.
    apply (in_new_rows (fun r => c_changed_at r <= now e) (changes d) nc); auto.
    + intros y Hy. specialize (Hc y Hy). lia.
    + eapply Forall_impl; [|exact Fc]. intros r (_ & -> & _). lia.
  - intros x Hx.
    apply (in_new_rows (fun r => t_run_at r <= now e) (tests d) nt); auto.
    + intros y Hy. specialize (Ht y Hy). lia.
    + eapply Forall_impl; [|exact Ft]. intros r (_ & -> & _). lia.
  - intros x Hx.
    apply (in_new_rows (fun r => n_created_at r <= now e) (notes d) nn); auto.
    + intros y Hy. specialize (Hn y Hy). lia.
    + eapply Forall_impl; [|exact Fn]. intros r (_ & -> & _). lia.
  - intros x Hx.
    apply (in_new_rows (fun r => e_occurred_at r <= now e) (errors d) ne); auto.
    + intros y Hy. specialize (He y Hy). lia.
    + eapply Forall_impl; [|exact Fe]. intros r (_ & -> & _). lia.
Qed.

(** X4. Time stamps follow the clock. When no time stamp of the store is
    later than [t] and the commands are run under clock readings that start
    at [t] or later and never go back, no time stamp of the resulting store
    is later than the last clock reading. *)
Theorem timestamps_follow_clock (t : Z) (h : list (env * command)) (d : db) :
  not_after t d -> clock_ok t h -> not_after (last_clock t h) (run_all h d).
Proof.
  unfold run_all. revert t d.
  induction h as [|[e c] h IH]; intros t d Hd Hok; simpl in *; [exact Hd|].
  destruct Hok as [Hle Hok]. apply IH; [|exact Hok].
  now apply (run_not_after e d c t).
Qed.

(** X4, from the empty store: a read at time 5 and a note at time 9. *)
Lemma timestamps_follow_clock_witness :
  not_after 9
    (run_all [(mkEnv "/repo" 5 (fun _ => Missing), CmdRead "a.py" None);
              (mkEnv "/repo" 9 (fun _ => Missing), CmdNote "n" None)] empty_db).
Proof.
  refine (timestamps_follow_clock 0
            [(mkEnv "/repo" 5 (fun _ => Missing), CmdRead "a.py" None);
             (mkEnv "/repo" 9 (fun _ => Missing), CmdNote "n" None)] empty_db _ _).
  - unfold not_after. simpl. repeat split; intros; contradiction.
  - simpl. repeat split; lia.
Defined.

(** ** The session of a directory *)

Lemma at_most_one {A : Type} (l : list A) (a b : A) :
  (List.length l <= 1)%nat -> In a l -> In b l -> a = b.
Proof.
  destruct l as [|x [|y l]]; simpl; intros Hlen Ha Hb.
  - destruct Ha.
  - destruct Ha as [<- | []], Hb as [<- | []]. reflexivity.
  - lia.
Qed.

Lemma resolve_unique (e : env) (d : db) (s : session_row) :
  one_active_per_path d ->
  In s (sessions d) -> active_for (cwd e) s = true ->
  snd (get_current_session e d) = s_id s.
Proof.
  intros Hone Hin Ha.
  destruct (get_current_session_cases e d) as [(s0 & Hs0 & ->) | (Hnone & _)]; simpl.
  - destruct Hs0 as (Hin0 & Hp0 & Hst0 & _).
    f_equal. apply (at_most_one (filter (active_for (cwd e)) (sessions d))).
    + apply Hone.
    + apply filter_In. split; [exact Hin0 | apply active_for_spec; auto].
    + apply filter_In. auto.
  - rewrite (Hnone s Hin) in Ha. discriminate.
Qed.

Lemma resolved_active (e : env) (d : db) :
  exists s, In s (sessions (fst (get_current_session e d)))
    /\ s_id s = snd (get_current_session e d)
    /\ active_for (cwd e) s = true.
Proof.
  destruct (get_current_session_cases e d) as [(s & Hs & ->) | (_ & ->)]; simpl.
  - destruct Hs as (Hin & Hp & Hst & _).
    exists (touch (s_id s) (now e) s). split; [now apply in_map|].
    rewrite touch_id, touch_active. split; [reflexivity | apply active_for_spec; auto].
  - eexists. split; [apply in_or_app; right; left; reflexivity|].
    split; [reflexivity|]. unfold active_for. simpl. now rewrite String.eqb_refl.
Qed.

Lemma active_kept (e : env) (d : db) (p : string) (s : session_row) :
  In s (sessions d) -> active_for p s = true ->
  exists s', In s' (sessions (fst (get_current_session e d)))
    /\ s_id s' = s_id s /\ active_for p s' = true.
Proof.
  intros Hin Ha.
  destruct (get_current_session_cases e d) as [(s0 & _ & ->) | (_ & ->)]; simpl.
  - exists (touch (s_id s0) (now e) s). split; [now apply in_map|].
    now rewrite touch_id, touch_active.
  - exists s. split; [apply in_or_app; now left | auto].
Qed.

Lemma active_kept_all (h : list (env * command)) (d : db) (p : string) (s : session_row) :
  In s (sessions d) -> active_for p s = true ->
  exists s', In s' (sessions (run_all h d))
    /\ s_id s' = s_id s /\ active_for p s' = true.
Proof.
  unfold run_all. revert d s.
  induction h as [|[e c] h IH]; intros d s Hin Ha; simpl; [exists s; auto|].
  destruct (active_kept e d p s Hin Ha) as (s1 & Hin1 & Hid1 & Ha1).
  rewrite <- (run_sessions e d c) in Hin1.
  destruct (IH _ s1 Hin1 Ha1) as (s2 & Hin2 & Hid2 & Ha2).
  exists s2. repeat split; auto. congruence.
Qed.

(** X5. The session of a directory never changes. On a store with at most
    one active session per path, once a session id was resolved for a
    directory, resolving in that directory returns the same id after any
    further commands, whatever their directories and clock readings. *)
Theorem session_id_stable (e1 e2 : env) (h : list (env * command)) (d : db) :
  one_active_per_path d ->
  cwd e2 = cwd e1 ->
  snd (get_current_session e2 (run_all h (fst (get_current_session e1 d))))
  = snd (get_current_session e1 d).
Proof.
  intros Hone Hcwd.
  destruct (resolved_active e1 d) as (s & Hin & Hid & Ha).
  destruct (active_kept_all h _ (cwd e1) s Hin Ha) as (s' & Hin' & Hid' & Ha').
  rewrite <- Hid, <- Hid'. apply resolve_unique.
  - apply run_all_preserves.
    + intros e d' c H p. rewrite run_sessions. now apply get_current_session_one_active.
    + now apply get_current_session_one_active.
  - exact Hin'.
  - now rewrite Hcwd.
Qed.

(** X5, from the empty store: /repo keeps session 1 while /other is used,
    under a clock that goes back. *)
Lemma session_id_stable_witness :
  snd (get_current_session (mkEnv "/repo" 3 (fun _ => Missing))
         (run_all [(mkEnv "/other" 50 (fun _ => Missing), CmdTest "make" "pass" None);
                   (mkEnv "/repo" 7 (fun _ => Missing), CmdNote "n" None)]
            (fst (get_current_session (mkEnv "/repo" 10 (fun _ => Missing)) empty_db))))
  = snd (get_current_session (mkEnv "/repo" 10 (fun _ => Missing)) empty_db).
Proof.
  refine (session_id_stable (mkEnv "/repo" 10 (fun _ => Missing))
            (mkEnv "/repo" 3 (fun _ => Missing)) _ empty_db _ eq_refl).
  intros p. simpl. lia.
Defined.

(** ** Sessions do not see each other's events *)

Lemma same_key_same_row {A : Type} (f : A -> Z) (l : list A) (a b : A) :
  NoDup (map f l) -> In a l -> In b l -> f a = f b -> a = b.
Proof.
  induction l as [|x l IH]; simpl; intros Hn Ha Hb Hf; [destruct Ha|].
  inversion Hn as [|? ? Hnot Hrest]; subst.
  destruct Ha as [-> | Ha], Hb as [-> | Hb].
  - reflexivity.
  - exfalso. apply Hnot. rewrite Hf. now apply in_map.
  - exfalso. apply Hnot. rewrite <- Hf. now apply in_map.
  - now apply IH.
Qed.

Lemma filter_new_rows {A : Type} (session_of : A -> Z) (sid i : Z) (l new : list A) :
  sid <> i ->
  Forall (fun r => session_of r = sid) new ->
  filter (fun r => session_of r =? i) (l ++ new) = filter (fun r => session_of r =? i) l.
Proof.
  intros Hne Hnew. rewrite filter_app, (filter_none _ new), app_nil_r; [reflexivity|].
  rewrite Forall_forall in Hnew. intros x Hx. rewrite (Hnew x Hx). now apply Z.eqb_neq.
Qed.

(** X6. A command adds nothing to the sessions of other directories. On a
    store with distinct session ids, the events of a session whose project
    path is not the working directory are the same before and after any
    command. *)
Theorem other_sessions_untouched (e : env) (d : db) (c : command) (s : session_row) :
  NoDup (map s_id (sessions d)) ->
  In s (sessions d) ->
  s_project_path s <> cwd e ->
  session_events (run e d c) (s_id s) = session_events d (s_id s).
Proof.
  intros Hn Hin Hp.
  assert (snd (get_current_session e d) <> s_id s) as Hne.
  { destruct (get_current_session_cases e d) as [(s0 & Hs0 & ->) | (_ & ->)]; simpl.
    - destruct Hs0 as (Hin0 & Hp0 & _). intros Heq.
      apply Hp. rewrite <- Hp0. f_equal.
      symmetry. now apply (same_key_same_row s_id (sessions d)).
    - assert (s_id s < next_id (map s_id (sessions d)))
        by (apply next_id_above, in_map, Hin).
      lia. }
  destruct (run_effect e d c)
    as (nr & nc & nt & nn & ne & -> & Hlen & Fr & Fc & Ft & Fn & Fe).
  unfold session_events. cbn [file_reads changes tests notes errors].
  rewrite (filter_new_rows r_session_id _ _ _ nr Hne),
          (filter_new_rows c_session_id _ _ _ nc Hne),
          (filter_new_rows t_session_id _ _ _ nt Hne),
          (filter_new_rows n_session_id _ _ _ nn Hne),
          (filter_new_rows e_session_id _ _ _ ne Hne); [reflexivity| | | | |].
  - eapply Forall_impl; [|exact Fe]. intros r H. apply H.
  - eapply Forall_impl; [|exact Fn]. intros r H. apply H.
  - eapply Forall_impl; [|exact Ft]. intros r H. apply H.
  - eapply Forall_impl; [|exact Fc]. intros r H. apply H.
  - eapply Forall_impl; [|exact Fr]. intros r H. apply H.
Qed.

(** X6, at a store with a session of /other: a test logged in /repo. *)
Lemma other_sessions_untouched_witness :
  let d := run (mkEnv "/other" 1 (fun _ => Missing)) empty_db (CmdNote "n" None) in
  session_events (run (mkEnv "/repo" 2 (fun _ => Missing)) d (CmdTest "make" "pass" None)) 1
  = session_events d 1.
Proof.
  cbv zeta.
  refine (other_sessions_untouched (mkEnv "/repo" 2 (fun _ => Missing))
            (run (mkEnv "/other" 1 (fun _ => Missing)) empty_db (CmdNote "n" None))
            (CmdTest "make" "pass" None)
            (mkSession 1 "/other" 1 1 "Session for other" "active") _ _ _).
  - simpl. repeat constructor. intros [].
  - left. reflexivity.
  - simpl. discriminate.
Defined.

(** ** Nothing is deleted or rewritten *)

Lemma get_current_session_identities (e : env) (d : db) :
  exists ns,
    map session_identity (sessions (fst (get_current_session e d)))
    = map session_identity (sessions d) ++ ns.
Proof.
  destruct (get_current_session_cases e d) as [(s & _ & ->) | (_ & ->)]; simpl.
  - exists []. rewrite app_nil_r, map_map. apply map_ext.
    intros x. unfold touch, session_identity. destruct (s_id x =? s_id s); reflexivity.
  - eexists. rewrite map_app. reflexivity.
Qed.

(** X7. The ledger only grows. After any sequence of commands every event
    table is the table as it was followed by new rows, and the sessions are
    the sessions as they were, with every column but last_active unchanged,
    followed by new sessions: no row is deleted or reordered, no event is
    rewritten, no session is closed or moved to another path. *)
Theorem ledger_only_grows (h : list (env * command)) (d : db) :
  let d' := run_all h d in
  (exists ns, map session_identity (sessions d') = map session_identity (sessions d) ++ ns)
  /\ (exists nr, file_reads d' = file_reads d ++ nr)
  /\ (exists nc, changes d' = changes d ++ nc)
  /\ (exists nt, tests d' = tests d ++ nt)
  /\ (exists nn, notes d' = notes d ++ nn)
  /\ (exists ne, errors d' = errors d ++ ne).
Proof.
  cbv zeta. unfold run_all. revert d.
  induction h as [|[e c] h IH]; intros d; simpl.
  - repeat split; exists []; now rewrite app_nil_r.
  - destruct (IH (run e d c)) as ((ns & Hs) & (nr & Hr) & (nc & Hc) & (nt & Ht)
                                  & (nn & Hn) & (ne & He)).
    rewrite Hs, Hr, Hc, Ht, Hn, He. clear Hs Hr Hc Ht Hn He IH.
    destruct (run_effect e d c) as (nr1 & nc1 & nt1 & nn1 & ne1 & -> & _).
    cbn [sessions file_reads changes tests notes errors].
    destruct (get_current_session_identities e d) as (ns1 & ->).
    rewrite <- !app_assoc. repeat split; eexists; reflexivity.
Qed.

(** ** Ids returned by the logging operations *)

(** X8. Every logging operation appends exactly one row to its table and
    returns the id of that row, which is larger than every id the table
    held. *)
Theorem logging_returns_new_id (e : env) (d : db) :
  (forall file_path context,
     let res := log_read e d file_path context in
     exists row, file_reads (fst res) = file_reads d ++ [row] /\ r_id row = snd res
       /\ forall r, In r (file_reads d) -> r_id r < snd res)
  /\ (forall file_path change_type description,
        let res := log_change e d file_path change_type description in
        exists row, changes (fst res) = changes d ++ [row] /\ c_id row = snd res
          /\ forall r, In r (changes d) -> c_id r < snd res)
  /\ (forall command result output,
        let res := log_test e d command result output in
        exists row, tests (fst res) = tests d ++ [row] /\ t_id row = snd res
          /\ forall r, In r (tests d) -> t_id r < snd res)
  /\ (forall content tags,
        let res := add_note e d content tags in
        exists row, notes (fst res) = notes d ++ [row] /\ n_id row = snd res
          /\ forall r, In r (notes d) -> n_id r < snd res)
  /\ (forall error_type error_message file_path context,
        let res := log_error e d error_type error_message file_path context in
        exists row, errors (fst res) = errors d ++ [row] /\ e_id row = snd res
          /\ forall r, In r (errors d) -> e_id r < snd res).
Proof.
  pose proof (get_current_session_tables e d) as Ht. cbv zeta in Ht.
  unfold log_read, log_change, log_test, add_note, log_error.
  destruct (get_current_session e d) as [d1 sid]. cbn [fst snd] in Ht.
  destruct Ht as (Hr & Hc & Hts & Hn & He). rewrite Hr, Hc, Hts, Hn, He.
  repeat split; intros; cbv zeta; cbn [fst snd file_reads changes tests notes errors];
    (eexists; split; [reflexivity|]; split; [reflexivity|]);
    intros r Hin; apply next_id_above; now apply in_map.
Qed.

(** ** Queries by kind *)

Lemma query_by_kind (e : env) (d : db) (k : string) (lim : Z) :
  In k ["reads"; "changes"; "tests"; "notes"; "errors"] ->
  snd (query_session e d (Some k) lim)
  = Sql.limit lim
      (Sql.order_by_desc row_time (rows_of_kind d (snd (get_current_session e d)) k)).
Proof.
  intros Hk. unfold query_session, rows_of_kind, select_recent.
  pose proof (get_current_session_tables e d) as Ht. cbv zeta in Ht.
  destruct (get_current_session e d) as [d1 sid]. cbn [fst snd] in Ht |- *.
  destruct Ht as (Hr & Hc & Hts & Hn & He). rewrite Hr, Hc, Hts, Hn, He.
  assert (forall (A : Type) (at_ : A -> Z) (f : A -> query_row) (l : list A),
            (forall r, row_time (f r) = at_ r) ->
            map f (Sql.limit lim (Sql.order_by_desc at_ l))
            = Sql.limit lim (Sql.order_by_desc row_time (map f l))) as Hmap.
  { intros A at_ f l Hf.
    assert (map f (Sql.order_by_desc at_ l) = Sql.order_by_desc row_time (map f l)) as <-.
    { induction l as [|a l IH]; simpl; [reflexivity|]. rewrite <- IH.
      generalize (Sql.order_by_desc at_ l). intros s.
      induction s as [|b s IHs]; simpl; [reflexivity|].
      rewrite !Hf. destruct (at_ b <=? at_ a); simpl; [reflexivity | now rewrite IHs]. }
    unfold Sql.limit. destruct (lim <? 0); [reflexivity | symmetry; apply firstn_map]. }
  simpl in Hk.
  destruct Hk as [<- | [<- | [<- | [<- | [<- | []]]]]]; cbn [is_kind String.eqb Ascii.eqb Bool.eqb];
    simpl; apply Hmap; reflexivity.
Qed.

(** X9. A query by kind returns the most recent rows of the session. For
    each of the five kinds and a limit that is a signed 64-bit integer (what
    SQLite can bind) the result holds only rows of the resolved session, comes in descending order of time stamp, has min(limit, number
    of rows) rows for a limit that is not negative and all rows for a
    negative one, and no row left out is more recent than a row returned. *)
Theorem query_returns_most_recent (e : env) (d : db) (k : string) (lim : Z) :
  In k ["reads"; "changes"; "tests"; "notes"; "errors"] ->
  Sql.integer lim ->
  let rows := rows_of_kind d (snd (get_current_session e d)) k in
  let res := snd (query_session e d (Some k) lim) in
  StronglySorted (fun a b => row_time b <= row_time a) res
  /\ (exists rest,
        Permutation (res ++ rest) rows
        /\ forall a b, In a res -> In b rest -> row_time b <= row_time a)
  /\ (0 <= lim -> List.length res = Nat.min (Z.to_nat lim) (List.length rows))
  /\ (lim < 0 -> List.length res = List.length rows).
Proof.
  intros Hk _. cbv zeta. rewrite (query_by_kind e d k lim Hk).
  set (rows := rows_of_kind d (snd (get_current_session e d)) k).
  set (sorted := Sql.order_by_desc row_time rows).
  pose proof (order_by_desc_sorted row_time rows) as Hs. fold sorted in Hs.
  pose proof (order_by_desc_perm row_time rows) as Hp. fold sorted in Hp.
  unfold Sql.limit. destruct (lim <? 0) eqn:Hneg.
  - apply Z.ltb_lt in Hneg. split; [exact Hs|]. split; [|split].
    + exists []. rewrite app_nil_r. split; [exact Hp | intros a b _ []].
    + lia.
    + intros _. now apply Permutation_length.
  - apply Z.ltb_ge in Hneg.
    pose proof (firstn_skipn (Z.to_nat lim) sorted) as Hsplit.
    rewrite <- Hsplit in Hs. apply sorted_split in Hs. destruct Hs as [Htop Hcross].
    split; [exact Htop|]. split; [|split].
    + exists (skipn (Z.to_nat lim) sorted). rewrite Hsplit. split; [exact Hp|].
      intros a b Ha Hb. exact (Hcross a b Ha Hb).
    + intros _. rewrite length_firstn. f_equal. now apply Permutation_length.
    + lia.
Qed.

(** X9, from the empty store: two tests, queried with limit 1. *)
Lemma query_returns_most_recent_witness :
  let d := run_all [(mkEnv "/repo" 1 (fun _ => Missing), CmdTest "make" "fail" None);
                    (mkEnv "/repo" 2 (fun _ => Missing), CmdTest "make" "pass" None)]
             empty_db in
  List.length (snd (query_session (mkEnv "/repo" 3 (fun _ => Missing)) d (Some "tests") 1))
  = Nat.min (Z.to_nat 1)
      (List.length
         (rows_of_kind d
            (snd (get_current_session (mkEnv "/repo" 3 (fun _ => Missing)) d)) "tests")).
Proof.
  cbv zeta.
  refine (proj1 (proj2 (proj2 (query_returns_most_recent
                                 (mkEnv "/repo" 3 (fun _ => Missing)) _ "tests" 1 _ _))) _).
  - right. right. left. reflexivity.
  - unfold Sql.integer. lia.
  - lia.
Defined.

Lemma insert_desc_last {A : Type} (key : A -> Z) (x : A) (l : list A) :
  (forall y, In y l -> key x < key y) -> Sql.insert_desc key x l = l ++ [x].
Proof.
  induction l as [|a l IH]; simpl; intros H; [reflexivity|].
  assert ((key a <=? key x) = false) as -> by (apply Z.leb_gt, H; now left).
  f_equal. apply IH. intros y Hy. apply H. now right.
Qed.

Lemma order_by_desc_increasing {A : Type} (key : A -> Z) (l : list A) :
  StronglySorted (fun a b => key a < key b) l -> Sql.order_by_desc key l = rev l.
Proof.
  induction 1 as [|x l Hl IH Hx]; simpl; [reflexivity|].
  rewrite IH. apply insert_desc_last. intros y Hy. apply in_rev in Hy.
  rewrite Forall_forall in Hx. now apply Hx.
Qed.

(** X10. Last logged, first returned. When the rows of the session were
    logged at strictly increasing time stamps, a query by kind with a limit
    that is a signed 64-bit integer (what SQLite can bind) returns them in
    the reverse of the order in which they were logged, cut at the limit. *)
Theorem query_reverses_logging_order (e : env) (d : db) (k : string) (lim : Z) :
  In k ["reads"; "changes"; "tests"; "notes"; "errors"] ->
  Sql.integer lim ->
  StronglySorted (fun a b => row_time a < row_time b)
    (rows_of_kind d (snd (get_current_session e d)) k) ->
  snd (query_session e d (Some k) lim)
  = Sql.limit lim (rev (rows_of_kind d (snd (get_current_session e d)) k)).
Proof.
  intros Hk _ Hs. rewrite (query_by_kind e d k lim Hk).
  now rewrite order_by_desc_increasing.
Qed.

(** X10, from the empty store: three notes at times 1, 2 and 3, limit 2. *)
Lemma query_reverses_logging_order_witness :
  let d := run_all [(mkEnv "/repo" 1 (fun _ => Missing), CmdNote "first" None);
                    (mkEnv "/repo" 2 (fun _ => Missing), CmdNote "second" None);
                    (mkEnv "/repo" 3 (fun _ => Missing), CmdNote "third" None)]
             empty_db in
  snd (query_session (mkEnv "/repo" 4 (fun _ => Missing)) d (Some "notes") 2)
  = [NoteRow "third" None 3; NoteRow "second" None 2].
Proof.
  cbv zeta.
  refine (query_reverses_logging_order (mkEnv "/repo" 4 (fun _ => Missing)) _ "notes" 2
            _ _ _).
  - right. right. right. left. reflexivity.
  - unfold Sql.integer. lia.
  - vm_compute. repeat constructor.
Defined.

(** ** Analytics *)

Lemma resolve_after_run (e1 e2 : env) (d : db) (c : command) :
  one_active_per_path d -> cwd e2 = cwd e1 ->
  snd (get_current_session e2 (run e1 d c)) = snd (get_current_session e1 d).
Proof.
  intros Hone Hcwd.
  destruct (resolved_active e1 d) as (s & Hin & Hid & Ha).
  rewrite <- Hid. apply resolve_unique.
  - intros p. rewrite run_sessions. now apply get_current_session_one_active.
  - now rewrite run_sessions.
  - now rewrite Hcwd.
Qed.

Lemma analytics_counts (e : env) (d : db) :
  counts (snd (get_session_analytics e d))
  = (let sid := snd (get_current_session e d) in
     (count_where r_session_id sid (file_reads d),
      count_where c_session_id sid (changes d),
      count_where t_session_id sid (tests d),
      count_where n_session_id sid (notes d),
      count_where e_session_id sid (errors d))).
Proof.
  unfold get_session_analytics, counts.
  pose proof (get_current_session_tables e d) as Ht. cbv zeta in Ht.
  destruct (get_current_session e d) as [d1 sid]. cbn [fst snd] in Ht |- *.
  destruct Ht as (Hr & Hc & Hts & Hn & He). now rewrite Hr, Hc, Hts, Hn, He.
Qed.

Lemma count_new_rows {A : Type} (session_of : A -> Z) (sid : Z) (l new : list A) :
  Forall (fun r => session_of r = sid) new ->
  count_where session_of sid (l ++ new)
  = (count_where session_of sid l + List.length new)%nat.
Proof.
  intros Hnew. unfold count_where. rewrite filter_app, length_app. f_equal.
  rewrite filter_all; [reflexivity|].
  rewrite Forall_forall in Hnew. intros x Hx. rewrite (Hnew x Hx). apply Z.eqb_refl.
Qed.

Lemma run_logged (e : env) (d : db) (c : command) :
  let sid := snd (get_current_session e d) in
  let d' := run e d c in
  (count_where r_session_id sid (file_reads d'),
   count_where c_session_id sid (changes d'),
   count_where t_session_id sid (tests d'),
   count_where n_session_id sid (notes d'),
   count_where e_session_id sid (errors d'))
  = add_counts
      (count_where r_session_id sid (file_reads d),
       count_where c_session_id sid (changes d),
       count_where t_session_id sid (tests d),
       count_where n_session_id sid (notes d),
       count_where e_session_id sid (errors d))
      (logged c).
Proof.
  cbv zeta.
  pose proof (get_current_session_tables e d) as Ht. cbv zeta in Ht.
  destruct c; unfold run, log_read, log_change, log_test, add_note, log_error,
    query_session, get_session_analytics;
    destruct (get_current_session e d) as [d1 sid]; cbn [fst snd] in Ht |- *;
    destruct Ht as (Hr & Hc & Hts & Hn & He);
    cbn [file_reads changes tests notes errors logged add_counts];
    rewrite ?Hr, ?Hc, ?Hts, ?Hn, ?He, ?Nat.add_0_r;
    try reflexivity;
    rewrite count_new_rows by (repeat constructor); reflexivity.
Qed.

(** X11. Each logged event counts once. On a store with at most one active
    session per path, the five analytics counts taken after a command (in
    the same directory) are the counts taken before it plus one for the
    kind of event the command logged: read, change, test, note or error;
    init, query and analytics log nothing. *)
Theorem analytics_count_logged (e1 e2 : env) (d : db) (c : command) :
  one_active_per_path d ->
  cwd e2 = cwd e1 ->
  counts (snd (get_session_analytics e2 (run e1 d c)))
  = add_counts (counts (snd (get_session_analytics e1 d))) (logged c).
Proof.
  intros Hone Hcwd. rewrite !analytics_counts. cbv zeta.
  rewrite (resolve_after_run e1 e2 d c Hone Hcwd). apply run_logged.
Qed.

(** X11, from the empty store: one error logged in /repo. *)
Lemma analytics_count_logged_witness :
  counts (snd (get_session_analytics (mkEnv "/repo" 2 (fun _ => Missing))
                 (run (mkEnv "/repo" 1 (fun _ => Missing)) empty_db
                    (CmdError "ValueError" "bad" None None))))
  = (0, 0, 0, 0, 1)%nat.
Proof.
  refine (analytics_count_logged (mkEnv "/repo" 1 (fun _ => Missing))
            (mkEnv "/repo" 2 (fun _ => Missing)) empty_db
            (CmdError "ValueError" "bad" None None) _ eq_refl).
  intros p. simpl. lia.
Defined.

Lemma find_skip {A : Type} (f : A -> bool) (l l' : list A) :
  (forall x, In x l -> f x = false) -> find f (l ++ l') = find f l'.
Proof.
  induction l as [|a l IH]; simpl; intros H; [reflexivity|].
  rewrite (H a) by auto. apply IH. auto.
Qed.

(** X12. Analytics in a directory that has no session yet. When no active
    session exists for the working directory and every event of the store
    belongs to one of its sessions, the analytics report a duration of 0
    minutes, five counts of 0, no test_success_rate and an empty file_types
    histogram. *)
Theorem analytics_of_new_session (e : env) (d : db) :
  refers_to_sessions d ->
  (forall s, In s (sessions d) -> active_for (cwd e) s = false) ->
  snd (get_session_analytics e d) = mkAnalytics (Some 0) 0 0 0 0 0 None [].
Proof.
  intros (Fr & Fc & Ft & Fn & Fe) Hnone.
  destruct (get_current_session_cases e d) as [(s & Hs & _) | (_ & Hq)].
  { destruct Hs as (Hin & Hp & Hst & _).
    assert (active_for (cwd e) s = true) as Ha by (apply active_for_spec; auto).
    rewrite (Hnone s Hin) in Ha. discriminate. }
  unfold get_session_analytics, touched_paths, count_where. rewrite Hq.
  cbn [sessions file_reads changes tests notes errors with_sessions snd].
  set (sid := next_id (map s_id (sessions d))).
  assert (forall (A : Type) (session_of : A -> Z) (l : list A),
            (forall r, In r l -> In (session_of r) (map s_id (sessions d))) ->
            filter (fun r => session_of r =? sid) l = []) as Hempty.
  { intros A session_of l Hl. apply filter_none. intros r Hr.
    apply Z.eqb_neq. specialize (Hl r Hr). apply next_id_above in Hl. fold sid in Hl. lia. }
  rewrite (Hempty _ r_session_id _ Fr), (Hempty _ c_session_id _ Fc),
          (Hempty _ t_session_id _ Ft), (Hempty _ n_session_id _ Fn),
          (Hempty _ e_session_id _ Fe).
  rewrite find_skip.
  2:{ intros s Hs. apply Z.eqb_neq.
      assert (s_id s < sid) by (apply next_id_above, in_map, Hs). lia. }
  cbn [find s_id]. rewrite Z.eqb_refl. cbn [s_last_active s_started_at].
  rewrite Z.sub_diag. reflexivity.
Qed.

(** X12, at the empty store. *)
Lemma analytics_of_new_session_witness :
  snd (get_session_analytics (mkEnv "/repo" 1 (fun _ => Missing)) empty_db)
  = mkAnalytics (Some 0) 0 0 0 0 0 None [].
Proof.
  refine (analytics_of_new_session (mkEnv "/repo" 1 (fun _ => Missing)) empty_db _ _).
  - unfold refers_to_sessions. simpl. repeat split; intros; contradiction.
  - intros s [].
Defined.

(** X13. The analytics call is itself an activity. The duration is never
    absent: it is the number of whole minutes from the start of the
    resolved session to the clock reading of the analytics call, because
    resolving the session has just set its last_active to that reading. *)
Theorem analytics_duration (e : env) (d : db) :
  exists s,
    In s (sessions (fst (get_session_analytics e d)))
    /\ s_id s = snd (get_current_session e d)
    /\ s_last_active s = now e
    /\ duration_minutes (snd (get_session_analytics e d))
       = Some (Z.quot (now e - s_started_at s) 60).
Proof.
  unfold get_session_analytics.
  destruct (resolved_active e d) as (s0 & Hin0 & Hid0 & _).
  pose proof (get_current_session_cases e d) as Hcases.
  destruct (get_current_session e d) as [d1 sid] eqn:Hg. cbn [fst snd] in *.
  destruct (find (fun s => s_id s =? sid) (sessions d1)) as [s|] eqn:Hf.
  - apply find_some in Hf. destruct Hf as [Hin Hid]. apply Z.eqb_eq in Hid.
    assert (s_last_active s = now e) as Hla.
    { destruct Hcases as [(s1 & _ & Heq) | (_ & Heq)]; injection Heq as -> ->;
        simpl in Hin.
      - apply in_map_iff in Hin. destruct Hin as (z & <- & _).
        rewrite touch_id in Hid. unfold touch. apply Z.eqb_eq in Hid. now rewrite Hid.
      - apply in_app_or in Hin. destruct Hin as [Hin | [<- | []]]; [|reflexivity].
        assert (s_id s < next_id (map s_id (sessions d)))
          by (apply next_id_above, in_map, Hin).
        lia. }
    exists s. cbn [duration_minutes]. rewrite Hla. auto.
  - exfalso. apply (find_none _ _ Hf) in Hin0. apply Z.eqb_neq in Hin0. contradiction.
Qed.

(** ** A change after a read *)

Lemma log_read_effect (e : env) (d : db) (file_path : string) (context : option string) :
  let d' := fst (log_read e d file_path context) in
  sessions d' = sessions (fst (get_current_session e d))
  /\ exists id ctx,
       file_reads d'
       = file_reads d
         ++ [mkFileRead id (snd (get_current_session e d)) (Path.abspath (cwd e) file_path)
               (file_hash (fs e) (Path.abspath (cwd e) file_path)) (now e) ctx].
Proof.
  cbv zeta. unfold log_read.
  pose proof (get_current_session_tables e d) as Ht. cbv zeta in Ht.
  destruct (get_current_session e d) as [d1 sid]. cbn [fst snd] in Ht |- *.
  destruct Ht as (Hr & _). rewrite Hr. cbn [sessions file_reads].
  split; [reflexivity|]. do 2 eexists. reflexivity.
Qed.

(** X14. The before-digest is what the last read saw. On a store with at
    most one active session per path: after a read of a file, logged later
    than every earlier read of that file in the session, a change of kind
    modify or delete of the same file (same directory, any later state of
    the disk) records as before-digest the digest the read computed, and as
    after-digest the digest of the file at the time of the change (null for
    delete). The before-digest is not compared with the disk. *)
Theorem change_after_read (e1 e2 : env) (d : db) (file_path kind : string)
    (context description : option string) :
  one_active_per_path d ->
  cwd e2 = cwd e1 ->
  (forall r, In r (file_reads d) ->
     r_session_id r = snd (get_current_session e1 d) ->
     r_file_path r = Path.abspath (cwd e1) file_path ->
     r_read_at r < now e1) ->
  kind = "modify" \/ kind = "delete" ->
  let d1 := fst (log_read e1 d file_path context) in
  exists row,
    changes (fst (log_change e2 d1 file_path kind description)) = changes d ++ [row]
    /\ c_before_hash row = file_hash (fs e1) (Path.abspath (cwd e1) file_path)
    /\ c_after_hash row
       = if String.eqb kind "modify"
         then file_hash (fs e2) (Path.abspath (cwd e1) file_path) else None.
Proof.
  intros Hone Hcwd Hold Hkind. cbv zeta.
  destruct (log_read_effect e1 d file_path context) as (Hs & id & ctx & Hreads).
  assert (changes (fst (log_read e1 d file_path context)) = changes d) as Hch.
  { destruct (run_effect e1 d (CmdRead file_path context))
      as (nr & nc & nt & nn & ne & Hrun & Hlen & _).
    unfold run in Hrun. rewrite Hrun in Hreads |- *. cbn [file_reads changes] in *.
    apply app_inv_head in Hreads. subst nr. simpl in Hlen.
    destruct nc; [now rewrite app_nil_r | simpl in Hlen; lia]. }
  set (d1 := fst (log_read e1 d file_path context)) in *.
  set (sid := snd (get_current_session e1 d)) in *.
  set (path := Path.abspath (cwd e1) file_path) in *.
  assert (snd (get_current_session e2 d1) = sid) as Hsid
    by (apply (resolve_after_run e1 e2 d (CmdRead file_path context)); assumption).
  unfold log_change.
  pose proof (get_current_session_tables e2 d1) as Ht. cbv zeta in Ht.
  destruct (get_current_session e2 d1) as [d2 sid2]. cbn [fst snd] in Ht, Hsid |- *.
  destruct Ht as (Hr2 & Hc2 & _). subst sid2. rewrite Hcwd. fold path.
  eexists. cbn [changes]. rewrite Hc2, Hch. split; [reflexivity|].
  cbn [c_before_hash c_after_hash].
  assert (str_in kind ["modify"; "delete"] = true) as ->
    by (destruct Hkind as [-> | ->]; reflexivity).
  assert (str_in kind ["create"; "modify"] = String.eqb kind "modify") as ->
    by (destruct Hkind as [-> | ->]; reflexivity).
  split; [|reflexivity].
  pose proof (latest_read_spec d2 sid path) as Hl.
  destruct Hl as [(r & (Hin & Hrs & Hrp & Hmax) & ->) | (Hnever & _)].
  - rewrite Hr2, Hreads in Hin, Hmax.
    assert (In (mkFileRead id sid path (file_hash (fs e1) path) (now e1) ctx)
              (file_reads d ++
               [mkFileRead id sid path (file_hash (fs e1) path) (now e1) ctx])) as Hnew
      by (apply in_or_app; right; now left).
    specialize (Hmax _ Hnew eq_refl eq_refl). simpl in Hmax.
    apply in_app_or in Hin. destruct Hin as [Hin | [<- | []]]; [|reflexivity].
    specialize (Hold r Hin Hrs Hrp). lia.
  - exfalso. apply (Hnever (mkFileRead id sid path (file_hash (fs e1) path) (now e1) ctx)).
    + rewrite Hr2, Hreads. apply in_or_app. right. now left.
    + split; reflexivity.
Qed.

(** X14, from the empty store: main.py is read while it holds x=1 and
    modified after it was rewritten to x=2. *)
Lemma change_after_read_witness :
  let fs1 : filesystem :=
    fun p => if String.eqb p "/repo/main.py" then File (bytes_of "x=1") else Missing in
  let fs2 : filesystem :=
    fun p => if String.eqb p "/repo/main.py" then File (bytes_of "x=2") else Missing in
  let d1 := fst (log_read (mkEnv "/repo" 1 fs1) empty_db "main.py" None) in
  exists row,
    changes (fst (log_change (mkEnv "/repo" 2 fs2) d1 "main.py" "modify" None)) = [row]
    /\ c_before_hash row = file_hash fs1 "/repo/main.py"
    /\ c_after_hash row = file_hash fs2 "/repo/main.py".
Proof.
  cbv zeta.
  refine (change_after_read
            (mkEnv "/repo" 1
               (fun p => if String.eqb p "/repo/main.py" then File (bytes_of "x=1")
                         else Missing))
            (mkEnv "/repo" 2
               (fun p => if String.eqb p "/repo/main.py" then File (bytes_of "x=2")
                         else Missing))
            empty_db "main.py" "modify" None None _ eq_refl _ _).
  - intros p. simpl. lia.
  - intros r [].
  - left. reflexivity.
Defined.

(** ** More on context inference *)

(** X15. Only the first ten lines count. Two readable files at the same
    path whose texts agree up to and including the tenth newline get the
    same context. *)
Theorem infer_context_first_ten_lines (fs1 fs2 : filesystem) (p t1 t2 : string) :
  read_text fs1 (Path.to_str p) = Ok t1 ->
  read_text fs2 (Path.to_str p) = Ok t2 ->
  take_lines t1 10 = take_lines t2 10 ->
  infer_context fs1 p = infer_context fs2 p.
Proof.
  intros H1 H2 Heq. unfold infer_context.
  destruct (special_match (Py.lower (Path.name p))); [reflexivity|].
  destruct (dict_get (Py.lower (Path.suffix p)) contexts).
  - now rewrite H1, H2, Heq.
  - unfold Path.is_dir. unfold read_text, read_bytes in H1, H2.
    destruct (fs1 (Path.to_str p)); try discriminate.
    destruct (fs2 (Path.to_str p)); try discriminate. reflexivity.
Qed.

(** X15, at a file of eleven lines whose last line is changed from
    "class A:" to "import os". *)
Lemma infer_context_first_ten_lines_witness :
  let nl := String LF EmptyString in
  let ten := (nl ++ nl ++ nl ++ nl ++ nl ++ nl ++ nl ++ nl ++ nl ++ nl)%string in
  let file := fun text : string =>
    (fun p => if String.eqb p "/repo/m.py" then File (bytes_of text) else Missing)
    : filesystem in
  infer_context (file (ten ++ "class A:")%string) "/repo/m.py"
  = infer_context (file (ten ++ "import os")%string) "/repo/m.py".
Proof.
  cbv zeta.
  set (ten := (String LF EmptyString ++ String LF EmptyString ++ String LF EmptyString
               ++ String LF EmptyString ++ String LF EmptyString ++ String LF EmptyString
               ++ String LF EmptyString ++ String LF EmptyString ++ String LF EmptyString
               ++ String LF EmptyString)%string).
  apply (infer_context_first_ten_lines _ _ "/repo/m.py"
           (ten ++ "class A:")%string (ten ++ "import os")%string);
    vm_compute; reflexivity.
Defined.

(** X16. A name with "config" is a special file. When the lowercase file
    name contains "config", the context is one of the fixed descriptions of
    the special file names, whatever the extension and the content: the
    refinement to "<ext> configuration" is reached through "setting" only. *)
Theorem infer_context_config (fs : filesystem) (p : string) :
  Py.contains "config" (Py.lower (Path.name p)) = true ->
  In (infer_context fs p) (map snd special_files)
  /\ (Py.contains "package.json" (Py.lower (Path.name p)) = false ->
      Py.contains "requirements.txt" (Py.lower (Path.name p)) = false ->
      Py.contains "cargo.toml" (Py.lower (Path.name p)) = false ->
      Py.contains "dockerfile" (Py.lower (Path.name p)) = false ->
      Py.contains "makefile" (Py.lower (Path.name p)) = false ->
      Py.contains "readme" (Py.lower (Path.name p)) = false ->
      Py.contains "changelog" (Py.lower (Path.name p)) = false ->
      Py.contains "license" (Py.lower (Path.name p)) = false ->
      Py.contains ".gitignore" (Py.lower (Path.name p)) = false ->
      Py.contains ".env" (Py.lower (Path.name p)) = false ->
      infer_context fs p = "Examining configuration file").
Proof.
  intros Hc. unfold infer_context, special_match.
  set (name := Py.lower (Path.name p)) in *.
  destruct (find (fun kv => Py.contains (fst kv) name) special_files) as [kv|] eqn:Hf.
  - split.
    + apply find_some in Hf. apply in_map. apply Hf.
    + intros H1 H2 H3 H4 H5 H6 H7 H8 H9 H10. simpl in Hf.
      rewrite H1, H2, H3, H4, H5, H6, H7, H8, H9, H10, Hc in Hf.
      injection Hf as <-. reflexivity.
  - exfalso.
    assert (Py.contains (fst ("config", "Examining configuration file")) name = false) as Hn.
    { apply (find_none _ _ Hf). simpl. tauto. }
    simpl fst in Hn. rewrite Hc in Hn. discriminate.
Qed.

(** X16, at the unreadable file /repo/app_config.py. *)
Lemma infer_context_config_witness :
  infer_context (fun _ => Missing) "/repo/app_config.py" = "Examining configuration file".
Proof.
  refine (proj2 (infer_context_config (fun _ => Missing) "/repo/app_config.py" eq_refl)
            eq_refl eq_refl eq_refl eq_refl eq_refl eq_refl eq_refl eq_refl eq_refl eq_refl).
Defined.

(** ** What [json.dumps] writes *)

Lemma string_forall_app (f : ascii -> bool) (a b : string) :
  string_forall f (a ++ b) = string_forall f a && string_forall f b.
Proof.
  induction a as [|c a IH]; simpl; [reflexivity|]. now rewrite IH, andb_assoc.
Qed.






(** ** The characters of a digest *)

Lemma hex_digit_is_hex (x : Z) :
  0 <= x < 16 -> is_hex_digit (MD5.hex_digit x) = true.
Proof.
  intros H.
  assert (x = 0 \/ x = 1 \/ x = 2 \/ x = 3 \/ x = 4 \/ x = 5 \/ x = 6 \/ x = 7
          \/ x = 8 \/ x = 9 \/ x = 10 \/ x = 11 \/ x = 12 \/ x = 13 \/ x = 14 \/ x = 15)
    as Hx by lia.
  repeat (destruct Hx as [-> | Hx]; [reflexivity|]). subst x. reflexivity.
Qed.

Lemma hex_byte_is_hex (x : Z) :
  0 <= x < 256 -> string_forall is_hex_digit (MD5.hex_byte x) = true.
Proof.
  intros H. unfold MD5.hex_byte. simpl.
  rewrite !hex_digit_is_hex; [reflexivity | |].
  - change 15 with (Z.ones 4). rewrite Z.land_ones by lia.
    apply Z.mod_pos_bound. lia.
  - rewrite Z.shiftr_div_pow2 by lia. change (2 ^ 4) with 16.
    split; [apply Z.div_pos; lia | apply Z.div_lt_upper_bound; lia].
Qed.

Lemma le_bytes_range (n : nat) (x : Z) :
  Forall (fun b => 0 <= b < 256) (MD5.le_bytes n x).
Proof.
  unfold MD5.le_bytes. apply Forall_forall. intros b Hb.
  apply in_map_iff in Hb. destruct Hb as (i & <- & _).
  change 255 with (Z.ones 8). rewrite Z.land_ones by lia.
  apply Z.mod_pos_bound. lia.
Qed.

Lemma concat_hex_is_hex (l : list Z) :
  Forall (fun b => 0 <= b < 256) l ->
  string_forall is_hex_digit (String.concat "" (map MD5.hex_byte l)) = true.
Proof.
  induction l as [|a [|b t] IH]; intros H.
  - reflexivity.
  - inversion H; subst. simpl String.concat. now apply hex_byte_is_hex.
  - inversion H as [|? ? Ha Ht]; subst.
    change (String.concat "" (map MD5.hex_byte (a :: b :: t)))
      with (MD5.hex_byte a ++ "" ++ String.concat "" (map MD5.hex_byte (b :: t)))%string.
    rewrite !string_forall_app, hex_byte_is_hex, IH by assumption. reflexivity.
Qed.

(** X18. A digest is 32 lowercase hexadecimal digits. Whatever the file
    holds, a digest that [file_hash] returns has 32 characters, each one of
    0-9 or a-f. *)
Theorem file_hash_is_hex (fs : filesystem) (p h : string) :
  file_hash fs p = Some h ->
  String.length h = 32%nat /\ string_forall is_hex_digit h = true.
Proof.
  unfold file_hash. destruct (read_bytes fs p) as [content|]; [|discriminate].
  intros H. injection H as <-. split; [apply hexdigest_length|].
  unfold MD5.hexdigest. apply concat_hex_is_hex.
  unfold MD5.digest. cbv zeta. repeat (apply Forall_app; split); apply le_bytes_range.
Qed.

(** X18, at a file that holds the bytes of x=1. *)
Lemma file_hash_is_hex_witness :
  String.length "a255512f9d61a6777bd5a304235bd26d" = 32%nat
  /\ string_forall is_hex_digit "a255512f9d61a6777bd5a304235bd26d" = true.
Proof.
  refine (file_hash_is_hex (fun _ => File (bytes_of "x=1")) "/repo/main.py" _ _).
  vm_compute. reflexivity.
Defined.

(** ** Stored paths *)

Lemma startswith_slash_app (a b : string) :
  Py.startswith "/" a = true -> Py.startswith "/" (a ++ b) = true.
Proof. destruct a as [|c a]; simpl; [discriminate | trivial]. Qed.

Lemma abspath_absolute (cwd p : string) :
  Py.startswith "/" cwd = true -> Py.startswith "/" (Path.abspath cwd p) = true.
Proof.
  intros Hcwd. unfold Path.abspath.
  set (q := if Path.isabs p then p else Path.join cwd p).
  assert (Py.startswith "/" q = true) as Hq.
  { unfold q, Path.isabs, Path.join. destruct (Py.startswith "/" p) eqn:Hp; [exact Hp|].
    destruct (String.eqb cwd "" || Py.endswith "/" cwd); now apply startswith_slash_app. }
  unfold Path.normpath.
  destruct (String.eqb q "") eqn:Hempty.
  { apply String.eqb_eq in Hempty. rewrite Hempty in Hq. discriminate. }
  unfold Path.initial_slashes. rewrite Hq.
  destruct (Py.startswith "//" q && negb (Py.startswith "///" q)); simpl; reflexivity.
Qed.

(** X19. Stored paths are absolute. When the working directory is an
    absolute path, the file path in the row written by [log_read] and by
    [log_change] starts with a slash, and the one written by [log_error] is
    null when no file or an empty file name was given and starts with a
    slash otherwise. *)
Theorem stored_paths_absolute (e : env) (d : db) :
  Py.startswith "/" (cwd e) = true ->
  (forall file_path context,
     exists row,
       file_reads (fst (log_read e d file_path context)) = file_reads d ++ [row]
       /\ Py.startswith "/" (r_file_path row) = true)
  /\ (forall file_path change_type description,
        exists row,
          changes (fst (log_change e d file_path change_type description))
          = changes d ++ [row]
          /\ Py.startswith "/" (c_file_path row) = true)
  /\ (forall error_type error_message file_path context,
        exists row,
          errors (fst (log_error e d error_type error_message file_path context))
          = errors d ++ [row]
          /\ match file_path with
             | None => e_file_path row = None
             | Some p =>
                 if String.eqb p "" then e_file_path row = None
                 else exists q, e_file_path row = Some q /\ Py.startswith "/" q = true
             end).
Proof.
  intros Hcwd.
  pose proof (get_current_session_tables e d) as Ht. cbv zeta in Ht.
  unfold log_read, log_change, log_error.
  destruct (get_current_session e d) as [d1 sid]. cbn [fst snd] in Ht.
  destruct Ht as (Hr & Hc & _ & _ & He). rewrite Hr, Hc, He.
  split; [|split].
  - intros file_path context. eexists. cbn [fst file_reads]. split; [reflexivity|].
    cbn [r_file_path]. now apply abspath_absolute.
  - intros file_path change_type description. eexists. cbn [fst changes].
    split; [reflexivity|]. cbn [c_file_path]. now apply abspath_absolute.
  - intros error_type error_message file_path context. eexists. cbn [fst errors].
    split; [reflexivity|]. cbn [e_file_path]. unfold error_path.
    destruct file_path as [p|]; [|reflexivity].
    destruct (String.eqb p ""); [reflexivity|].
    eexists. split; [reflexivity|]. now apply abspath_absolute.
Qed.

(** X19, in /repo: an error logged for ../lib/x.py. *)
Lemma stored_paths_absolute_witness :
  exists row,
    errors (fst (log_error (mkEnv "/repo" 1 (fun _ => Missing)) empty_db
                   "ImportError" "no module" (Some "../lib/x.py") None)) = [row]
    /\ exists q, e_file_path row = Some q /\ Py.startswith "/" q = true.
Proof.
  exact (proj2 (proj2 (stored_paths_absolute (mkEnv "/repo" 1 (fun _ => Missing))
                         empty_db eq_refl))
           "ImportError" "no module" (Some "../lib/x.py") None).
Defined.

(** ** Export *)

Lemma query_session_store (e : env) (d : db) (query_type : option string) (lim : Z) :
  fst (query_session e d query_type lim) = fst (get_current_session e d).
Proof.
  unfold query_session. destruct (get_current_session e d). reflexivity.
Qed.

Lemma rows_of_kind_tables (d d' : db) (sid : Z) (k : string) :
  file_reads d' = file_reads d -> changes d' = changes d -> tests d' = tests d ->
  notes d' = notes d -> errors d' = errors d ->
  rows_of_kind d' sid k = rows_of_kind d sid k.
Proof. intros H1 H2 H3 H4 H5. unfold rows_of_kind. now rewrite H1, H2, H3, H4, H5. Qed.

(** One query of [export_session]: it runs on a store that differs from [d]
    in its sessions only, and leaves such a store. *)
Lemma export_step (e' e : env) (d d' : db) (k : string) :
  In k ["reads"; "changes"; "tests"; "notes"; "errors"] ->
  one_active_per_path d' ->
  (exists s, In s (sessions d') /\ s_id s = snd (get_current_session e d)
             /\ active_for (cwd e) s = true) ->
  cwd e' = cwd e ->
  file_reads d' = file_reads d /\ changes d' = changes d /\ tests d' = tests d
  /\ notes d' = notes d /\ errors d' = errors d ->
  let d'' := fst (query_session e' d' (Some k) 1000) in
  snd (query_session e' d' (Some k) 1000)
  = Sql.limit 1000
      (Sql.order_by_desc row_time (rows_of_kind d (snd (get_current_session e d)) k))
  /\ one_active_per_path d''
  /\ (exists s, In s (sessions d'') /\ s_id s = snd (get_current_session e d)
                /\ active_for (cwd e) s = true)
  /\ (file_reads d'' = file_reads d /\ changes d'' = changes d /\ tests d'' = tests d
      /\ notes d'' = notes d /\ errors d'' = errors d).
Proof.
  intros Hk Hone (s & Hin & Hid & Ha) Hcwd (H1 & H2 & H3 & H4 & H5). cbv zeta.
  assert (snd (get_current_session e' d') = snd (get_current_session e d)) as Hsid.
  { rewrite <- Hid. apply resolve_unique; auto. now rewrite Hcwd. }
  rewrite query_session_store.
  split; [|split; [|split]].
  - rewrite (query_by_kind e' d' k 1000 Hk), Hsid.
    now rewrite (rows_of_kind_tables d d' _ k H1 H2 H3 H4 H5).
  - now apply get_current_session_one_active.
  - destruct (active_kept e' d' (cwd e) s Hin Ha) as (s' & Hin' & Hid' & Ha').
    exists s'. repeat split; auto. congruence.
  - pose proof (get_current_session_tables e' d') as Ht. cbv zeta in Ht.
    destruct Ht as (T1 & T2 & T3 & T4 & T5). repeat split; congruence.
Qed.

(** X20. An export lists one session. On a store with at most one active
    session per path, when the six resolutions of [export_session] happen in
    the same directory (at any clock readings), the five lists of the export
    are the up to 1000 most recent reads, changes, tests, notes and errors
    of the session whose id the export carries, as the store held them, and
    the export changes no event table. *)
Theorem export_lists_one_session (e0 e1 e2 e3 e4 e5 : env) (d : db) :
  one_active_per_path d ->
  cwd e1 = cwd e0 -> cwd e2 = cwd e0 -> cwd e3 = cwd e0 ->
  cwd e4 = cwd e0 -> cwd e5 = cwd e0 ->
  let x := snd (export_session e0 e1 e2 e3 e4 e5 d) in
  let d' := fst (export_session e0 e1 e2 e3 e4 e5 d) in
  let recent := fun k =>
    Sql.limit 1000 (Sql.order_by_desc row_time (rows_of_kind d (x_session_id x) k)) in
  x_session_id x = snd (get_current_session e0 d)
  /\ x_reads x = recent "reads"
  /\ x_changes x = recent "changes"
  /\ x_tests x = recent "tests"
  /\ x_notes x = recent "notes"
  /\ x_errors x = recent "errors"
  /\ (file_reads d' = file_reads d /\ changes d' = changes d /\ tests d' = tests d
      /\ notes d' = notes d /\ errors d' = errors d).
Proof.
  intros Hone H1 H2 H3 H4 H5. cbv zeta.
  pose proof (get_current_session_one_active e0 d Hone) as Hone0.
  pose proof (resolved_active e0 d) as Hact0.
  pose proof (get_current_session_tables e0 d) as Ht0. cbv zeta in Ht0.
  unfold export_session.
  destruct (get_current_session e0 d) as [d0 sid] eqn:Hg. cbn [fst snd] in *.
  assert (sid = snd (get_current_session e0 d)) as Hsid by now rewrite Hg.
  rewrite Hsid in Hact0.
  destruct (export_step e1 e0 d d0 "reads") as (R1 & O1 & A1 & T1); auto;
    [simpl; tauto|].
  destruct (query_session e1 d0 (Some "reads") 1000) as [d1 reads]. cbn [fst snd] in *.
  destruct (export_step e2 e0 d d1 "changes") as (R2 & O2 & A2 & T2); auto;
    [simpl; tauto|].
  destruct (query_session e2 d1 (Some "changes") 1000) as [d2 chs]. cbn [fst snd] in *.
  destruct (export_step e3 e0 d d2 "tests") as (R3 & O3 & A3 & T3); auto;
    [simpl; tauto|].
  destruct (query_session e3 d2 (Some "tests") 1000) as [d3 tsts]. cbn [fst snd] in *.
  destruct (export_step e4 e0 d d3 "notes") as (R4 & O4 & A4 & T4); auto;
    [simpl; tauto|].
  destruct (query_session e4 d3 (Some "notes") 1000) as [d4 nts]. cbn [fst snd] in *.
  destruct (export_step e5 e0 d d4 "errors") as (R5 & O5 & A5 & T5); auto;
    [simpl; tauto|].
  destruct (query_session e5 d4 (Some "errors") 1000) as [d5 errs]. cbn [fst snd] in *.
  cbn [x_session_id x_reads x_changes x_tests x_notes x_errors].
  clear Hsid. rewrite Hg in R1, R2, R3, R4, R5. cbn [snd] in R1, R2, R3, R4, R5.
  repeat split; try assumption; apply T5.
Qed.

(** X20, from a store with two notes in /repo and a test in /other. *)
Lemma export_lists_one_session_witness :
  let e := fun t => mkEnv "/repo" t (fun _ => Missing) in
  let d := run_all [(e 1, CmdNote "first" None);
                    (mkEnv "/other" 2 (fun _ => Missing), CmdTest "make" "pass" None);
                    (e 3, CmdNote "second" None)] empty_db in
  x_notes (snd (export_session (e 4) (e 5) (e 6) (e 7) (e 8) (e 9) d))
  = [NoteRow "second" None 3; NoteRow "first" None 1].
Proof.
  cbv zeta.
  refine (proj1 (proj2 (proj2 (proj2 (proj2
            (export_lists_one_session
               (mkEnv "/repo" 4 (fun _ => Missing)) (mkEnv "/repo" 5 (fun _ => Missing))
               (mkEnv "/repo" 6 (fun _ => Missing)) (mkEnv "/repo" 7 (fun _ => Missing))
               (mkEnv "/repo" 8 (fun _ => Missing)) (mkEnv "/repo" 9 (fun _ => Missing))
               _ _ eq_refl eq_refl eq_refl eq_refl eq_refl)))))).
  apply run_all_preserves.
  - intros e d' c H q. rewrite run_sessions. now apply get_current_session_one_active.
  - intros q. simpl. lia.
Defined.

(** ** Line endings *)

Lemma universal_newlines_crlf (s : string) :
  string_forall (fun c => negb (Ascii.eqb c CR)) s = true ->
  universal_newlines (crlf s) = s /\ universal_newlines s = s.
Proof.
  induction s as [|c s IH]; simpl; intros H; [split; reflexivity|].
  apply andb_true_iff in H. destruct H as [Hc Hs]. destruct (IH Hs) as [IH1 IH2].
  apply negb_true_iff in Hc. rewrite Hc.
  destruct (Ascii.eqb c LF) eqn:Hlf.
  - apply Ascii.eqb_eq in Hlf. subst c. simpl. rewrite IH1, IH2. split; reflexivity.
  - simpl. rewrite Hc, IH1, IH2. split; reflexivity.
Qed.

(** X21. Line endings do not matter. A file written with carriage return,
    newline line ends gets the same context as the same text written with
    newline line ends. *)
Theorem infer_context_line_endings (fs1 fs2 : filesystem) (p text : string) :
  string_forall (fun c => negb (Ascii.eqb c CR)) text = true ->
  fs1 (Path.to_str p) = File (bytes_of (crlf text)) ->
  fs2 (Path.to_str p) = File (bytes_of text) ->
  infer_context fs1 p = infer_context fs2 p.
Proof.
  intros Hcr H1 H2. destruct (universal_newlines_crlf text Hcr) as [U1 U2].
  unfold infer_context, Path.is_dir, read_text, read_bytes. rewrite H1, H2.
  unfold bytes_of. rewrite !string_of_list_byte_of_string, U1, U2. reflexivity.
Qed.

(** X21, at a Python file of two lines. *)
Lemma infer_context_line_endings_witness :
  let text := ("import os" ++ String LF ("class A:" ++ String LF EmptyString))%string in
  infer_context (fun _ => File (bytes_of (crlf text))) "/repo/m.py"
  = infer_context (fun _ => File (bytes_of text)) "/repo/m.py".
Proof.
  cbv zeta.
  apply (infer_context_line_endings _ _ "/repo/m.py"
           ("import os" ++ String LF ("class A:" ++ String LF EmptyString))%string);
    reflexivity.
Defined.

(** ** Reading back what was logged *)

Lemma run_logged_row (e : env) (d : db) (c : command) (k : string) (row : query_row) :
  logged_row e c = Some (k, row) ->
  In k ["reads"; "changes"; "tests"; "notes"; "errors"]
  /\ row_time row = now e
  /\ rows_of_kind (run e d c) (snd (get_current_session e d)) k
     = rows_of_kind d (snd (get_current_session e d)) k ++ [row].
Proof.
  intros Hl.
  pose proof (get_current_session_tables e d) as Ht. cbv zeta in Ht.
  destruct c; simpl in Hl; try discriminate; injection Hl as <- <-;
    (split; [simpl; tauto|]); (split; [reflexivity|]);
    unfold run, log_read, log_change, log_test, add_note, log_error, rows_of_kind;
    destruct (get_current_session e d) as [d1 sid]; cbn [fst snd] in Ht |- *;
    destruct Ht as (Hr & Hc & Hts & Hn & He); rewrite ?Hr, ?Hc, ?Hts, ?Hn, ?He;
    cbn [String.eqb Ascii.eqb Bool.eqb file_reads changes tests notes errors];
    simpl; rewrite filter_app, map_app; simpl; rewrite Z.eqb_refl; reflexivity.
Qed.

(** X22. What was logged can be read back. On a store with at most one
    active session per path, after a command that logs a read, a change, a
    test, a note or an error, a query of that kind in the same directory
    returns the row of that event, when the limit is a signed 64-bit
    integer (what SQLite can bind) that is negative or larger than the
    number of rows of that kind in the session that are not older than
    it. *)
Theorem query_returns_logged_row (e1 e2 : env) (d : db) (c : command) (k : string)
    (row : query_row) (lim : Z) :
  one_active_per_path d ->
  cwd e2 = cwd e1 ->
  logged_row e1 c = Some (k, row) ->
  Sql.integer lim ->
  lim < 0
  \/ Z.of_nat
       (List.length
          (filter (fun r => now e1 <=? row_time r)
             (rows_of_kind d (snd (get_current_session e1 d)) k))) < lim ->
  In row (snd (query_session e2 (run e1 d c) (Some k) lim)).
Proof.
  intros Hone Hcwd Hl _ Hlim.
  destruct (run_logged_row e1 d c k row Hl) as (Hk & Htime & Hrows).
  rewrite (query_by_kind e2 _ k lim Hk), (resolve_after_run e1 e2 d c Hone Hcwd), Hrows.
  set (rows := rows_of_kind d (snd (get_current_session e1 d)) k) in *.
  assert (In row (Sql.order_by_desc row_time (rows ++ [row]))) as Hin
    by (apply order_by_desc_in, in_or_app; right; now left).
  unfold Sql.limit. destruct (lim <? 0) eqn:Hneg; [exact Hin|].
  apply Z.ltb_ge in Hneg. destruct Hlim as [Hlim | Hlim]; [lia|].
  apply (sorted_top_in row_time); [apply order_by_desc_sorted | exact Hin |].
  rewrite (filter_length_perm _ _ _ (order_by_desc_perm row_time (rows ++ [row]))).
  rewrite filter_app, length_app, Htime. simpl. rewrite Htime, Z.leb_refl. simpl. lia.
Qed.

(** X22, from the empty store: a failed test is read back with limit 1. *)
Lemma query_returns_logged_row_witness :
  In (TestRow "pytest" "fail" (Some "1 failed") 5)
     (snd (query_session (mkEnv "/repo" 6 (fun _ => Missing))
             (run (mkEnv "/repo" 5 (fun _ => Missing)) empty_db
                (CmdTest "pytest" "fail" (Some "1 failed")))
             (Some "tests") 1)).
Proof.
  refine (query_returns_logged_row (mkEnv "/repo" 5 (fun _ => Missing))
            (mkEnv "/repo" 6 (fun _ => Missing)) empty_db
            (CmdTest "pytest" "fail" (Some "1 failed")) "tests" _ 1 _ eq_refl eq_refl _ _).
  - intros p. simpl. lia.
  - unfold Sql.integer. lia.
  - right. vm_compute. reflexivity.
Defined.

(** ** Spellings of a path *)

Lemma split_acc_sep (sep : ascii) (a b cur : string) :
  Py.split_acc sep (a ++ String sep b) cur
  = Py.split_acc sep a cur ++ Py.split_acc sep b EmptyString.
Proof.
  revert cur. induction a as [|c a IH]; intros cur; simpl.
  - now rewrite Ascii.eqb_refl.
  - destruct (Ascii.eqb c sep); simpl; now rewrite IH.
Qed.

Lemma split_sep (sep : ascii) (a b : string) :
  Py.split sep (a ++ String sep b) = Py.split sep a ++ Py.split sep b.
Proof. apply split_acc_sep. Qed.

Lemma norm_comps_app (n : nat) (l1 l2 acc : list string) :
  Path.norm_comps n (l1 ++ l2) acc
  = Path.norm_comps n l2 (rev (Path.norm_comps n l1 acc)).
Proof.
  revert acc. induction l1 as [|c l1 IH]; intros acc; simpl.
  - now rewrite rev_involutive.
  - destruct (String.eqb c "" || String.eqb c "."); [apply IH|].
    destruct (negb (String.eqb c "..") || _ || _); apply IH.
Qed.

Lemma initial_slashes_dot (x p : string) :
  Py.startswith "/" p = false ->
  Path.initial_slashes (x ++ String Path.slash ("./" ++ p))
  = Path.initial_slashes (x ++ String Path.slash p).
Proof.
  intros Hp. unfold Path.initial_slashes.
  destruct x as [|c1 [|c2 [|c3 x]]]; simpl; rewrite ?Hp; try reflexivity.
  - destruct p as [|c p]; simpl in *; [reflexivity|]. now rewrite Hp.
  - destruct p as [|c p]; simpl in *; rewrite ?Hp, ?andb_false_r; reflexivity.
Qed.

Lemma normpath_dot (x p : string) :
  Py.startswith "/" p = false ->
  Path.normpath (x ++ String Path.slash ("./" ++ p))
  = Path.normpath (x ++ String Path.slash p).
Proof.
  intros Hp. unfold Path.normpath.
  assert (forall t, String.eqb (x ++ String Path.slash t) "" = false) as Hne
    by (intros t; destruct x; reflexivity).
  rewrite !Hne, (initial_slashes_dot x p Hp).
  change ("./" ++ p)%string with ("." ++ String Path.slash p)%string.
  rewrite !split_sep, !norm_comps_app.
  change (Py.split Path.slash ".") with ["."]. cbn [Path.norm_comps String.eqb orb].
  simpl String.eqb. cbn [orb]. rewrite !rev_involutive. reflexivity.
Qed.

Lemma normpath_dot_start (p : string) :
  Py.startswith "/" p = false ->
  Path.normpath ("./" ++ p) = Path.normpath p.
Proof.
  intros Hp. destruct p as [|c p]; [reflexivity|].
  unfold Path.normpath, Path.initial_slashes.
  change ("./" ++ String c p)%string with ("." ++ String Path.slash (String c p))%string.
  rewrite split_sep. rewrite Hp. reflexivity.
Qed.

Lemma abspath_dot (cwd p : string) :
  Py.startswith "/" p = false ->
  Path.abspath cwd ("./" ++ p) = Path.abspath cwd p.
Proof.
  intros Hp. unfold Path.abspath, Path.isabs, Path.join. rewrite Hp.
  change (Py.startswith "/" ("./" ++ p)) with false. cbv iota.
  destruct (String.eqb cwd "") eqn:He.
  - apply String.eqb_eq in He. subst cwd. simpl. now apply normpath_dot_start.
  - simpl. destruct (Py.endswith "/" cwd) eqn:Hs.
    + apply endswith_suffix in Hs. destruct Hs as [x ->].
      rewrite !append_assoc. now apply normpath_dot.
    + now apply normpath_dot.
Qed.

(** X23. A leading "./" does not change the record. For a relative file
    path, [log_read] and [log_change] called with "./" in front of the path
    do exactly what they do with the path itself: both spellings are stored
    under the same absolute path, so a change finds the read of the other
    spelling. *)
Theorem dot_slash_same_record (e : env) (d : db) (p : string) :
  Py.startswith "/" p = false ->
  Path.abspath (cwd e) ("./" ++ p) = Path.abspath (cwd e) p
  /\ (forall context, log_read e d ("./" ++ p) context = log_read e d p context)
  /\ (forall change_type description,
        log_change e d ("./" ++ p) change_type description
        = log_change e d p change_type description).
Proof.
  intros Hp. pose proof (abspath_dot (cwd e) p Hp) as Ha.
  split; [exact Ha|]. split.
  - intros context. unfold log_read. now rewrite Ha.
  - intros change_type description. unfold log_change. now rewrite Ha.
Qed.

(** X23, in /repo: ./src/a.py and src/a.py. *)
Lemma dot_slash_same_record_witness :
  Path.abspath "/repo" "./src/a.py" = Path.abspath "/repo" "src/a.py".
Proof.
  exact (proj1 (dot_slash_same_record (mkEnv "/repo" 1 (fun _ => Missing)) empty_db
                  "src/a.py" eq_refl)).
Defined.
